(** * RAPT integration: the API client, the polling coordinator and the sensor
    lookup, embedded as state-passing functions over an explicit world.

    Sources embedded here:
    - [custom_components/rapt/const.py]        (module [Const])
    - [custom_components/rapt/api.py]          (modules [Api] and [Gate])
    - [custom_components/rapt/coordinator.py]  (module [Coordinator])
    - [custom_components/rapt/sensor.py]       (modules [Sensor] and [Platform])
    - [custom_components/rapt/config_flow.py]  (module [ConfigFlow])

    Conventions.  Instants ([datetime]) and durations ([timedelta]) are
    integers counting microseconds, the resolution of both Python types;
    what [total_seconds] and [asyncio.sleep] do with floats is taken as
    exact.  Decoded JSON is the inductive [json]; JSON numbers are integers.
    A coroutine is a function from the state before the call to an outcome
    (a value or a raised exception) and the state after it: mutations made
    before an exception is raised persist, as they do in Python.  Logging
    is left out.

    Layout.  The embedding comes first, then the notions the properties are
    stated with and the concrete scenarios, then the properties:
    [ApiFacts] (token life cycle, retry after a 401, the four fetches),
    [GateFacts] (the gate under concurrent callers),
    [CoordinatorFacts] (polls, snapshots, discovery), [SensorFacts] (where
    a sensor value is looked up) and [ScenarioFacts] (the properties at
    concrete inputs); then [RequestFacts] (one request from the gate to the
    answer, the four in a row, the spacing of the stamps), [PollFacts]
    (what polls and discoveries do to the known devices), [LookupFacts],
    [PlatformFacts] and [EntityFacts] (which sensors are set up and what
    they read), [ConfigFlowFacts] and [FurtherScenarioFacts]. *)

From Stdlib Require Import ZArith String List Lia Bool.
From stdpp Require Import base decidable option list strings pretty gmap.

Set Warnings "-register-all,-clear-no-such-hyp".

Local Open Scope string_scope.
Local Open Scope list_scope.
Local Open Scope Z_scope.

(* ===================================================================== *)
(** ** Python values and exceptions *)
(* ===================================================================== *)

Module Py.

(** Decoded JSON, as [json.loads] builds it: [None], [bool], [int], [str],
    [list], and [dict] with string keys (kept as its item list). *)
Inductive json : Type :=
| JNull
| JBool (b : bool)
| JNum (n : Z)
| JStr (s : string)
| JList (items : list json)
| JObj (fields : list (string * json)).

(** The exceptions the modelled code raises or lets through. *)
Inductive exn : Type :=
| RaptApiError (msg : string)
| TypeError
| KeyError
| AttributeError
| OverflowError
| UpdateFailed (prefix : string) (cause : exn).

Inductive result (A : Type) : Type :=
| Ok (a : A)
| Raise (e : exn).
Arguments Ok {A} a.
Arguments Raise {A} e.

(** [bool(v)] *)
Definition truthy (v : json) : bool :=
  match v with
  | JNull => false
  | JBool b => b
  | JNum n => negb (n =? 0)
  | JStr s => negb (String.eqb s "")
  | JList l => match l with [] => false | _ => true end
  | JObj f => match f with [] => false | _ => true end
  end.

Fixpoint assoc (key : string) (fields : list (string * json)) : option json :=
  match fields with
  | [] => None
  | (k, v) :: rest => if String.eqb k key then Some v else assoc key rest
  end.

Definition is_str (key : string) (v : json) : bool :=
  match v with
  | JStr s => String.eqb s key
  | _ => false
  end.

Definition is_substring (needle s : string) : bool :=
  match String.index 0 needle s with
  | Some _ => true
  | None => false
  end.

(** [key in container], for a string [key] *)
Definition py_contains (key : string) (container : json) : result bool :=
  match container with
  | JObj f => Ok (match assoc key f with Some _ => true | None => false end)
  | JList l => Ok (existsb (is_str key) l)
  | JStr s => Ok (is_substring key s)
  | JNull | JBool _ | JNum _ => Raise TypeError
  end.

(** [container[key]], for a string [key] *)
Definition py_getitem (container : json) (key : string) : result json :=
  match container with
  | JObj f => match assoc key f with Some v => Ok v | None => Raise KeyError end
  | _ => Raise TypeError
  end.

(** [d.get(key)]: only a dict has the method *)
Definition py_get (d : json) (key : string) : result (option json) :=
  match d with
  | JObj f => Ok (assoc key f)
  | _ => Raise AttributeError
  end.

(** [isinstance(v, list)] with the list it holds *)
Definition as_list (v : json) : option (list json) :=
  match v with
  | JList l => Some l
  | _ => None
  end.

(** An attribute that is [None] or a value: JSON [null] decodes to [None]. *)
Definition py_optional (v : json) : option json :=
  match v with
  | JNull => None
  | _ => Some v
  end.

End Py.
Export Py.

(* ===================================================================== *)
(** ** [datetime] and [timedelta] *)
(* ===================================================================== *)

Module Datetime.

Definition us_per_second : Z := 1000000.

Definition seconds (n : Z) : Z := n * us_per_second.

(** [timedelta.max] is 999999999 days, 23:59:59.999999; [timedelta.min]
    is -999999999 days. *)
Definition timedelta_min : Z := seconds (-999999999 * 86400).
Definition timedelta_max : Z := seconds (1000000000 * 86400) - 1.

(** Instants count microseconds from [datetime.min]; [datetime.max] is
    9999-12-31 23:59:59.999999, 3652059 days later less a microsecond. *)
Definition datetime_max : Z := seconds (3652059 * 86400) - 1.

(** [timedelta(seconds=v)] *)
Definition timedelta_seconds (v : json) : result Z :=
  let of_int (n : Z) :=
    if (timedelta_min <=? seconds n) && (seconds n <=? timedelta_max)
    then Ok (seconds n) else Raise OverflowError in
  match v with
  | JNum n => of_int n
  | JBool b => of_int (if b then 1 else 0)
  | _ => Raise TypeError
  end.

(** [t + d] on a [datetime] and a [timedelta] *)
Definition datetime_add (t d : Z) : result Z :=
  if (0 <=? t + d) && (t + d <=? datetime_max) then Ok (t + d)
  else Raise OverflowError.

Arguments timedelta_seconds : simpl never.
Arguments datetime_add : simpl never.

End Datetime.
Export Datetime.

(* ===================================================================== *)
(** ** const.py *)
(* ===================================================================== *)

Module Const.
Definition DOMAIN := "rapt".
Definition API_BASE_URL := "https://api.rapt.io/api".
Definition API_AUTH_URL := "https://id.rapt.io/connect/token".
Definition API_CONTROLLERS_ENDPOINT := "/TemperatureControllers/GetTemperatureControllers".
Definition API_HYDROMETERS_ENDPOINT := "/Hydrometers/GetHydrometers".
Definition API_FERMENTATION_CHAMBERS_ENDPOINT := "/FermentationChambers/GetFermentationChambers".
Definition API_BREWZILLAS_ENDPOINT := "/BrewZillas/GetBrewZillas".
Definition UPDATE_INTERVAL_SECONDS : Z := 60.
End Const.
Export Const.

(* ===================================================================== *)
(** ** The world outside the program *)
(* ===================================================================== *)

Module World.

(** What an HTTP exchange gives back.  [body_json] is what
    [await response.json()] returns; [None] stands for the
    [aiohttp.ContentTypeError] it raises on a body that is not JSON. *)
Record body := { body_text : string; body_json : option json }.

Inductive http_outcome : Type :=
| ClientError (msg : string)           (* aiohttp.ClientError, with str(err) *)
| Response (status : Z) (b : body).

Record exchange := { took : N; outcome : http_outcome }.

(** The environment answers the n-th network call and says by how much
    the n-th sleep overshoots; both only ever move the clock forward. *)
Record env := { respond : nat -> exchange; oversleep : nat -> N }.

(** What the program does to the outside, in order. *)
Inductive event : Type :=
| EvSleep (d : Z)
| EvPost (url username password : string)
| EvRequest (method url : string) (bearer : option json)
| EvCallback (index : nat) (new_devices : list json)
| EvRequestRefresh.

Record world := {
  clock : Z;            (* datetime.now() *)
  calls : nat;          (* network calls made so far *)
  sleeps : nat;         (* sleeps taken so far *)
  trace : list event    (* oldest first *)
}.

Definition log (ev : event) (w : world) : world :=
  {| clock := clock w; calls := calls w; sleeps := sleeps w;
     trace := trace w ++ [ev] |}.

(** One network round trip: logged, answered by the environment, and the
    clock moved on by the time it took. *)
Definition exchange_with (E : env) (ev : event) (w : world) : http_outcome * world :=
  let x := respond E (calls w) in
  (outcome x,
   {| clock := clock w + Z.of_N (took x); calls := S (calls w);
      sleeps := sleeps w; trace := trace w ++ [ev] |}).

(** [await asyncio.sleep(d)]: returns no earlier than [d] later. *)
Definition sleep_for (E : env) (d : Z) (w : world) : world :=
  {| clock := clock w + d + Z.of_N (oversleep E (sleeps w)); calls := calls w;
     sleeps := S (sleeps w); trace := trace w ++ [EvSleep d] |}.

End World.
Export World.

(* ===================================================================== *)
(** ** Coroutines: state passing with exceptions *)
(* ===================================================================== *)

Module Co.

Definition M (S A : Type) : Type := S -> result A * S.

#[global] Instance M_ret {S : Type} : MRet (M S) := fun A a s => (Ok a, s).

#[global] Instance M_bind {S : Type} : MBind (M S) := fun A B f m s =>
  match m s with
  | (Ok a, s') => f a s'
  | (Raise e, s') => (Raise e, s')
  end.

Definition raise {S A : Type} (e : exn) : M S A := fun s => (Raise e, s).

Definition lift {S A : Type} (r : result A) : M S A := fun s => (r, s).

(** [try: m  except Exception as err: handler(err)] *)
Definition try_except {S A : Type} (m : M S A) (handler : exn -> M S A) : M S A :=
  fun s =>
    match m s with
    | (Ok a, s') => (Ok a, s')
    | (Raise e, s') => handler e s'
    end.

End Co.
Export Co.

(* ===================================================================== *)
(** ** api.py: [RaptApiClient] *)
(* ===================================================================== *)

Module Api.

(** The attributes [__init__] sets, less the session and the lock: the
    session is the [env] the functions below are given, and the lock is
    modelled with its waiters in module [Gate]. *)
Record RaptApiClient := {
  _username : string;
  _api_secret : string;
  _bearer_token : option json;
  _token_expires_at : option Z;
  _last_request_time : option Z
}.

(** [RaptApiClient(username, api_secret, session)] *)
Definition init (username api_secret : string) : RaptApiClient :=
  {| _username := username; _api_secret := api_secret;
     _bearer_token := None; _token_expires_at := None;
     _last_request_time := None |}.

Record state := { client : RaptApiClient; outside : world }.

(** A coroutine of the client. *)
Abbreviation M := (Co.M state).

Definition get_client : M RaptApiClient := fun s => (Ok (client s), s).

(** [datetime.now()] *)
Definition datetime_now : M Z := fun s => (Ok (clock (outside s)), s).

Definition set_bearer_token (t : option json) : M unit := fun s =>
  (Ok tt,
   {| client := {| _username := _username (client s);
                   _api_secret := _api_secret (client s);
                   _bearer_token := t;
                   _token_expires_at := _token_expires_at (client s);
                   _last_request_time := _last_request_time (client s) |};
      outside := outside s |}).

Definition set_token_expires_at (t : option Z) : M unit := fun s =>
  (Ok tt,
   {| client := {| _username := _username (client s);
                   _api_secret := _api_secret (client s);
                   _bearer_token := _bearer_token (client s);
                   _token_expires_at := t;
                   _last_request_time := _last_request_time (client s) |};
      outside := outside s |}).

Definition set_last_request_time (t : option Z) : M unit := fun s =>
  (Ok tt,
   {| client := {| _username := _username (client s);
                   _api_secret := _api_secret (client s);
                   _bearer_token := _bearer_token (client s);
                   _token_expires_at := _token_expires_at (client s);
                   _last_request_time := t |};
      outside := outside s |}).

(** [d.get(key, default)] *)
Definition py_get_default (d : json) (key : string) (default : json) : result json :=
  match py_get d key with
  | Ok (Some v) => Ok v
  | Ok None => Ok default
  | Raise e => Raise e
  end.

(** Lines 104-107: how long the caller has to sleep, if at all. *)
Definition required_sleep (now : Z) (last : option Z) : option Z :=
  match last with
  | None => None
  | Some l =>
      let time_since_last := now - l in
      if time_since_last <? seconds 15
      then Some (seconds 15 - time_since_last)
      else None
  end.

(** The condition of [_ensure_authenticated], lines 93-97. *)
Definition token_missing_or_expired (c : RaptApiClient) (now : Z) : bool :=
  match _bearer_token c, _token_expires_at c with
  | None, _ => true
  | Some _, None => true
  | Some _, Some expires_at => expires_at <=? now
  end.

Section WithSession.

Variable E : env.

(** A round trip through [self._session]. *)
Definition session_call (ev : event) : M http_outcome := fun s =>
  let '(o, w) := exchange_with E ev (outside s) in
  (Ok o, {| client := client s; outside := w |}).

(** [await asyncio.sleep(d)] *)
Definition asyncio_sleep (d : Z) : M unit := fun s =>
  (Ok tt, {| client := client s; outside := sleep_for E d (outside s) |}).

Definition authenticate : M unit :=
  c ← get_client;
  o ← session_call (EvPost API_AUTH_URL (_username c) (_api_secret c));
  match o with
  | ClientError msg => raise (RaptApiError ("Network error: " +:+ msg))
  | Response status b =>
      if status =? 400 then
        raise (RaptApiError "Authentication failed: Invalid username or API key")
      else if status =? 401 then
        raise (RaptApiError "Authentication failed: Invalid username or API key")
      else if negb (status =? 200) then
        raise (RaptApiError ("Authentication failed: HTTP " +:+ pretty status))
      else
        token_data ← match body_json b with
                     | Some v => mret v
                     | None => raise (RaptApiError "Authentication failed: Invalid response format")
                     end;
        present ← lift (py_contains "access_token" token_data);
        if negb present then
          raise (RaptApiError "No access token received from API")
        else
          access_token ← lift (py_getitem token_data "access_token");
          set_bearer_token (py_optional access_token);;
          expires_in_seconds ← lift (py_get_default token_data "expires_in" (JNum 2700));
          now ← datetime_now;
          delta ← lift (timedelta_seconds expires_in_seconds);
          expires_at ← lift (datetime_add now delta);
          set_token_expires_at (Some expires_at)
  end.

Definition _ensure_authenticated : M unit :=
  c ← get_client;
  now ← datetime_now;
  if token_missing_or_expired c now then authenticate else mret tt.

(** [await response.json()] under [except aiohttp.ContentTypeError]. *)
Definition response_json (b : body) : M json :=
  match body_json b with
  | Some v => mret v
  | None => raise (RaptApiError "Invalid JSON response from API")
  end.

(** Lines 104-113, run with the lock held: wait out the window, stamp the
    request, make sure there is a token. *)
Definition enter_gate : M unit :=
  c ← get_client;
  now ← datetime_now;
  match required_sleep now (_last_request_time c) with
  | Some sleep_time => asyncio_sleep sleep_time
  | None => mret tt
  end;;
  stamp ← datetime_now;
  set_last_request_time (Some stamp);;
  _ensure_authenticated.

(** Lines 115-161: the request, and after a 401 the re-authentication and
    the one retry.  The [Authorization] header carries [self._bearer_token]
    as it is when the header is written. *)
Definition send (method url : string) : M json :=
  c ← get_client;
  o ← session_call (EvRequest method url (_bearer_token c));
  match o with
  | ClientError msg => raise (RaptApiError ("Network error: " +:+ msg))
  | Response status b =>
      if status =? 401 then
        authenticate;;
        c' ← get_client;
        o' ← session_call (EvRequest method url (_bearer_token c'));
        match o' with
        | ClientError msg => raise (RaptApiError ("Network error: " +:+ msg))
        | Response retry_status rb =>
            if negb (retry_status =? 200) then
              raise (RaptApiError ("Request failed after re-auth: "
                                   +:+ pretty retry_status +:+ " - " +:+ body_text rb))
            else response_json rb
        end
      else if negb (status =? 200) then
        if status =? 403 then
          raise (RaptApiError ("Access forbidden: " +:+ body_text b))
        else if status =? 404 then
          raise (RaptApiError ("API endpoint not found: " +:+ body_text b))
        else if 500 <=? status then
          raise (RaptApiError ("Server error: " +:+ pretty status +:+ " - " +:+ body_text b))
        else
          raise (RaptApiError ("Request failed: " +:+ pretty status +:+ " - " +:+ body_text b))
      else response_json b
  end.

Definition _rate_limited_request (method url : string) : M json :=
  enter_gate;;
  send method url.

Definition get_temperature_controllers : M (list json) :=
  data ← _rate_limited_request "GET" (API_BASE_URL +:+ API_CONTROLLERS_ENDPOINT);
  match as_list data with
  | Some l => mret l
  | None => mret []
  end.

Definition get_all_controller_data : M (list json) := get_temperature_controllers.

Definition get_hydrometers : M (list json) :=
  data ← _rate_limited_request "GET" (API_BASE_URL +:+ API_HYDROMETERS_ENDPOINT);
  match as_list data with
  | Some l => mret l
  | None => mret []
  end.

Definition get_all_hydrometer_data : M (list json) := get_hydrometers.

Definition get_fermentation_chambers : M (list json) :=
  data ← _rate_limited_request "GET" (API_BASE_URL +:+ API_FERMENTATION_CHAMBERS_ENDPOINT);
  match as_list data with
  | Some l => mret l
  | None => mret []
  end.

Definition get_all_fermentation_chamber_data : M (list json) := get_fermentation_chambers.

Definition get_brewzillas : M (list json) :=
  data ← _rate_limited_request "GET" (API_BASE_URL +:+ API_BREWZILLAS_ENDPOINT);
  match as_list data with
  | Some l => mret l
  | None => mret []
  end.

Definition get_all_brewzilla_data : M (list json) := get_brewzillas.

(** The dict [get_all_devices] returns, by key. *)
Record all_devices := {
  controllers : list json;
  hydrometers : list json;
  fermentation_chambers : list json;
  brewzillas : list json
}.

Definition get_all_devices : M all_devices :=
  controllers ← get_all_controller_data;
  hydrometers ← get_all_hydrometer_data;
  fermentation_chambers ← get_all_fermentation_chamber_data;
  brewzillas ← get_all_brewzilla_data;
  mret {| controllers := controllers; hydrometers := hydrometers;
          fermentation_chambers := fermentation_chambers;
          brewzillas := brewzillas |}.

Definition get_devices : M (list json) := get_all_controller_data.

Definition validate_connection : M bool := fun s =>
  match (authenticate;; get_temperature_controllers) s with
  | (Ok _, s') => (Ok true, s')
  | (Raise _, s') => (Ok false, s')
  end.

End WithSession.

End Api.

(* ===================================================================== *)
(** ** coordinator.py: [RaptDataUpdateCoordinator] *)
(* ===================================================================== *)

Module Coordinator.

(** What a Python set of device ids holds: [None], an integer or a string.
    [True] and [1] are one element; a list or a dict cannot be put in a
    set. *)
Definition id_key : Type := option (Z + string).

(** [hash(v)], as far as set membership goes. *)
Definition hashable (v : json) : result id_key :=
  match v with
  | JNull => Ok None
  | JBool b => Ok (Some (inl (if b then 1 else 0)))
  | JNum n => Ok (Some (inl n))
  | JStr s => Ok (Some (inr s))
  | JList _ | JObj _ => Raise TypeError
  end.

(** The dict [_async_update_data] returns, by key. *)
Record snapshot := {
  snap_controllers : list json;
  snap_hydrometers : list json;
  snap_fermentation_chambers : list json;
  snap_brewzillas : list json;
  snap_devices : list json;
  last_updated : bool
}.

(** A registered discovery callback: what awaiting it on the list of new
    devices comes to.  Its own effects are outside the model; that it was
    called, and with what, is recorded in the trace. *)
Definition callback : Type := list json -> result unit.

(** [data] and [last_update_success] are the attributes of the host's
    [DataUpdateCoordinator] base class; the rest is set in [__init__]. *)
Record RaptDataUpdateCoordinator := {
  data : option snapshot;
  last_update_success : bool;
  _devices : list json;
  _known_device_ids : gset id_key;
  _discovery_callbacks : list callback
}.

Record state := { self : RaptDataUpdateCoordinator; api_client : Api.state }.

Abbreviation M := (Co.M state).

(** [RaptDataUpdateCoordinator(hass, api_client)] *)
Definition init : RaptDataUpdateCoordinator :=
  {| data := None; last_update_success := true; _devices := [];
     _known_device_ids := ∅; _discovery_callbacks := [] |}.

Definition get_self : M RaptDataUpdateCoordinator := fun s => (Ok (self s), s).

Definition set_devices (l : list json) : M unit := fun s =>
  (Ok tt,
   {| self := {| data := data (self s);
                 last_update_success := last_update_success (self s);
                 _devices := l;
                 _known_device_ids := _known_device_ids (self s);
                 _discovery_callbacks := _discovery_callbacks (self s) |};
      api_client := api_client s |}).

Definition set_known_device_ids (k : gset id_key) : M unit := fun s =>
  (Ok tt,
   {| self := {| data := data (self s);
                 last_update_success := last_update_success (self s);
                 _devices := _devices (self s);
                 _known_device_ids := k;
                 _discovery_callbacks := _discovery_callbacks (self s) |};
      api_client := api_client s |}).

(** [self._known_device_ids.add(device_id)] *)
Definition known_add (device_id : json) : M unit :=
  k ← lift (hashable device_id);
  c ← get_self;
  set_known_device_ids ({[ k ]} ∪ _known_device_ids c).

(** A coroutine of the client, awaited from the coordinator. *)
Definition await_api {A : Type} (m : Api.M A) : M A := fun s =>
  let '(r, a) := m (api_client s) in
  (r, {| self := self s; api_client := a |}).

Definition emit (ev : event) : M unit := fun s =>
  (Ok tt,
   {| self := self s;
      api_client := {| Api.client := Api.client (api_client s);
                       Api.outside := log ev (Api.outside (api_client s)) |} |}).

(** The loop of [_track_known_devices], lines 106-109. *)
Fixpoint track_each (devices : list json) : M unit :=
  match devices with
  | [] => mret tt
  | device :: rest =>
      device_id ← lift (py_get device "id");
      match device_id with
      | Some v => if truthy v then known_add v else mret tt
      | None => mret tt
      end;;
      track_each rest
  end.

Definition _track_known_devices
    (controllers hydrometers fermentation_chambers brewzillas : list json) : M unit :=
  track_each (controllers ++ hydrometers ++ fermentation_chambers ++ brewzillas).

(** The loop of [async_discover_devices], lines 84-90, with [new_devices]
    as built so far; [current_device_ids] is only ever added to, which the
    hash of the id stands for. *)
Fixpoint discover_each (devices new_devices : list json) : M (list json) :=
  match devices with
  | [] => mret new_devices
  | device :: rest =>
      device_id ← lift (py_get device "id");
      match device_id with
      | Some v =>
          if truthy v then
            k ← lift (hashable v);
            c ← get_self;
            if decide (k ∈ _known_device_ids c) then discover_each rest new_devices
            else
              known_add v;;
              discover_each rest (new_devices ++ [device])
          else discover_each rest new_devices
      | None => discover_each rest new_devices
      end
  end.

(** [for callback in self._discovery_callbacks: await callback(new_devices)],
    the callbacks numbered from [index] in registration order. *)
Fixpoint notify (callbacks : list callback) (index : nat) (new_devices : list json) : M unit :=
  match callbacks with
  | [] => mret tt
  | cb :: rest =>
      emit (EvCallback index new_devices);;
      lift (cb new_devices);;
      notify rest (S index) new_devices
  end.

(** [await self.async_request_refresh()]: the host's method; the request is
    recorded, what the host then does is its own business. *)
Definition async_request_refresh : M unit := emit EvRequestRefresh.

Definition register_discovery_callback (cb : callback) : M unit := fun s =>
  (Ok tt,
   {| self := {| data := data (self s);
                 last_update_success := last_update_success (self s);
                 _devices := _devices (self s);
                 _known_device_ids := _known_device_ids (self s);
                 _discovery_callbacks := _discovery_callbacks (self s) ++ [cb] |};
      api_client := api_client s |}).

(** The [devices] property. *)
Definition devices (c : RaptDataUpdateCoordinator) : list json := _devices c.

Section WithSession.

Variable E : env.

Definition _async_update_data : M snapshot :=
  try_except
    (all_devices ← await_api (Api.get_all_devices E);
     let controllers_data := Api.controllers all_devices in
     let hydrometers_data := Api.hydrometers all_devices in
     let fermentation_chambers_data := Api.fermentation_chambers all_devices in
     let brewzillas_data := Api.brewzillas all_devices in
     _track_known_devices controllers_data hydrometers_data
                          fermentation_chambers_data brewzillas_data;;
     set_devices (controllers_data ++ hydrometers_data
                  ++ fermentation_chambers_data ++ brewzillas_data);;
     c ← get_self;
     mret {| snap_controllers := controllers_data;
             snap_hydrometers := hydrometers_data;
             snap_fermentation_chambers := fermentation_chambers_data;
             snap_brewzillas := brewzillas_data;
             snap_devices := _devices c;
             last_updated := last_update_success c |})
    (fun err =>
       match err with
       | RaptApiError _ => raise (UpdateFailed "Error communicating with RAPT API: " err)
       | _ => raise (UpdateFailed "Unexpected error: " err)
       end).

Definition async_discover_devices : M unit :=
  try_except
    (all_devices ← await_api (Api.get_all_devices E);
     let controllers_data := Api.controllers all_devices in
     let hydrometers_data := Api.hydrometers all_devices in
     let fermentation_chambers_data := Api.fermentation_chambers all_devices in
     let brewzillas_data := Api.brewzillas all_devices in
     new_devices ← discover_each (controllers_data ++ hydrometers_data
                                  ++ fermentation_chambers_data ++ brewzillas_data) [];
     match new_devices with
     | _ :: _ =>
         c ← get_self;
         notify (_discovery_callbacks c) 0 new_devices
     | [] => mret tt
     end;;
     async_request_refresh)
    (fun err => mret tt).

(** Modelled from the spec: the host's refresh around [_async_update_data],
    which is not in this repository.  A successful poll replaces the
    snapshot wholesale and marks the last update a success; a failed one
    keeps the prior snapshot and records the failure. *)
Definition refresh (s : state) : state :=
  match _async_update_data s with
  | (Ok d, s') =>
      {| self := {| data := Some d; last_update_success := true;
                    _devices := _devices (self s');
                    _known_device_ids := _known_device_ids (self s');
                    _discovery_callbacks := _discovery_callbacks (self s') |};
         api_client := api_client s' |}
  | (Raise _, s') =>
      {| self := {| data := data (self s'); last_update_success := false;
                    _devices := _devices (self s');
                    _known_device_ids := _known_device_ids (self s');
                    _discovery_callbacks := _discovery_callbacks (self s') |};
         api_client := api_client s' |}
  end.

End WithSession.

End Coordinator.

(* ===================================================================== *)
(** ** sensor.py: [RaptSensor] *)
(* ===================================================================== *)

Module Sensor.

Import Coordinator.

Section WithBuiltins.

(** Python's [float], and the built-ins [_parse_value] calls on a string or
    on any other value; [None] is the [ValueError] a conversion raises. *)
Variable py_float : Type.
Variable float_of_str : string -> option py_float.
Variable int_of_str : string -> option Z.
Variable str_of : json -> string.

Inductive native : Type :=
| NInt (n : Z)
| NFloat (x : py_float)
| NStr (s : string).

(** The attributes [__init__] sets that the properties below read; [key]
    is [entity_description.key]. *)
Record RaptSensor := {
  key : string;
  _device_id : string;
  _device_name : string;
  _device_type : string
}.

Definition _parse_value (value : json) : option native :=
  match value with
  | JNull => None
  | JBool b => Some (NInt (if b then 100 else 0))
  | JNum n => Some (NInt n)
  | JStr s =>
      match float_of_str s with
      | Some x => Some (NFloat x)
      | None =>
          match int_of_str s with
          | Some n => Some (NInt n)
          | None => Some (NStr s)
          end
      end
  | JList _ | JObj _ => Some (NStr (str_of value))
  end.

(** [dev.get("id") == self._device_id], the right-hand side a [str] *)
Definition id_is (device_id : string) (dev : json) : result bool :=
  match py_get dev "id" with
  | Ok (Some (JStr s)) => Ok (String.eqb s device_id)
  | Ok _ => Ok false
  | Raise e => Raise e
  end.

(** The loop of [native_value], lines 837-840: the first record with the id. *)
Fixpoint find_device (device_id : string) (devices : list json) : result (option json) :=
  match devices with
  | [] => Ok None
  | dev :: rest =>
      match id_is device_id dev with
      | Ok true => Ok (Some dev)
      | Ok false => find_device device_id rest
      | Raise e => Raise e
      end
  end.

(** Lines 845-855: the value on the record itself, else in [telemetry[0]]. *)
Definition read_sensor (sensor_key : string) (device : json) : result (option native) :=
  match py_contains sensor_key device with
  | Raise e => Raise e
  | Ok true =>
      match py_getitem device sensor_key with
      | Ok v => Ok (_parse_value v)
      | Raise e => Raise e
      end
  | Ok false =>
      match py_contains "telemetry" device with
      | Raise e => Raise e
      | Ok false => Ok None
      | Ok true =>
          match py_getitem device "telemetry" with
          | Raise e => Raise e
          | Ok (JList (latest_telemetry :: _)) =>
              match py_contains sensor_key latest_telemetry with
              | Raise e => Raise e
              | Ok true =>
                  match py_getitem latest_telemetry sensor_key with
                  | Ok v => Ok (_parse_value v)
                  | Raise e => Raise e
                  end
              | Ok false => Ok None
              end
          | Ok _ => Ok None
          end
      end
  end.

Definition native_value (coordinator : RaptDataUpdateCoordinator) (sensor : RaptSensor)
    : result (option native) :=
  match data coordinator with
  | None => Ok None
  | Some d =>
      let devices :=
        if String.eqb (_device_type sensor) "TemperatureController"
        then snap_controllers d
        else snap_hydrometers d in
      match find_device (_device_id sensor) devices with
      | Raise e => Raise e
      | Ok None => Ok None
      | Ok (Some device) =>
          if negb (truthy device) then Ok None
          else read_sensor (key sensor) device
      end
  end.

Definition available (coordinator : RaptDataUpdateCoordinator) (sensor : RaptSensor)
    : result bool :=
  if last_update_success coordinator then
    match native_value coordinator sensor with
    | Ok (Some _) => Ok true
    | Ok None => Ok false
    | Raise e => Raise e
    end
  else Ok false.

End WithBuiltins.

End Sensor.

(* ===================================================================== *)
(** ** api.py: concurrent callers of [_rate_limited_request] *)
(* ===================================================================== *)

(** Several coroutines call [_rate_limited_request] on one client, in one
    event loop.  Each is at one of the places below; the loop runs one of
    them to its next [await] at a time, in any order, and the clock moves
    forward in between by any amount.  What happens after the stamp (lines
    113-161: authentication, the request, the retry) touches neither the
    lock nor [_last_request_time] and is one place, [InFlight]. *)

Module Gate.

Inductive pc : Type :=
| Idle                   (* not in a call *)
| AwaitLock              (* line 103: waiting for [self._rate_limit_lock] *)
| Entered                (* lock held, line 104 next *)
| Sleeping (until : Z)   (* line 109: in [asyncio.sleep], due at [until] *)
| Woken                  (* line 111 next *)
| InFlight.              (* lines 113-161, lock still held *)

Definition in_gate (p : pc) : bool :=
  match p with
  | Idle | AwaitLock => false
  | Entered | Sleeping _ | Woken | InFlight => true
  end.

Record gate := {
  now : Z;                          (* datetime.now() *)
  locked : bool;                    (* self._rate_limit_lock.locked() *)
  _last_request_time : option Z;
  tasks : list pc;
  starts : list Z                   (* every stamp made, latest first *)
}.

Definition init (callers : nat) (t0 : Z) : gate :=
  {| now := t0; locked := false; _last_request_time := None;
     tasks := replicate callers Idle; starts := [] |}.

Inductive action : Type :=
| Tick (d : N)        (* time passes *)
| Call (i : nat)      (* caller [i] calls [_rate_limited_request] *)
| Acquire (i : nat)   (* [async with self._rate_limit_lock] is entered *)
| Check (i : nat)     (* lines 104-109, up to the sleep if there is one *)
| Wake (i : nat)      (* the sleep returns *)
| Stamp (i : nat)     (* line 111 *)
| Finish (i : nat)    (* the call returns or raises; the lock is released *)
| Cancel (i : nat).   (* the caller is cancelled at its await *)

Definition move (i : nat) (p : pc) (g : gate) : gate :=
  {| now := now g; locked := locked g;
     _last_request_time := _last_request_time g;
     tasks := <[ i := p ]> (tasks g); starts := starts g |}.

Definition set_locked (b : bool) (g : gate) : gate :=
  {| now := now g; locked := b;
     _last_request_time := _last_request_time g;
     tasks := tasks g; starts := starts g |}.

Definition stamp (g : gate) : gate :=
  {| now := now g; locked := locked g;
     _last_request_time := Some (now g);
     tasks := tasks g; starts := now g :: starts g |}.

Definition step (a : action) (g : gate) : option gate :=
  match a with
  | Tick d =>
      Some {| now := now g + Z.of_N d; locked := locked g;
              _last_request_time := _last_request_time g;
              tasks := tasks g; starts := starts g |}
  | Call i =>
      match tasks g !! i with
      | Some Idle => Some (move i AwaitLock g)
      | _ => None
      end
  | Acquire i =>
      match tasks g !! i with
      | Some AwaitLock =>
          if locked g then None else Some (move i Entered (set_locked true g))
      | _ => None
      end
  | Check i =>
      match tasks g !! i with
      | Some Entered =>
          match Api.required_sleep (now g) (_last_request_time g) with
          | Some sleep_time => Some (move i (Sleeping (now g + sleep_time)) g)
          | None => Some (move i Woken g)
          end
      | _ => None
      end
  | Wake i =>
      match tasks g !! i with
      | Some (Sleeping until) =>
          if until <=? now g then Some (move i Woken g) else None
      | _ => None
      end
  | Stamp i =>
      match tasks g !! i with
      | Some Woken => Some (move i InFlight (stamp g))
      | _ => None
      end
  | Finish i =>
      match tasks g !! i with
      | Some InFlight => Some (move i Idle (set_locked false g))
      | _ => None
      end
  | Cancel i =>
      match tasks g !! i with
      | Some AwaitLock => Some (move i Idle g)
      | Some (Entered | Sleeping _ | Woken | InFlight) =>
          Some (move i Idle (set_locked false g))
      | _ => None
      end
  end.

Fixpoint run (schedule : list action) (g : gate) : option gate :=
  match schedule with
  | [] => Some g
  | a :: rest =>
      match step a g with
      | Some g' => run rest g'
      | None => None
      end
  end.

(** Successive stamps, latest first, are at least 15 seconds apart. *)
Fixpoint spaced (stamps : list Z) : Prop :=
  match stamps with
  | later :: (earlier :: _) as rest => earlier + seconds 15 <= later /\ spaced rest
  | _ => True
  end.

End Gate.

(* ===================================================================== *)
(** ** sensor.py: setting up the platform *)
(* ===================================================================== *)

Module Platform.

Import Coordinator.

(** Code that only computes: a value or a raised exception. *)
#[global] Instance result_ret : MRet result := fun A a => Ok a.

#[global] Instance result_bind : MBind result := fun A B f r =>
  match r with
  | Ok a => f a
  | Raise e => Raise e
  end.

(** Of a [SensorEntityDescription], the key the value is looked up under
    and the name; units, classes and icons play no part below. *)
Record SensorEntityDescription := { key : string; name : string }.

(** Lines 30-97. *)
Definition CONTROLLER_SENSOR_DESCRIPTIONS : list SensorEntityDescription :=
  [{| key := "temperature"; name := "Temperature" |};
   {| key := "targetTemperature"; name := "Target Temperature" |};
   {| key := "heatingUtilisation"; name := "Heating Utilization" |};
   {| key := "connectionState"; name := "Connection Status" |};
   {| key := "rssi"; name := "Signal Strength" |};
   {| key := "totalRunTime"; name := "Total Runtime" |};
   {| key := "coolingRunTime"; name := "Cooling Runtime" |};
   {| key := "heatingRunTime"; name := "Heating Runtime" |};
   {| key := "firmwareVersion"; name := "Firmware Version" |}].

(** Lines 99-151. *)
Definition HYDROMETER_SENSOR_DESCRIPTIONS : list SensorEntityDescription :=
  [{| key := "temperature"; name := "Temperature" |};
   {| key := "gravity"; name := "Specific Gravity" |};
   {| key := "gravityVelocity"; name := "Gravity Velocity" |};
   {| key := "battery"; name := "Battery Level" |};
   {| key := "rssi"; name := "Signal Strength" |};
   {| key := "firmwareVersion"; name := "Firmware Version" |};
   {| key := "pairedDeviceType"; name := "Paired Device Type" |};
   {| key := "active"; name := "Active Status" |}].

(** Lines 153-354. *)
Definition FERMENTATION_CHAMBER_SENSOR_DESCRIPTIONS : list SensorEntityDescription :=
  [{| key := "temperature"; name := "Temperature" |};
   {| key := "targetTemperature"; name := "Target Temperature" |};
   {| key := "minTargetTemperature"; name := "Min Target Temperature" |};
   {| key := "maxTargetTemperature"; name := "Max Target Temperature" |};
   {| key := "heatingUtilisation"; name := "Heating Utilization" |};
   {| key := "totalRunTime"; name := "Total Runtime" |};
   {| key := "coolingRunTime"; name := "Cooling Runtime" |};
   {| key := "heatingRunTime"; name := "Heating Runtime" |};
   {| key := "compressorRunTime"; name := "Compressor Runtime" |};
   {| key := "auxillaryRunTime"; name := "Auxiliary Runtime" |};
   {| key := "coolingStarts"; name := "Cooling Starts" |};
   {| key := "heatingStarts"; name := "Heating Starts" |};
   {| key := "compressorStarts"; name := "Compressor Starts" |};
   {| key := "auxillaryStarts"; name := "Auxiliary Starts" |};
   {| key := "highTempAlarm"; name := "High Temperature Alarm" |};
   {| key := "lowTempAlarm"; name := "Low Temperature Alarm" |};
   {| key := "connectionState"; name := "Connection Status" |};
   {| key := "status"; name := "Status" |};
   {| key := "rssi"; name := "Signal Strength" |};
   {| key := "firmwareVersion"; name := "Firmware Version" |};
   {| key := "pidEnabled"; name := "PID Enabled" |};
   {| key := "pidProportional"; name := "PID Proportional" |};
   {| key := "pidIntegral"; name := "PID Integral" |};
   {| key := "pidDerivative"; name := "PID Derivative" |};
   {| key := "coolingEnabled"; name := "Cooling Enabled" |};
   {| key := "heatingEnabled"; name := "Heating Enabled" |};
   {| key := "fanEnabled"; name := "Fan Enabled" |};
   {| key := "lightEnabled"; name := "Light Setting" |};
   {| key := "controlDeviceType"; name := "Control Device Type" |};
   {| key := "controlDeviceTemperature"; name := "Control Device Temperature" |}].

(** Lines 356-648. *)
Definition BREWZILLA_SENSOR_DESCRIPTIONS : list SensorEntityDescription :=
  [{| key := "temperature"; name := "Temperature" |};
   {| key := "targetTemperature"; name := "Target Temperature" |};
   {| key := "minTargetTemperature"; name := "Min Target Temperature" |};
   {| key := "maxTargetTemperature"; name := "Max Target Temperature" |};
   {| key := "heatingUtilisation"; name := "Heating Utilization" |};
   {| key := "pumpUtilisation"; name := "Pump Utilization" |};
   {| key := "totalRunTime"; name := "Total Runtime" |};
   {| key := "coolingRunTime"; name := "Cooling Runtime" |};
   {| key := "heatingRunTime"; name := "Heating Runtime" |};
   {| key := "auxillaryRunTime"; name := "Auxiliary Runtime" |};
   {| key := "coolingStarts"; name := "Cooling Starts" |};
   {| key := "heatingStarts"; name := "Heating Starts" |};
   {| key := "auxillaryStarts"; name := "Auxiliary Starts" |};
   {| key := "highTempAlarm"; name := "High Temperature Alarm" |};
   {| key := "lowTempAlarm"; name := "Low Temperature Alarm" |};
   {| key := "connectionState"; name := "Connection Status" |};
   {| key := "status"; name := "Status" |};
   {| key := "rssi"; name := "Signal Strength" |};
   {| key := "firmwareVersion"; name := "Firmware Version" |};
   {| key := "pidEnabled"; name := "PID Enabled" |};
   {| key := "pidProportional"; name := "PID Proportional" |};
   {| key := "pidIntegral"; name := "PID Integral" |};
   {| key := "pidDerivative"; name := "PID Derivative" |};
   {| key := "pidCycleTime"; name := "PID Cycle Time" |};
   {| key := "coolingEnabled"; name := "Cooling Enabled" |};
   {| key := "heatingEnabled"; name := "Heating Enabled" |};
   {| key := "pumpEnabled"; name := "Pump Enabled" |};
   {| key := "distillationMode"; name := "Distillation Mode" |};
   {| key := "bluetoothEnabled"; name := "Bluetooth Enabled" |};
   {| key := "betaUpdates"; name := "Beta Updates Enabled" |};
   {| key := "soundsEnabled"; name := "Sounds Enabled" |};
   {| key := "controlDeviceType"; name := "Control Device Type" |};
   {| key := "controlDeviceTemperature"; name := "Control Device Temperature" |};
   {| key := "tempUnit"; name := "Temperature Unit" |};
   {| key := "useInternalSensor"; name := "Use Internal Sensor" |};
   {| key := "sensorDifferential"; name := "Sensor Differential" |};
   {| key := "sensorTimeout"; name := "Sensor Timeout" |};
   {| key := "compressorDelay"; name := "Compressor Delay" |};
   {| key := "modeSwitchDelay"; name := "Mode Switch Delay" |};
   {| key := "coolingHysteresis"; name := "Cooling Hysteresis" |};
   {| key := "heatingHysteresis"; name := "Heating Hysteresis" |};
   {| key := "telemetryFrequency"; name := "Telemetry Frequency" |};
   {| key := "ntcBeta"; name := "NTC Beta" |};
   {| key := "ntcRefResistance"; name := "NTC Reference Resistance" |};
   {| key := "ntcRefTemperature"; name := "NTC Reference Temperature" |}].

(** [_sensor_data_available], lines 785-796. *)
Definition _sensor_data_available (controller : json) (sensor_key : string) : result bool :=
  match controller with
  | JObj _ =>
      present ← py_contains sensor_key controller;
      if present : bool then Ok true
      else
        has_telemetry ← py_contains "telemetry" controller;
        if has_telemetry : bool then
          telemetry ← py_getitem controller "telemetry";
          match telemetry with
          | JList (latest_telemetry :: _) => py_contains sensor_key latest_telemetry
          | _ => Ok false
          end
        else Ok false
  | _ => Ok false
  end.

(** [device_id[:8]]: a string and a list can be sliced, [None], a number
    and a [bool] cannot; neither can a dict, which raises [KeyError] (from
    Python 3.12 on, where a slice can be hashed). *)
Definition slice_8 (device_id : json) : result json :=
  match device_id with
  | JStr s => Ok (JStr (String.substring 0 8 s))
  | JList l => Ok (JList (take 8 l))
  | JObj _ => Raise KeyError
  | JNull | JBool _ | JNum _ => Raise TypeError
  end.

(** A [RaptSensor] as [__init__] leaves it, lines 802-825: the id and the
    name are whatever the set-up took from the record. *)
Record entity := {
  entity_description : SensorEntityDescription;
  _device_id : json;
  _device_name : json;
  _device_type : string
}.

(** [RaptSensor(coordinator, description, device_id, device_name,
    device_type)]; the set [{(DOMAIN, device_id)}] of the device info wants
    an id that can be hashed. *)
Definition new_sensor (description : SensorEntityDescription)
    (device_id device_name : json) (device_type : string) : result entity :=
  hashable device_id;;
  Ok {| entity_description := description; _device_id := device_id;
        _device_name := device_name; _device_type := device_type |}.

(** [for description in ...: if _sensor_data_available(device,
    description.key): entities.append(RaptSensor(...))] *)
Fixpoint append_sensors (descriptions : list SensorEntityDescription)
    (device device_id device_name : json) (device_type : string)
    (entities : list entity) : result (list entity) :=
  match descriptions with
  | [] => Ok entities
  | description :: rest =>
      found ← _sensor_data_available device (key description);
      if found : bool then
        sensor ← new_sensor description device_id device_name device_type;
        append_sensors rest device device_id device_name device_type
                       (entities ++ [sensor])
      else
        append_sensors rest device device_id device_name device_type entities
  end.

Section WithBuiltins.

(** [str(v)] of a list, as an f-string writes it. *)
Variable str_of : json -> string.

(** [f"{label}{device_id[:8]}"], the default of the name. *)
Definition default_name (label : string) (device_id : json) : result json :=
  sliced ← slice_8 device_id;
  Ok (JStr (label +:+ match sliced with
                      | JStr s => s
                      | _ => str_of sliced
                      end)).

(** One of the four loops of [async_setup_entry], lines 669-735; they
    differ in the label of the default name, the descriptions and the
    device type. *)
Fixpoint category_sensors (label : string) (descriptions : list SensorEntityDescription)
    (device_type : string) (devices : list json) (entities : list entity)
    : result (list entity) :=
  match devices with
  | [] => Ok entities
  | device :: rest =>
      device_id ← Api.py_get_default device "id" (JStr "unknown");
      default ← default_name label device_id;
      device_name ← Api.py_get_default device "name" default;
      entities ← append_sensors descriptions device device_id device_name
                                device_type entities;
      category_sensors label descriptions device_type rest entities
  end.

(** [async_setup_entry] from line 662 on, given [coordinator.data] as the
    refresh of lines 659-660 left it: the entities handed to
    [async_add_entities], which is not called when there are none. *)
Definition async_setup_entry (data : option snapshot) : result (list entity) :=
  let controllers := match data with Some d => snap_controllers d | None => [] end in
  let hydrometers := match data with Some d => snap_hydrometers d | None => [] end in
  let fermentation_chambers :=
    match data with Some d => snap_fermentation_chambers d | None => [] end in
  let brewzillas := match data with Some d => snap_brewzillas d | None => [] end in
  entities ← category_sensors "RAPT Controller " CONTROLLER_SENSOR_DESCRIPTIONS
                              "TemperatureController" controllers [];
  entities ← category_sensors "RAPT Hydrometer " HYDROMETER_SENSOR_DESCRIPTIONS
                              "Hydrometer" hydrometers entities;
  entities ← category_sensors "RAPT Chamber " FERMENTATION_CHAMBER_SENSOR_DESCRIPTIONS
                              "FermentationChamber" fermentation_chambers entities;
  category_sensors "RAPT BrewZilla " BREWZILLA_SENSOR_DESCRIPTIONS
                   "BrewZilla" brewzillas entities.

(** The loop of [async_discovery_callback], lines 747-776, with
    [new_entities] as built so far. *)
Fixpoint discovered_sensors (new_devices : list json) (new_entities : list entity)
    : result (list entity) :=
  match new_devices with
  | [] => Ok new_entities
  | device :: rest =>
      device_id ← Api.py_get_default device "id" (JStr "unknown");
      device_type ← Api.py_get_default device "deviceType" (JStr "unknown");
      let go (label : string) (sensor_descriptions : list SensorEntityDescription)
             (type : string) :=
        default ← default_name label device_id;
        device_name ← Api.py_get_default device "name" default;
        new_entities ← append_sensors sensor_descriptions device device_id
                                      device_name type new_entities;
        discovered_sensors rest new_entities in
      if is_str "TemperatureController" device_type then
        go "RAPT Controller " CONTROLLER_SENSOR_DESCRIPTIONS "TemperatureController"
      else if is_str "Hydrometer" device_type then
        go "RAPT Hydrometer " HYDROMETER_SENSOR_DESCRIPTIONS "Hydrometer"
      else if is_str "FermentationChamber" device_type then
        go "RAPT Chamber " FERMENTATION_CHAMBER_SENSOR_DESCRIPTIONS "FermentationChamber"
      else if is_str "BrewZilla" device_type then
        go "RAPT BrewZilla " BREWZILLA_SENSOR_DESCRIPTIONS "BrewZilla"
      else discovered_sensors rest new_entities
  end.

(** [async_discovery_callback(new_devices)]: the entities handed to
    [async_add_entities], which is not called when there are none. *)
Definition async_discovery_callback (new_devices : list json) : result (list entity) :=
  discovered_sensors new_devices [].

End WithBuiltins.

End Platform.

(* ===================================================================== *)
(** ** config_flow.py *)
(* ===================================================================== *)

Module ConfigFlow.

(** const.py, lines 17-18. *)
Definition CONF_USERNAME := "username".
Definition CONF_API_SECRET := "api_secret".

(** What [STEP_USER_DATA_SCHEMA] lets through: two strings. *)
Record user_input := { username : string; api_secret : string }.

(** The two exceptions of the module, lines 96-101. *)
Inductive flow_error : Type :=
| CannotConnect
| InvalidAuth.

(** The data of an existing config entry, a dict. *)
Definition entry_data : Type := list (string * json).

Inductive FlowResult : Type :=
| Abort (reason : string)                         (* self.async_abort *)
| CreateEntry (title : string) (data : user_input) (* self.async_create_entry *)
| ShowForm (step_id : string) (errors : list (string * string)).
                                                  (* self.async_show_form *)

Section WithSession.

Variable E : env.

(** [validate_input], on a client of its own; what it returns is the title.
    An [aiohttp.ClientError] never gets to line 42: [authenticate] and
    [_rate_limited_request] turn each one into a [RaptApiError]. *)
Definition validate_input (data : user_input) (w : world)
    : (flow_error + string) * world :=
  let api_client := {| Api.client := Api.init (username data) (api_secret data);
                       Api.outside := w |} in
  match (Api.authenticate E;; Api.get_temperature_controllers E) api_client with
  | (Ok _, s) => (inr "RAPT Devices", Api.outside s)
  | (Raise (RaptApiError msg), s) =>
      if is_substring "Authentication failed" msg
      then (inl InvalidAuth, Api.outside s)
      else (inl CannotConnect, Api.outside s)
  | (Raise _, s) => (inl CannotConnect, Api.outside s)
  end.

(** [entry.data.get(CONF_USERNAME) == user_input[CONF_USERNAME]] *)
Definition same_username (data : user_input) (entry : entry_data) : bool :=
  match assoc CONF_USERNAME entry with
  | Some v => is_str (username data) v
  | None => false
  end.

(** [ConfigFlow.async_step_user], with the entries
    [self._async_current_entries()] returns.  [validate_input] raises
    nothing but the two exceptions above, so the third handler, which
    answers "unknown", has nothing to catch. *)
Definition async_step_user (current_entries : list entry_data)
    (input : option user_input) (w : world) : FlowResult * world :=
  match input with
  | Some data =>
      match validate_input data w with
      | (inl CannotConnect, w') => (ShowForm "user" [("base", "cannot_connect")], w')
      | (inl InvalidAuth, w') => (ShowForm "user" [("base", "invalid_auth")], w')
      | (inr title, w') =>
          if existsb (same_username data) current_entries
          then (Abort "already_configured", w')
          else (CreateEntry title data, w')
      end
  | None => (ShowForm "user" [], w)
  end.

End WithSession.

End ConfigFlow.


(* ===================================================================== *)
(** * Notions the properties are stated with *)
(* ===================================================================== *)

Module ApiNotions.

Import Api.

(** The POST [authenticate] makes. *)
Definition auth_post (c : RaptApiClient) : event :=
  EvPost API_AUTH_URL (_username c) (_api_secret c).

(** A bearer token exists and the clock is strictly before its expiry. *)
Definition token_valid (c : RaptApiClient) (now : Z) : Prop :=
  exists token expires_at,
    _bearer_token c = Some token /\ _token_expires_at c = Some expires_at
    /\ now < expires_at.

(** The state right after [send] has made its first request. *)
Definition after_first_request (E : env) (method url : string) (s : state) : state :=
  {| client := client s;
     outside := snd (exchange_with E (EvRequest method url (_bearer_token (client s)))
                                   (outside s)) |}.

(** What a fetch makes of the decoded body: the list itself, or [[]]. *)
Definition list_or_empty (data : json) : list json :=
  match as_list data with
  | Some l => l
  | None => []
  end.

End ApiNotions.

Module GateNotions.

Import Gate.

(** What holds of every state the callers can bring the gate to. *)
Record inv (g : gate) : Prop := {
  inv_last : _last_request_time g = head (starts g);
  inv_spaced : spaced (starts g);
  inv_past : forall t, _last_request_time g = Some t -> t <= now g;
  inv_unlocked : locked g = false ->
                 forall i p, tasks g !! i = Some p -> in_gate p = false;
  inv_alone : forall i j p q,
      tasks g !! i = Some p -> tasks g !! j = Some q ->
      in_gate p = true -> in_gate q = true -> i = j;
  inv_sleeping : forall i until t,
      tasks g !! i = Some (Sleeping until) ->
      _last_request_time g = Some t -> t + seconds 15 <= until;
  inv_woken : forall i t,
      tasks g !! i = Some Woken ->
      _last_request_time g = Some t -> t + seconds 15 <= now g
}.

(** The instant [enter_gate] stamps the request with. *)
Definition stamp_of (E : env) (s : Api.state) : Z :=
  let t := clock (Api.outside s) in
  match Api.required_sleep t (Api._last_request_time (Api.client s)) with
  | Some sleep_time => t + sleep_time + Z.of_N (oversleep E (sleeps (Api.outside s)))
  | None => t
  end.

(** The gate as a lone caller finds it, given the stamps made so far. *)
Definition gate_view (s : Api.state) (stamps : list Z) : gate :=
  {| now := clock (Api.outside s); locked := false;
     _last_request_time := Api._last_request_time (Api.client s);
     tasks := [Idle]; starts := stamps |}.

(** The steps of the lone caller up to its stamp, the clock moving only
    while it sleeps. *)
Definition lone_pass (E : env) (s : Api.state) : list action :=
  [Call 0; Acquire 0; Check 0]
  ++ match Api.required_sleep (clock (Api.outside s))
                              (Api._last_request_time (Api.client s)) with
     | Some sleep_time =>
         [Tick (Z.to_N sleep_time + oversleep E (sleeps (Api.outside s))); Wake 0]
     | None => []
     end
  ++ [Stamp 0].

End GateNotions.

Module CoordinatorNotions.

Import Coordinator.

(** The state with another set of known ids. *)
Definition with_known (k : gset id_key) (s : state) : state :=
  {| self := {| data := data (self s);
                last_update_success := last_update_success (self s);
                _devices := _devices (self s);
                _known_device_ids := k;
                _discovery_callbacks := _discovery_callbacks (self s) |};
     api_client := api_client s |}.

(** Two states that differ at most in the set of known ids. *)
Definition same_but_known (s s' : state) : Prop :=
  s' = with_known (_known_device_ids (self s')) s.

(** The flat list a poll merges the four categories into. *)
Definition merged (all : Api.all_devices) : list json :=
  Api.controllers all ++ Api.hydrometers all
  ++ Api.fermentation_chambers all ++ Api.brewzillas all.

(** The message [_async_update_data] puts before the error it wraps. *)
Definition update_failed_prefix (e : exn) : string :=
  match e with
  | RaptApiError _ => "Error communicating with RAPT API: "
  | _ => "Unexpected error: "
  end.

(** The snapshot a poll builds from what it fetched. *)
Definition snapshot_of (all : Api.all_devices) (flag : bool) : snapshot :=
  {| snap_controllers := Api.controllers all;
     snap_hydrometers := Api.hydrometers all;
     snap_fermentation_chambers := Api.fermentation_chambers all;
     snap_brewzillas := Api.brewzillas all;
     snap_devices := merged all;
     last_updated := flag |}.

(** The id a device record is tracked under: its [id] when that is truthy
    (and can be put in a set), nothing otherwise. *)
Definition device_key (device : json) : option id_key :=
  match py_get device "id" with
  | Ok (Some v) =>
      if truthy v then
        match hashable v with
        | Ok k => Some k
        | Raise _ => None
        end
      else None
  | _ => None
  end.

(** The records the loops go through without raising: JSON objects whose
    [id], when truthy, is not itself a list or an object. *)
Definition trackable (device : json) : bool :=
  match py_get device "id" with
  | Ok (Some v) =>
      if truthy v then
        match hashable v with
        | Ok _ => true
        | Raise _ => false
        end
      else true
  | Ok None => true
  | Raise _ => false
  end.

Definition keys_of (devices : list json) : gset id_key :=
  list_to_set (omap device_key devices).

(** The records that bring an id not seen before: not in [known], and not
    on an earlier record of the list either. *)
Fixpoint first_seen (devices : list json) (known : gset id_key) : list json :=
  match devices with
  | [] => []
  | device :: rest =>
      match device_key device with
      | Some k =>
          if decide (k ∈ known) then first_seen rest known
          else device :: first_seen rest ({[ k ]} ∪ known)
      | None => first_seen rest known
      end
  end.

(** The state with more events in its trace. *)
Definition emitted (evs : list event) (s : state) : state :=
  {| self := self s;
     api_client :=
       {| Api.client := Api.client (api_client s);
          Api.outside :=
            {| clock := clock (Api.outside (api_client s));
               calls := calls (Api.outside (api_client s));
               sleeps := sleeps (Api.outside (api_client s));
               trace := trace (Api.outside (api_client s)) ++ evs |} |} |}.

(** One call of each of [n] callbacks, numbered from [first], in order. *)
Definition callback_events (first n : nat) (new_devices : list json) : list event :=
  map (fun i => EvCallback i new_devices) (seq first n).

End CoordinatorNotions.

Module SensorNotions.

Import Coordinator Sensor.

(** The list [native_value] searches: by device type, never by the category
    the record was fetched in. *)
Definition searched (sensor : RaptSensor) (d : snapshot) : list json :=
  if String.eqb (_device_type sensor) "TemperatureController"
  then snap_controllers d
  else snap_hydrometers d.

End SensorNotions.

Module Scenarios.

Import Api Coordinator Sensor.
Import ApiNotions CoordinatorNotions.

(** A response with the given status and text, not JSON. *)
Definition plain (status : Z) (text : string) : exchange :=
  {| took := 200000%N;
     outcome := Response status {| body_text := text; body_json := None |} |}.

(** A 200 response whose body decodes to [v]. *)
Definition ok_json (v : json) : exchange :=
  {| took := 200000%N;
     outcome := Response 200 {| body_text := ""; body_json := Some v |} |}.

(** The environment that answers the calls with [answers] in turn, then
    refuses the connection; sleeps return exactly on time. *)
Definition script (answers : list exchange) : env :=
  {| respond := fun n =>
       nth n answers {| took := 0%N; outcome := ClientError "Connection refused" |};
     oversleep := fun _ => 0%N |}.

Definition token_response (access_token : string) : exchange :=
  ok_json (JObj [("access_token", JStr access_token)]).

(** Noon, some 738000 days after [datetime.min]. *)
Definition t0 : Z := seconds (738000 * 86400 + 12 * 3600).

(** A client just created. *)
Definition fresh : Api.state :=
  {| client := Api.init "brewer@example.org" "secret";
     outside := {| clock := t0; calls := 0; sleeps := 0; trace := [] |} |}.

(** A client holding a token that is good for another half hour. *)
Definition signed_in : Api.state :=
  {| client := {| _username := "brewer@example.org"; _api_secret := "secret";
                  _bearer_token := Some (JStr "T0");
                  _token_expires_at := Some (t0 + seconds 1800);
                  _last_request_time := None |};
     outside := {| clock := t0; calls := 0; sleeps := 0; trace := [] |} |}.

Definition controllers_url : string := API_BASE_URL +:+ API_CONTROLLERS_ENDPOINT.

(** The first request gets a 401, the re-authentication a new token, and
    the retry a 401 again. *)
Definition twice_401 : env :=
  script [plain 401 "expired"; token_response "T1"; plain 401 "expired again"].

(** The first request gets a 401 and the re-authentication is refused. *)
Definition reauth_refused : env :=
  script [plain 401 "expired"; plain 400 "invalid_grant"].

(** What a call adds to the trace. *)
Definition events_of (E : env) (method url : string) (s : Api.state) : list event :=
  drop (length (trace (outside s)))
       (trace (outside (snd (_rate_limited_request E method url s)))).

(** C2 as it is stated: whenever the request gets a 401, the call makes
    exactly one re-authentication and exactly one retry after it. *)
Definition retries_once_after_401 (E : env) (method url : string) (s : Api.state) : Prop :=
  forall s1 b,
    enter_gate E s = (Ok tt, s1) ->
    outcome (respond E (calls (outside s1))) = Response 401 b ->
    exists token,
      events_of E method url s
      = [EvRequest method url (_bearer_token (client s1));
         ApiNotions.auth_post (client s1);
         EvRequest method url token].

Definition device (id name : string) : json :=
  JObj [("id", JStr id); ("name", JStr name)].

Definition hydrometers_url : string := API_BASE_URL +:+ API_HYDROMETERS_ENDPOINT.
Definition chambers_url : string := API_BASE_URL +:+ API_FERMENTATION_CHAMBERS_ENDPOINT.
Definition brewzillas_url : string := API_BASE_URL +:+ API_BREWZILLAS_ENDPOINT.

(** The controllers endpoint answers with an object, not a list; the three
    others with one device each. *)
Definition odd_controllers : env :=
  script [ok_json (JObj [("message", JStr "maintenance")]);
          ok_json (JList [device "H1" "Pill"]);
          ok_json (JList [device "F1" "Chamber"]);
          ok_json (JList [device "B1" "BrewZilla"])].

Definition after (E : env) (url : string) (s : Api.state) : Api.state :=
  snd (_rate_limited_request E "GET" url s).

(** Caller 0 goes first; caller 1 calls right away, waits for the lock,
    finds the last request two seconds old, sleeps the thirteen seconds
    left, and stamps its own request. *)
Definition two_callers : list Gate.action :=
  [Gate.Call 0; Gate.Call 1;
   Gate.Acquire 0; Gate.Check 0; Gate.Stamp 0;
   Gate.Tick 2000000; Gate.Finish 0;
   Gate.Acquire 1; Gate.Check 1;
   Gate.Tick 13000000; Gate.Wake 1; Gate.Stamp 1].

(** A callback that returns, and one that raises. *)
Definition quiet : callback := fun _ => Ok tt.
Definition failing : callback := fun _ => Raise TypeError.

(** A coordinator that has polled once and knows devices A and B. *)
Definition polled (callbacks : list callback) (a : Api.state) : Coordinator.state :=
  let both := [device "A" "Controller"; device "B" "Pill"] in
  {| self := {| data := Some {| snap_controllers := [device "A" "Controller"];
                                snap_hydrometers := [device "B" "Pill"];
                                snap_fermentation_chambers := [];
                                snap_brewzillas := [];
                                snap_devices := both;
                                last_updated := true |};
                last_update_success := true;
                _devices := both;
                _known_device_ids := {[ Some (inr "A"); Some (inr "B") ]};
                _discovery_callbacks := callbacks |};
     api_client := a |}.

(** The network is down. *)
Definition offline : env := script [].

(** The API returns A, B and a new device C. *)
Definition one_more : env :=
  script [ok_json (JList [device "A" "Controller"]);
          ok_json (JList [device "B" "Pill"; device "C" "Pill 2"]);
          ok_json (JList []);
          ok_json (JList [])].

(** The records of [fetched] that carry an id which is not in [known]:
    the new devices as C5 states them. *)
Definition unknown_records (fetched : list json) (known : gset id_key) : list json :=
  List.filter
    (fun d => match CoordinatorNotions.device_key d with
              | Some k => bool_decide (k ∉ known)
              | None => false
              end)
    fetched.

(** C5 as it is stated: when some fetched records carry an unknown id,
    every callback is called exactly once with exactly those records, and a
    refresh is then requested. *)
Definition notifies_of_unknown_records (E : env) (s : Coordinator.state) : Prop :=
  forall all a',
    get_all_devices E (api_client s) = (Ok all, a') ->
    let new_devices :=
      unknown_records (CoordinatorNotions.merged all) (_known_device_ids (self s)) in
    new_devices <> [] ->
    drop (length (trace (outside a')))
         (trace (outside (api_client (snd (async_discover_devices E s)))))
    = CoordinatorNotions.callback_events 0 (length (_discovery_callbacks (self s)))
                                       new_devices
      ++ [EvRequestRefresh].

(** The new device C is both a hydrometer and, under another name, a
    fermentation chamber. *)
Definition listed_twice : env :=
  script [ok_json (JList [device "A" "Controller"]);
          ok_json (JList [device "B" "Pill"; device "C" "Pill 2"]);
          ok_json (JList [device "C" "Chamber of Pill 2"]);
          ok_json (JList [])].

(** The snapshot holds the chamber F1, with a temperature, under
    fermentation_chambers, and one hydrometer. *)
Definition with_chamber : RaptDataUpdateCoordinator :=
  {| data := Some {| snap_controllers := [];
                     snap_hydrometers := [device "H1" "Pill"];
                     snap_fermentation_chambers :=
                       [JObj [("id", JStr "F1"); ("name", JStr "Chamber");
                              ("temperature", JNum 18)]];
                     snap_brewzillas := [];
                     snap_devices :=
                       [device "H1" "Pill";
                        JObj [("id", JStr "F1"); ("name", JStr "Chamber");
                              ("temperature", JNum 18)]];
                     last_updated := true |};
     last_update_success := true;
     _devices := [device "H1" "Pill";
                  JObj [("id", JStr "F1"); ("name", JStr "Chamber");
                        ("temperature", JNum 18)]];
     _known_device_ids := {[ Some (inr "H1"); Some (inr "F1") ]};
     _discovery_callbacks := [] |}.

Definition chamber_temperature : RaptSensor :=
  {| key := "temperature"; _device_id := "F1"; _device_name := "Chamber";
     _device_type := "FermentationChamber" |}.

End Scenarios.

Module RequestNotions.

Import Api.

(** The state [enter_gate] is in when it turns to the token: the sleep
    taken, if one was due, and the request stamped. *)
Definition stamped (E : env) (s : state) : state :=
  let w := match required_sleep (clock (outside s)) (_last_request_time (client s)) with
           | Some sleep_time => sleep_for E sleep_time (outside s)
           | None => outside s
           end in
  {| client := {| _username := _username (client s);
                  _api_secret := _api_secret (client s);
                  _bearer_token := _bearer_token (client s);
                  _token_expires_at := _token_expires_at (client s);
                  _last_request_time := Some (clock w) |};
     outside := w |}.

(** The same client, met again in another state of the world. *)
Definition met_at (w : world) (s : state) : state :=
  {| client := client s; outside := w |}.

(** The fetch each of the four getters makes, by URL. *)
Definition fetch (E : env) (url : string) : M (list json) :=
  data ← _rate_limited_request E "GET" url;
  match as_list data with
  | Some l => mret l
  | None => mret []
  end.

(** The sleep a call starts with, if one is due. *)
Definition waited (s : state) : list event :=
  match required_sleep (clock (outside s)) (_last_request_time (client s)) with
  | Some sleep_time => [EvSleep sleep_time]
  | None => []
  end.

(** What a coroutine adds to the trace. *)
Definition added {A : Type} (m : M A) (s : state) : list event :=
  drop (length (trace (outside s))) (trace (outside (snd (m s)))).

End RequestNotions.

Module PollNotions.

Import Coordinator.

(** The exception the loops over the fetched records raise at a record, if
    they do: the one [device.get] raises on a record that is not an object,
    or the one the set raises on an id it cannot hold. *)
Definition loop_error (device : json) : option exn :=
  match py_get device "id" with
  | Raise e => Some e
  | Ok (Some v) =>
      if truthy v then
        match hashable v with
        | Raise e => Some e
        | Ok _ => None
        end
      else None
  | Ok None => None
  end.

(** The endpoints [get_all_devices] goes through, in its order. *)
Definition endpoints : list string :=
  [API_BASE_URL +:+ API_CONTROLLERS_ENDPOINT;
   API_BASE_URL +:+ API_HYDROMETERS_ENDPOINT;
   API_BASE_URL +:+ API_FERMENTATION_CHAMBERS_ENDPOINT;
   API_BASE_URL +:+ API_BREWZILLAS_ENDPOINT].

(** The first fetch to raise when the endpoints are fetched one after the
    other, with its error and the state it leaves. *)
Fixpoint first_failure (E : env) (urls : list string) (s : Api.state)
    : option (exn * Api.state) :=
  match urls with
  | [] => None
  | url :: rest =>
      match RequestNotions.fetch E url s with
      | (Raise e, s') => Some (e, s')
      | (Ok _, s') => first_failure E rest s'
      end
  end.

End PollNotions.

Module PlatformNotions.

Import Coordinator Platform.

(** A record the set-up cannot take an id from: it is not an object, or
    its id is [null], a number, a [bool] or an object. *)
Definition unusable (device : json) : bool :=
  match device with
  | JObj fields =>
      match assoc "id" fields with
      | Some (JNull | JBool _ | JNum _ | JObj _) => true
      | _ => false
      end
  | _ => true
  end.

(** A record as the API documents it: an object whose id, if it has one,
    is a string, and whose first telemetry entry, if it has one, is an
    object. *)
Definition regular (device : json) : bool :=
  match device with
  | JObj fields =>
      match assoc "id" fields with
      | Some (JStr _) | None => true
      | Some _ => false
      end
      && match assoc "telemetry" fields with
         | Some (JList (JObj _ :: _)) => true
         | Some (JList (_ :: _)) => false
         | _ => true
         end
  | _ => false
  end.

(** The id the set-up takes from a record. *)
Definition id_of (device : json) : string :=
  match device with
  | JObj fields =>
      match assoc "id" fields with
      | Some (JStr s) => s
      | _ => "unknown"
      end
  | _ => "unknown"
  end.

(** The name the set-up takes from a record. *)
Definition name_of (label : string) (device : json) : json :=
  match device with
  | JObj fields =>
      default (JStr (label +:+ String.substring 0 8 (id_of device)))
              (assoc "name" fields)
  | _ => JNull
  end.

(** The record holds something under the key of the description, on
    itself or in its first telemetry entry. *)
Definition has_data (device : json) (description : SensorEntityDescription) : bool :=
  match _sensor_data_available device (key description) with
  | Ok found => found
  | Raise _ => false
  end.

(** The sensors of one record: one for each description it has data for,
    in the order of the descriptions. *)
Definition sensors_of (label : string) (descriptions : list SensorEntityDescription)
    (device_type : string) (device : json) : list entity :=
  map (fun description =>
         {| entity_description := description; _device_id := JStr (id_of device);
            _device_name := name_of label device; _device_type := device_type |})
      (List.filter (has_data device) descriptions).

(** The entity, seen as the sensor whose value is read. *)
Definition reads_as (e : entity) (sensor : Sensor.RaptSensor) : Prop :=
  _device_id e = JStr (Sensor._device_id sensor)
  /\ key (entity_description e) = Sensor.key sensor
  /\ _device_type e = Sensor._device_type sensor.

(** The device type the discovery callback acts on. *)
Definition recognised (device : json) : bool :=
  match device with
  | JObj fields =>
      match assoc "deviceType" fields with
      | Some (JStr t) =>
          String.eqb t "TemperatureController" || String.eqb t "Hydrometer"
          || String.eqb t "FermentationChamber" || String.eqb t "BrewZilla"
      | _ => false
      end
  | _ => false
  end.

Definition is_object (device : json) : bool :=
  match device with
  | JObj _ => true
  | _ => false
  end.

End PlatformNotions.

Module FurtherScenarios.

Import Api Coordinator.
Import Scenarios.

(** The token endpoint refuses the credentials. *)
Definition refused : env := script [plain 400 "invalid_grant"].

(** The API answers every poll with controller A and hydrometer B; there
    are answers for two polls. *)
Definition steady : env :=
  script [ok_json (JList [device "A" "Controller"]);
          ok_json (JList [device "B" "Pill"]);
          ok_json (JList []); ok_json (JList []);
          ok_json (JList [device "A" "Controller"]);
          ok_json (JList [device "B" "Pill"]);
          ok_json (JList []); ok_json (JList [])].

Definition steady_devices : all_devices :=
  {| controllers := [device "A" "Controller"];
     hydrometers := [device "B" "Pill"];
     fermentation_chambers := []; brewzillas := [] |}.

(** A coordinator just created, with its callbacks registered. *)
Definition starting (callbacks : list callback) (a : Api.state) : Coordinator.state :=
  {| self := {| data := None; last_update_success := true; _devices := [];
                _known_device_ids := ∅; _discovery_callbacks := callbacks |};
     api_client := a |}.



(** The clock a minute after [t0], nothing else having happened. *)
Definition a_minute_later : world :=
  {| clock := t0 + seconds 60; calls := 1; sleeps := 0; trace := [] |}.

(** A controller that reports its temperature on the record and its signal
    strength in the telemetry. *)
Definition controller_A : json :=
  JObj [("id", JStr "A"); ("name", JStr "Controller"); ("temperature", JNum 19);
        ("telemetry", JList [JObj [("rssi", JNum (-60))]])].

Definition chamber_F1 : json :=
  JObj [("id", JStr "F1"); ("name", JStr "Chamber"); ("temperature", JNum 18)].

(** A snapshot with the controller, a hydrometer and the chamber. *)
Definition brewery : snapshot :=
  {| snap_controllers := [controller_A];
     snap_hydrometers := [device "H1" "Pill"];
     snap_fermentation_chambers := [chamber_F1];
     snap_brewzillas := [];
     snap_devices := [controller_A; device "H1" "Pill"; chamber_F1];
     last_updated := true |}.

Definition with_brewery : RaptDataUpdateCoordinator :=
  {| data := Some brewery; last_update_success := true;
     _devices := [controller_A; device "H1" "Pill"; chamber_F1];
     _known_device_ids := {[ Some (inr "A"); Some (inr "H1"); Some (inr "F1") ]};
     _discovery_callbacks := [] |}.

(** The same, but the hydrometer's id came as a number. *)
Definition numbered : snapshot :=
  {| snap_controllers := [controller_A];
     snap_hydrometers := [JObj [("id", JNum 7); ("name", JStr "Pill")]];
     snap_fermentation_chambers := [chamber_F1];
     snap_brewzillas := [];
     snap_devices := [];
     last_updated := true |}.

Definition temperature : Platform.SensorEntityDescription :=
  {| Platform.key := "temperature"; Platform.name := "Temperature" |}.

Definition signal_strength : Platform.SensorEntityDescription :=
  {| Platform.key := "rssi"; Platform.name := "Signal Strength" |}.

Definition controller_temperature : Sensor.RaptSensor :=
  {| Sensor.key := "temperature"; Sensor._device_id := "A";
     Sensor._device_name := "Controller";
     Sensor._device_type := "TemperatureController" |}.

(** The built-in [str] of the scenarios. *)
Definition no_str : json -> string := fun _ => "".

(** *** The requests a client sends, with the instants they begin *)

(** What an event does to the world. *)
Definition replay_event (E : env) (ev : event) (w : world) : world :=
  match ev with
  | EvSleep d => sleep_for E d w
  | EvPost _ _ _ | EvRequest _ _ _ => snd (exchange_with E ev w)
  | EvCallback _ _ | EvRequestRefresh => log ev w
  end.

(** The world after the events [evs], begun in [w]. *)
Definition replay (E : env) (w : world) (evs : list event) : world :=
  fold_left (fun w ev => replay_event E ev w) evs w.

(** Each event with the instant it began. *)
Fixpoint timed (E : env) (w : world) (evs : list event) : list (Z * event) :=
  match evs with
  | [] => []
  | ev :: rest => (clock w, ev) :: timed E (replay_event E ev w) rest
  end.

(** The instants at which the requests to the API were sent, in order. *)
Definition request_starts (E : env) (w : world) (evs : list event) : list Z :=
  omap (fun te : Z * event =>
          match snd te with
          | EvRequest _ _ _ => Some (fst te)
          | _ => None
          end)
       (timed E w evs).

(** C1 as it is stated: of the requests the client has sent between [s]
    and [s'], each began at least 15 seconds after the one before it. *)
Definition requests_start_spaced (E : env) (s s' : Api.state) : Prop :=
  let sent := request_starts E (outside s)
                (drop (length (trace (outside s))) (trace (outside s'))) in
  forall k earlier later,
    sent !! k = Some earlier -> sent !! S k = Some later ->
    earlier + seconds 15 <= later.

(** The token endpoint takes ten seconds to answer; the API answers at
    once. *)
Definition slow_sign_in : env :=
  script [{| took := 10000000%N; outcome := outcome (token_response "T1") |};
          ok_json (JList []); ok_json (JList [])].

(** Two calls, one after the other. *)
Definition two_calls (E : env) (s : Api.state) : Api.state :=
  snd (_rate_limited_request E "GET" controllers_url
         (snd (_rate_limited_request E "GET" controllers_url s))).

(** *** A token response that is no object *)




End FurtherScenarios.


(* ===================================================================== *)
(** * Properties *)
(* ===================================================================== *)

(** Unfolds the coroutine plumbing, leaving the case analysis of the code. *)
Ltac co_unfold :=
  unfold mbind, mret, M_bind, M_ret, Co.raise, Co.lift, Co.try_except in *.

Ltac api_unfold :=
  unfold Api.get_client, Api.datetime_now, Api.set_bearer_token,
    Api.set_token_expires_at, Api.set_last_request_time,
    Api.session_call, Api.asyncio_sleep in *; co_unfold.

(** ** The token life cycle: [authenticate], [_ensure_authenticated] *)

Module ApiFacts.

Import Api.
Import ApiNotions.

(** Whatever the outcome, [authenticate] makes exactly one network call,
    the POST to the token endpoint. *)
Lemma authenticate_outside E s :
  outside (snd (authenticate E s))
  = snd (exchange_with E (auth_post (client s)) (outside s)).
Proof.
  unfold authenticate, auth_post. api_unfold. simpl.
  destruct (outcome (respond E (calls (outside s)))) as [msg | status b]; simpl;
    [reflexivity |].
  destruct (status =? 400); [reflexivity |].
  destruct (status =? 401); [reflexivity |].
  destruct (status =? 200); simpl; [| reflexivity].
  destruct (body_json b) as [token_data |]; simpl; [| reflexivity].
  destruct (py_contains "access_token" token_data) as [[|] | e]; simpl;
    try reflexivity.
  destruct (py_getitem token_data "access_token") as [tok | e]; simpl;
    [| reflexivity].
  destruct (py_get_default token_data "expires_in" (JNum 2700)) as [x | e]; simpl;
    [| reflexivity].
  destruct (timedelta_seconds x) as [d | e]; simpl; [| reflexivity].
  destruct (datetime_add _ d); reflexivity.
Qed.

Lemma authenticate_trace E s :
  trace (outside (snd (authenticate E s)))
  = trace (outside s) ++ [auth_post (client s)].
Proof. rewrite authenticate_outside. reflexivity. Qed.

Lemma authenticate_calls E s :
  calls (outside (snd (authenticate E s))) = S (calls (outside s)).
Proof. rewrite authenticate_outside. reflexivity. Qed.

Lemma token_valid_iff c now :
  token_valid c now <-> token_missing_or_expired c now = false.
Proof.
  unfold token_valid, token_missing_or_expired. split.
  - intros (token & expires_at & -> & -> & Hlt). apply Z.leb_gt. exact Hlt.
  - destruct (_bearer_token c) as [token |]; [| discriminate].
    destruct (_token_expires_at c) as [expires_at |]; [| discriminate].
    intros Hlt%Z.leb_gt. eauto.
Qed.

(** C6.  [_ensure_authenticated] makes no network call if and only if a
    bearer token exists and the current time is strictly before its expiry
    instant; in that case it changes nothing at all.  Otherwise (token or
    expiry absent, or now >= expiry) it is one call of [authenticate], which
    makes exactly one network call, the POST to the token endpoint. *)
Theorem ensure_authenticated_calls E s :
  let s' := snd (_ensure_authenticated E s) in
  let valid := token_valid (client s) (clock (outside s)) in
  (valid <-> calls (outside s') = calls (outside s))
  /\ (valid -> _ensure_authenticated E s = (Ok tt, s))
  /\ (~ valid ->
      _ensure_authenticated E s = authenticate E s
      /\ trace (outside s') = trace (outside s) ++ [auth_post (client s)]
      /\ calls (outside s') = S (calls (outside s))).
Proof.
  cbv zeta.
  assert (Hrun : _ensure_authenticated E s
                 = if token_missing_or_expired (client s) (clock (outside s))
                   then authenticate E s else (Ok tt, s)).
  { unfold _ensure_authenticated. api_unfold. simpl.
    destruct (token_missing_or_expired _ _); reflexivity. }
  rewrite Hrun, token_valid_iff.
  destruct (token_missing_or_expired (client s) (clock (outside s))) eqn:Hm.
  - rewrite authenticate_trace, authenticate_calls.
    repeat split; try congruence; try lia.
  - simpl. repeat split; congruence.
Qed.

(** What [authenticate] leaves in the client when it returns normally. *)
Lemma authenticate_ok_inv E s s' :
  authenticate E s = (Ok tt, s') ->
  exists b fields access_token expires_in delta,
    outcome (respond E (calls (outside s))) = Response 200 b
    /\ body_json b = Some (JObj fields)
    /\ assoc "access_token" fields = Some access_token
    /\ expires_in = default (JNum 2700) (assoc "expires_in" fields)
    /\ timedelta_seconds expires_in = Ok delta
    /\ outside s' = snd (exchange_with E (auth_post (client s)) (outside s))
    /\ client s' = {| _username := _username (client s);
                      _api_secret := _api_secret (client s);
                      _bearer_token := py_optional access_token;
                      _token_expires_at := Some (clock (outside s') + delta);
                      _last_request_time := _last_request_time (client s) |}.
Proof.
  unfold authenticate, auth_post. api_unfold. simpl.
  destruct (outcome (respond E (calls (outside s)))) as [msg | status b]; simpl;
    [discriminate |].
  destruct (status =? 400) eqn:H400; [discriminate |].
  destruct (status =? 401) eqn:H401; [discriminate |].
  destruct (status =? 200) eqn:H200; simpl; [| discriminate].
  apply Z.eqb_eq in H200. subst status.
  destruct (body_json b) as [token_data |] eqn:Hjson; simpl; [| discriminate].
  destruct token_data as [| | | str | items | fields]; simpl; try discriminate.
  - destruct (is_substring _ _); discriminate.
  - destruct (existsb _ _); discriminate.
  - unfold py_get_default. simpl.
    destruct (assoc "access_token" fields) as [access_token |] eqn:Htok; simpl;
      [| discriminate].
    destruct (assoc "expires_in" fields) as [v |] eqn:Hexp; simpl.
    + destruct (timedelta_seconds v) as [delta | e] eqn:Hdelta; simpl;
        [| discriminate].
      destruct (datetime_add _ delta) as [expires_at | e] eqn:Hadd; simpl;
        [| discriminate].
      unfold datetime_add in Hadd. destruct (_ && _); inversion Hadd; subst.
      intros Hrun. inversion Hrun; subst s'; clear Hrun. simpl.
      exists b, fields, access_token, v, delta. rewrite Hexp.
      repeat split; auto.
    + destruct (datetime_add _ _) as [expires_at | e] eqn:Hadd; simpl;
        [| discriminate].
      unfold datetime_add in Hadd. destruct (_ && _); inversion Hadd; subst.
      intros Hrun. inversion Hrun; subst s'; clear Hrun. simpl.
      exists b, fields, access_token, (JNum 2700), (seconds 2700). rewrite Hexp.
      repeat split; auto.
Qed.

(** C7.  When [authenticate] returns normally, the response was a 200 whose
    JSON body is an object holding [access_token]; the client then holds
    that token and an expiry, both set by this call, the expiry being the
    instant of storing (the clock when the call returns) plus [expires_in]
    seconds, and plus exactly 2700 seconds when the field is absent. *)
Theorem authenticate_stores_token_and_expiry E s s' :
  authenticate E s = (Ok tt, s') ->
  exists b fields access_token,
    outcome (respond E (calls (outside s))) = Response 200 b
    /\ body_json b = Some (JObj fields)
    /\ assoc "access_token" fields = Some access_token
    /\ _bearer_token (client s') = py_optional access_token
    /\ is_Some (_token_expires_at (client s'))
    /\ (forall n, assoc "expires_in" fields = Some (JNum n) ->
        _token_expires_at (client s') = Some (clock (outside s') + seconds n))
    /\ (assoc "expires_in" fields = None ->
        _token_expires_at (client s') = Some (clock (outside s') + seconds 2700)).
Proof.
  intros Hrun.
  destruct (authenticate_ok_inv E s s' Hrun)
    as (b & fields & access_token & expires_in & delta
        & Hresp & Hjson & Htok & Hexp & Hdelta & _ & Hclient).
  exists b, fields, access_token.
  rewrite Hclient. simpl. repeat split; auto.
  - intros n Hn. rewrite Hn in Hexp. simpl in Hexp. subst expires_in.
    unfold timedelta_seconds in Hdelta.
    destruct (_ && _); congruence.
  - intros Hn. rewrite Hn in Hexp. simpl in Hexp. subst expires_in.
    unfold timedelta_seconds in Hdelta.
    destruct (_ && _); congruence.
Qed.


Lemma authenticate_clock E s :
  clock (outside s) <= clock (outside (snd (authenticate E s))).
Proof. rewrite authenticate_outside. simpl. lia. Qed.

Lemma ensure_authenticated_unfold E s :
  _ensure_authenticated E s
  = if token_missing_or_expired (client s) (clock (outside s))
    then authenticate E s else (Ok tt, s).
Proof.
  unfold _ensure_authenticated. api_unfold. simpl.
  destruct (token_missing_or_expired _ _); reflexivity.
Qed.


(** ** Requests: the retry after a 401, the four fetches *)

Lemma rate_limited_request_unfold E method url s :
  _rate_limited_request E method url s
  = match enter_gate E s with
    | (Ok _, s1) => send E method url s1
    | (Raise e, s1) => (Raise e, s1)
    end.
Proof. reflexivity. Qed.

(** What [send] does once its first request has come back with a 401. *)
Lemma send_401 E method url s b :
  outcome (respond E (calls (outside s))) = Response 401 b ->
  send E method url s
  = match authenticate E (after_first_request E method url s) with
    | (Raise e, s3) => (Raise e, s3)
    | (Ok _, s3) =>
        let retry := EvRequest method url (_bearer_token (client s3)) in
        let s4 := {| client := client s3;
                     outside := snd (exchange_with E retry (outside s3)) |} in
        match outcome (respond E (calls (outside s3))) with
        | ClientError msg => (Raise (RaptApiError ("Network error: " +:+ msg)), s4)
        | Response retry_status rb =>
            if negb (retry_status =? 200) then
              (Raise (RaptApiError ("Request failed after re-auth: "
                                    +:+ pretty retry_status +:+ " - " +:+ body_text rb)),
               s4)
            else response_json rb s4
        end
    end.
Proof.
  intros Hresp. unfold send, after_first_request. api_unfold. simpl.
  rewrite Hresp. simpl.
  destruct (authenticate E _) as [[[] | e] s3]; [| reflexivity].
  simpl.
  destruct (outcome (respond E (calls (outside s3)))) as [msg | retry_status rb];
    [reflexivity |].
  destruct (retry_status =? 200); reflexivity.
Qed.

(** C2, as the code has it.  When the request of a [_rate_limited_request]
    call comes back with a 401, [authenticate] is called exactly once.  If
    it raises, its error is the outcome of the call and no retry is made.
    If it succeeds, the request is sent again exactly once, carrying the
    token [authenticate] has just stored; a retry answered with any status
    other than 200 (a second 401 included) raises a request error, and no
    further network call is made. *)
Theorem rate_limited_request_401 E method url s s1 b :
  enter_gate E s = (Ok tt, s1) ->
  outcome (respond E (calls (outside s1))) = Response 401 b ->
  let first := EvRequest method url (_bearer_token (client s1)) in
  let reauth := auth_post (client s1) in
  let r := fst (_rate_limited_request E method url s) in
  let s' := snd (_rate_limited_request E method url s) in
  match authenticate E (after_first_request E method url s1) with
  | (Raise e, s3) =>
      r = Raise e /\ s' = s3
      /\ trace (outside s') = trace (outside s1) ++ [first; reauth]
  | (Ok _, s3) =>
      let retry := EvRequest method url (_bearer_token (client s3)) in
      trace (outside s') = trace (outside s1) ++ [first; reauth; retry]
      /\ calls (outside s') = (3 + calls (outside s1))%nat
      /\ client s' = client s3
      /\ forall retry_status rb,
          outcome (respond E (calls (outside s3))) = Response retry_status rb ->
          retry_status <> 200 ->
          r = Raise (RaptApiError ("Request failed after re-auth: "
                                   +:+ pretty retry_status +:+ " - " +:+ body_text rb))
  end.
Proof.
  intros Hgate Hresp. cbv zeta.
  rewrite rate_limited_request_unfold, Hgate, (send_401 _ _ _ _ _ Hresp).
  pose proof (authenticate_trace E (after_first_request E method url s1)) as Htr.
  pose proof (authenticate_calls E (after_first_request E method url s1)) as Hcalls.
  destruct (authenticate E (after_first_request E method url s1)) as [[[] | e] s3];
    simpl in Htr, Hcalls.
  - cbv zeta.
    set (retry := EvRequest method url (_bearer_token (client s3))).
    set (s4 := {| client := client s3;
                  outside := snd (exchange_with E retry (outside s3)) |}).
    assert (Hsnd : forall o,
               snd (match o with
                    | ClientError msg =>
                        (Raise (RaptApiError ("Network error: " +:+ msg)), s4)
                    | Response retry_status rb =>
                        if negb (retry_status =? 200) then
                          (Raise (RaptApiError ("Request failed after re-auth: "
                                                +:+ pretty retry_status +:+ " - "
                                                +:+ body_text rb)), s4)
                        else response_json rb s4
                    end) = s4).
    { intros [msg | retry_status rb]; [reflexivity |].
      destruct (retry_status =? 200); simpl; [| reflexivity].
      unfold response_json. destruct (body_json rb); reflexivity. }
    rewrite Hsnd. subst s4. simpl. rewrite Htr, Hcalls, <- !app_assoc. simpl.
    repeat split; auto.
    intros retry_status rb -> Hne%Z.eqb_neq. rewrite Hne. reflexivity.
  - simpl. repeat split; auto.
    rewrite Htr. simpl. rewrite <- app_assoc. reflexivity.
Qed.

Lemma list_or_empty_non_list data : as_list data = None -> list_or_empty data = [].
Proof. unfold list_or_empty. intros ->. reflexivity. Qed.

Lemma fetch_unfold E url s :
  (data ← _rate_limited_request E "GET" url;
   match as_list data with
   | Some l => mret l
   | None => mret []
   end) s
  = match _rate_limited_request E "GET" url s with
    | (Ok data, s') => (Ok (list_or_empty data), s')
    | (Raise e, s') => (Raise e, s')
    end.
Proof.
  co_unfold. destruct (_rate_limited_request E "GET" url s) as [[data | e] s'];
    [| reflexivity].
  unfold list_or_empty. destruct (as_list data); reflexivity.
Qed.

(** C4.  A fetch whose request succeeds returns the decoded body if it is a
    list and the empty list if it is not, never an error, whichever of the
    four it is.  [get_all_devices] runs the four in turn, each from the
    state the one before left, so a body that is not a list empties its own
    category only: the three others are returned as received. *)
Theorem fetch_tolerates_non_list E s d1 d2 d3 d4 s1 s2 s3 s4 :
  _rate_limited_request E "GET" (API_BASE_URL +:+ API_CONTROLLERS_ENDPOINT) s
    = (Ok d1, s1) ->
  _rate_limited_request E "GET" (API_BASE_URL +:+ API_HYDROMETERS_ENDPOINT) s1
    = (Ok d2, s2) ->
  _rate_limited_request E "GET" (API_BASE_URL +:+ API_FERMENTATION_CHAMBERS_ENDPOINT) s2
    = (Ok d3, s3) ->
  _rate_limited_request E "GET" (API_BASE_URL +:+ API_BREWZILLAS_ENDPOINT) s3
    = (Ok d4, s4) ->
  get_temperature_controllers E s = (Ok (list_or_empty d1), s1)
  /\ get_hydrometers E s1 = (Ok (list_or_empty d2), s2)
  /\ get_fermentation_chambers E s2 = (Ok (list_or_empty d3), s3)
  /\ get_brewzillas E s3 = (Ok (list_or_empty d4), s4)
  /\ get_all_devices E s
     = (Ok {| controllers := list_or_empty d1;
              hydrometers := list_or_empty d2;
              fermentation_chambers := list_or_empty d3;
              brewzillas := list_or_empty d4 |}, s4)
  /\ (forall d, as_list d = None -> list_or_empty d = []).
Proof.
  intros H1 H2 H3 H4.
  assert (G1 : get_temperature_controllers E s = (Ok (list_or_empty d1), s1)).
  { unfold get_temperature_controllers. rewrite fetch_unfold, H1. reflexivity. }
  assert (G2 : get_hydrometers E s1 = (Ok (list_or_empty d2), s2)).
  { unfold get_hydrometers. rewrite fetch_unfold, H2. reflexivity. }
  assert (G3 : get_fermentation_chambers E s2 = (Ok (list_or_empty d3), s3)).
  { unfold get_fermentation_chambers. rewrite fetch_unfold, H3. reflexivity. }
  assert (G4 : get_brewzillas E s3 = (Ok (list_or_empty d4), s4)).
  { unfold get_brewzillas. rewrite fetch_unfold, H4. reflexivity. }
  repeat split; auto using list_or_empty_non_list.
  unfold get_all_devices, get_all_controller_data, get_all_hydrometer_data,
    get_all_fermentation_chamber_data, get_all_brewzilla_data.
  unfold mbind at 1, M_bind at 1. rewrite G1.
  unfold mbind at 1, M_bind at 1. rewrite G2.
  unfold mbind at 1, M_bind at 1. rewrite G3.
  unfold mbind at 1, M_bind at 1. rewrite G4.
  reflexivity.
Qed.

(** If one of the four requests raises, so does [get_all_devices], with the
    same error. *)
Lemma get_all_devices_raises_first E s e s1 :
  get_temperature_controllers E s = (Raise e, s1) ->
  get_all_devices E s = (Raise e, s1).
Proof.
  intros H. unfold get_all_devices, get_all_controller_data.
  unfold mbind at 1, M_bind at 1. rewrite H. reflexivity.
Qed.

(** X1.  A token response whose [expires_in] is not a number of seconds that
    [timedelta] takes: [authenticate] raises what [timedelta] raises, after
    the token has been stored and before the expiry is; the expiry is the
    one of the token before. *)
Lemma authenticate_malformed_expires_in E s b fields access_token expires_in e :
  outcome (respond E (calls (outside s))) = Response 200 b ->
  body_json b = Some (JObj fields) ->
  assoc "access_token" fields = Some access_token ->
  assoc "expires_in" fields = Some expires_in ->
  timedelta_seconds expires_in = Raise e ->
  fst (authenticate E s) = Raise e
  /\ _bearer_token (client (snd (authenticate E s))) = py_optional access_token
  /\ _token_expires_at (client (snd (authenticate E s))) = _token_expires_at (client s).
Proof.
  intros Hresp Hjson Htok Hexp Hdelta.
  unfold authenticate. api_unfold. simpl. rewrite Hresp. simpl.
  rewrite Hjson. simpl. rewrite Htok. simpl.
  unfold py_get_default. simpl. rewrite Hexp. simpl. rewrite Hdelta. simpl.
  auto.
Qed.

End ApiFacts.

(** ** The rate gate under concurrent callers *)

Module GateFacts.

Import Gate.
Import GateNotions.

Lemma lookup_moved (l : list pc) (i j : nat) (p p0 : pc) :
  l !! i = Some p0 ->
  <[ i := p ]> l !! j = if decide (i = j) then Some p else l !! j.
Proof.
  intros Hi. destruct (decide (i = j)) as [<- | Hne].
  - apply list_lookup_insert_eq. eapply lookup_lt_Some; eauto.
  - apply list_lookup_insert_ne. exact Hne.
Qed.

Lemma init_inv callers t0 : inv (init callers t0).
Proof.
  constructor; simpl; try discriminate; auto; intros;
    repeat match goal with
           | H : replicate _ _ !! _ = Some _ |- _ =>
               apply lookup_replicate in H as [? _]
           end;
    simplify_eq; auto.
Qed.

Lemma required_sleep_some now last d :
  Api.required_sleep now last = Some d ->
  exists t, last = Some t /\ d = seconds 15 - (now - t) /\ now - t < seconds 15.
Proof.
  unfold Api.required_sleep. destruct last as [t |]; [| discriminate].
  destruct (now - t <? seconds 15) eqn:Hlt; [| discriminate].
  intros [= <-]. apply Z.ltb_lt in Hlt. eauto.
Qed.

Lemma required_sleep_none now last t :
  Api.required_sleep now last = None -> last = Some t -> t + seconds 15 <= now.
Proof.
  unfold Api.required_sleep. intros H ->.
  destruct (now - t <? seconds 15) eqn:Hlt; [discriminate |].
  apply Z.ltb_ge in Hlt. lia.
Qed.

(** Case analysis on which caller a fact is about, after caller [i] moved. *)
Ltac moved Hi :=
  repeat match goal with
         | H : context [<[ _ := _ ]> _ !! _] |- _ =>
             rewrite (lookup_moved _ _ _ _ _ Hi) in H
         end;
  repeat case_decide; simplify_eq; simpl in *; try discriminate; eauto.

(** Two callers past the lock are one and the same. *)
Ltac alone Halone :=
  exfalso;
  match goal with
  | Hi : tasks _ !! ?i = Some ?p, Hj : tasks _ !! ?j = Some ?q, Hne : ?i <> ?j |- _ =>
      apply Hne; apply (Halone i j p q Hi Hj); solve [reflexivity | assumption]
  | Hi : tasks _ !! ?i = Some ?p, Hj : tasks _ !! ?j = Some ?q, Hne : ?j <> ?i |- _ =>
      symmetry in Hne; apply Hne; apply (Halone i j p q Hi Hj);
      solve [reflexivity | assumption]
  end.

(** Nobody is past the lock while it is free. *)
Ltac unlocked Hunl :=
  exfalso;
  match goal with
  | H : locked _ = false, Hi : tasks _ !! _ = Some _ |- _ =>
      specialize (Hunl H _ _ Hi); simpl in Hunl; discriminate
  end.

(** Once the lock is released, the others are not past it. *)
Ltac others_out Halone :=
  match goal with
  | |- in_gate ?p = false =>
      destruct (in_gate p) eqn:?; [alone Halone | reflexivity]
  end.

Ltac gate_close Hi Hunl Halone :=
  constructor; simpl; eauto; intros; moved Hi;
  try solve [alone Halone]; try solve [unlocked Hunl];
  try solve [others_out Halone]; try lia.

Lemma step_inv a g g' : inv g -> step a g = Some g' -> inv g'.
Proof.
  intros [Hlast Hsp Hpast Hunl Halone Hsl Hwk] Hstep.
  destruct a as [d | i | i | i | i | i | i | i]; simpl in Hstep.
  - (* Tick *)
    inversion Hstep; subst; clear Hstep. constructor; simpl; eauto.
    + intros t Ht. specialize (Hpast t Ht). lia.
    + intros i t Hi Ht. specialize (Hwk i t Hi Ht). lia.
  - (* Call *)
    destruct (tasks g !! i) as [[] |] eqn:Hi; inversion Hstep; subst; clear Hstep.
    gate_close Hi Hunl Halone.
  - (* Acquire *)
    destruct (tasks g !! i) as [[] |] eqn:Hi; try discriminate.
    destruct (locked g) eqn:Hl; inversion Hstep; subst; clear Hstep.
    specialize (Hunl eq_refl).
    constructor; simpl; eauto; try discriminate; intros; moved Hi.
    all: match goal with
         | H : tasks _ !! _ = Some ?p, H' : in_gate ?p = true |- _ =>
             rewrite (Hunl _ _ H) in H'; discriminate
         | H : tasks _ !! _ = Some (Sleeping _) |- _ =>
             specialize (Hunl _ _ H); discriminate
         | H : tasks _ !! _ = Some Woken |- _ =>
             specialize (Hunl _ _ H); discriminate
         end.
  - (* Check *)
    destruct (tasks g !! i) as [[] |] eqn:Hi; try discriminate.
    destruct (Api.required_sleep (now g) (_last_request_time g)) as [d |] eqn:Hd;
      inversion Hstep; subst; clear Hstep.
    + apply required_sleep_some in Hd as (t0 & Ht0 & -> & Hlt).
      gate_close Hi Hunl Halone.
    + gate_close Hi Hunl Halone.
      eapply required_sleep_none; eauto.
  - (* Wake *)
    destruct (tasks g !! i) as [[] |] eqn:Hi; try discriminate.
    destruct (until <=? now g) eqn:Hdue; inversion Hstep; subst; clear Hstep.
    apply Z.leb_le in Hdue.
    gate_close Hi Hunl Halone.
    match goal with
    | Ht : _last_request_time _ = Some _ |- _ => specialize (Hsl _ _ _ Hi Ht); lia
    end.
  - (* Stamp *)
    destruct (tasks g !! i) as [[] |] eqn:Hi; inversion Hstep; subst; clear Hstep.
    gate_close Hi Hunl Halone.
    destruct (starts g) as [| earlier rest] eqn:Hst; [exact I |].
    split; [| exact Hsp]. apply (Hwk i earlier Hi). rewrite Hlast. reflexivity.
  - (* Finish *)
    destruct (tasks g !! i) as [[] |] eqn:Hi; inversion Hstep; subst; clear Hstep.
    gate_close Hi Hunl Halone.
  - (* Cancel *)
    destruct (tasks g !! i) as [[] |] eqn:Hi; inversion Hstep; subst; clear Hstep.
    all: gate_close Hi Hunl Halone.
Qed.

Lemma run_inv schedule g g' : inv g -> run schedule g = Some g' -> inv g'.
Proof.
  revert g. induction schedule as [| a rest IH]; simpl; intros g Hinv Hrun.
  - congruence.
  - destruct (step a g) as [g1 |] eqn:Hstep; [| discriminate].
    eapply IH; [| exact Hrun]. eapply step_inv; eauto.
Qed.

Lemma spaced_lookup stamps k earlier later :
  spaced stamps ->
  stamps !! k = Some later -> stamps !! S k = Some earlier ->
  earlier + seconds 15 <= later.
Proof.
  revert k. induction stamps as [| t rest IH]; intros k Hsp Hk HSk; [discriminate |].
  destruct rest as [| t' rest']; [discriminate |].
  destruct Hsp as [Hgap Hsp].
  destruct k as [| k]; simpl in *.
  - congruence.
  - eapply IH; eauto.
Qed.

(** Any number of callers at the gate, interleaved in any order, the clock
    moving forward between their steps and a sleep returning no earlier
    than asked: the stamps written to [_last_request_time] (latest first)
    are pairwise at least 15 seconds apart, and no two callers are ever
    past the lock together. *)
Lemma gate_stamps_spaced callers t0 schedule g :
  run schedule (init callers t0) = Some g ->
  (forall k earlier later,
      starts g !! k = Some later -> starts g !! S k = Some earlier ->
      earlier + seconds 15 <= later)
  /\ (forall i j p q,
        tasks g !! i = Some p -> tasks g !! j = Some q ->
        in_gate p = true -> in_gate q = true -> i = j)
  /\ _last_request_time g = head (starts g).
Proof.
  intros Hrun.
  pose proof (run_inv _ _ _ (init_inv callers t0) Hrun) as [Hlast Hsp _ _ Halone _ _].
  repeat split; auto.
  intros k earlier later. apply spaced_lookup. exact Hsp.
Qed.

(** *** One caller's pass through the gate, in both models *)

Lemma authenticate_keeps_last_request_time E s :
  Api._last_request_time (Api.client (snd (Api.authenticate E s)))
  = Api._last_request_time (Api.client s).
Proof.
  unfold Api.authenticate. api_unfold. simpl.
  destruct (outcome (respond E (calls (Api.outside s)))) as [msg | status b]; simpl;
    [reflexivity |].
  destruct (status =? 400); [reflexivity |].
  destruct (status =? 401); [reflexivity |].
  destruct (status =? 200); simpl; [| reflexivity].
  destruct (body_json b) as [token_data |]; simpl; [| reflexivity].
  destruct (py_contains "access_token" token_data) as [[|] | e]; simpl;
    try reflexivity.
  destruct (py_getitem token_data "access_token") as [tok | e]; simpl;
    [| reflexivity].
  destruct (Api.py_get_default token_data "expires_in" (JNum 2700)) as [x | e]; simpl;
    [| reflexivity].
  destruct (timedelta_seconds x) as [d | e]; simpl; [| reflexivity].
  destruct (datetime_add _ d); reflexivity.
Qed.

Lemma enter_gate_stamp E s :
  Api._last_request_time (Api.client (snd (Api.enter_gate E s)))
  = Some (stamp_of E s).
Proof.
  unfold Api.enter_gate, stamp_of. api_unfold. simpl.
  destruct (Api.required_sleep _ _) as [sleep_time |]; simpl.
  - match goal with
    | |- context [Api._ensure_authenticated E ?s1] =>
        rewrite (ApiFacts.ensure_authenticated_unfold E s1);
        destruct (Api.token_missing_or_expired (Api.client s1) (clock (Api.outside s1)));
        [pose proof (authenticate_keeps_last_request_time E s1) as Hkeep;
         destruct (Api.authenticate E s1) as [[[] | e] s2]; simpl in *; exact Hkeep
        | reflexivity]
    end.
  - match goal with
    | |- context [Api._ensure_authenticated E ?s1] =>
        rewrite (ApiFacts.ensure_authenticated_unfold E s1);
        destruct (Api.token_missing_or_expired (Api.client s1) (clock (Api.outside s1)));
        [pose proof (authenticate_keeps_last_request_time E s1) as Hkeep;
         destruct (Api.authenticate E s1) as [[[] | e] s2]; simpl in *; exact Hkeep
        | reflexivity]
    end.
Qed.

(** Back to back: a request is stamped at least 15 seconds after the one
    before it on the same client. *)
Lemma enter_gate_spacing E s last :
  Api._last_request_time (Api.client s) = Some last ->
  last + seconds 15 <= stamp_of E s.
Proof.
  unfold stamp_of. intros ->.
  destruct (Api.required_sleep _ _) as [sleep_time |] eqn:Hsleep.
  - apply required_sleep_some in Hsleep as (t & [= <-] & -> & _). lia.
  - eapply required_sleep_none; eauto.
Qed.

(** [enter_gate], the code run from start to end by one caller, is a run of
    the step model: same stamp, lock held when the request goes out. *)
Lemma enter_gate_is_a_gate_run E s stamps :
  exists g,
    run (lone_pass E s) (gate_view s stamps) = Some g
    /\ _last_request_time g
       = Api._last_request_time (Api.client (snd (Api.enter_gate E s)))
    /\ starts g = stamp_of E s :: stamps
    /\ locked g = true /\ tasks g = [InFlight].
Proof.
  rewrite enter_gate_stamp. unfold lone_pass, stamp_of, gate_view.
  destruct (Api.required_sleep _ _) as [sleep_time |] eqn:Hsleep.
  - pose proof Hsleep as Hsome.
    apply required_sleep_some in Hsome as (t & Hlast & Hd & Hlt).
    simpl. rewrite Hsleep. simpl.
    assert (Hnow : clock (Api.outside s)
                   + Z.of_N (Z.to_N sleep_time + oversleep E (sleeps (Api.outside s)))
                   = clock (Api.outside s) + sleep_time
                     + Z.of_N (oversleep E (sleeps (Api.outside s)))) by lia.
    rewrite Hnow.
    assert (Hdue : (clock (Api.outside s) + sleep_time
                    <=? clock (Api.outside s) + sleep_time
                        + Z.of_N (oversleep E (sleeps (Api.outside s)))) = true)
      by (apply Z.leb_le; lia).
    rewrite Hdue. simpl. eexists. repeat split.
  - simpl. rewrite Hsleep. simpl. eexists. repeat split.
Qed.

End GateFacts.

(** ** The coordinator: polls, snapshots, discovery *)

Module CoordinatorFacts.

Import Coordinator.
Import CoordinatorNotions.

Ltac coord_unfold :=
  unfold get_self, set_devices, set_known_device_ids, known_add, await_api,
    emit, async_request_refresh in *; co_unfold.

Lemma same_but_known_refl s : same_but_known s s.
Proof. unfold same_but_known, with_known. destruct s as [[] ?]; reflexivity. Qed.

Lemma same_but_known_trans s1 s2 s3 :
  same_but_known s1 s2 -> same_but_known s2 s3 -> same_but_known s1 s3.
Proof.
  unfold same_but_known, with_known. intros H12 H23.
  rewrite H23 at 1. rewrite H12 at 1. simpl. rewrite H12 at 1. simpl.
  rewrite H12 at 1. simpl. rewrite H12 at 1. simpl. rewrite H12 at 1. simpl.
  reflexivity.
Qed.

Lemma with_known_same s k : same_but_known s (with_known k s).
Proof. reflexivity. Qed.

Lemma known_add_frame v s :
  same_but_known s (snd (known_add v s)).
Proof.
  unfold known_add. coord_unfold. simpl.
  destruct (hashable v); simpl; [reflexivity | apply same_but_known_refl].
Qed.

(** The tracking loop touches nothing but the set of known ids, even when
    it raises half way. *)
Lemma track_each_frame devices s :
  same_but_known s (snd (track_each devices s)).
Proof.
  revert s. induction devices as [| device rest IH]; intros s; simpl.
  - apply same_but_known_refl.
  - co_unfold. simpl.
    destruct (py_get device "id") as [[v |] | e]; simpl.
    + destruct (truthy v).
      * pose proof (known_add_frame v s) as Hadd.
        destruct (known_add v s) as [[[] | e] s1]; simpl in *; [| exact Hadd].
        eapply same_but_known_trans; [exact Hadd | apply IH].
      * apply IH.
    + apply IH.
    + apply same_but_known_refl.
Qed.

Lemma update_data_unfold E s :
  _async_update_data E s
  = match Api.get_all_devices E (api_client s) with
    | (Raise e, a') =>
        (Raise (UpdateFailed (update_failed_prefix e) e),
         {| self := self s; api_client := a' |})
    | (Ok all, a') =>
        let s1 := {| self := self s; api_client := a' |} in
        match track_each (merged all) s1 with
        | (Raise e, s2) => (Raise (UpdateFailed (update_failed_prefix e) e), s2)
        | (Ok _, s2) =>
            (Ok (snapshot_of all (last_update_success (self s2))),
             snd (set_devices (merged all) s2))
        end
    end.
Proof.
  unfold _async_update_data, _track_known_devices, merged, snapshot_of.
  coord_unfold. simpl.
  destruct (Api.get_all_devices E (api_client s)) as [[all | e] a']; simpl.
  - destruct (track_each _ _) as [[[] | e] s2]; simpl; [reflexivity |].
    destruct e; reflexivity.
  - destruct e; reflexivity.
Qed.

Lemma update_data_fetch_raises E s e a' :
  Api.get_all_devices E (api_client s) = (Raise e, a') ->
  _async_update_data E s
  = (Raise (UpdateFailed (update_failed_prefix e) e),
     {| self := self s; api_client := a' |}).
Proof. intros Hfetch. rewrite update_data_unfold, Hfetch. reflexivity. Qed.

(** A poll that raises raises [UpdateFailed], and has replaced neither the
    snapshot nor the merged list. *)
Lemma update_data_raise_inv E s e s' :
  _async_update_data E s = (Raise e, s') ->
  (exists cause, e = UpdateFailed (update_failed_prefix cause) cause)
  /\ data (self s') = data (self s)
  /\ _devices (self s') = _devices (self s)
  /\ last_update_success (self s') = last_update_success (self s).
Proof.
  rewrite update_data_unfold.
  destruct (Api.get_all_devices E (api_client s)) as [[all | e0] a'].
  - cbv zeta.
    pose proof (track_each_frame (merged all) {| self := self s; api_client := a' |})
      as Hframe.
    destruct (track_each _ _) as [[[] | e1] s2]; [discriminate |].
    intros [= <- <-]. simpl in *. rewrite Hframe. simpl. eauto.
  - intros [= <- <-]. simpl. eauto.
Qed.

(** A poll that returns has fetched the four lists, and returns them with
    their concatenation and the success flag of the poll before. *)
Lemma update_data_ok_inv E s d s' :
  _async_update_data E s = (Ok d, s') ->
  exists all a',
    Api.get_all_devices E (api_client s) = (Ok all, a')
    /\ d = snapshot_of all (last_update_success (self s))
    /\ data (self s') = data (self s)
    /\ _devices (self s') = merged all
    /\ api_client s' = a'.
Proof.
  rewrite update_data_unfold.
  destruct (Api.get_all_devices E (api_client s)) as [[all | e0] a'];
    [| discriminate].
  cbv zeta.
  pose proof (track_each_frame (merged all) {| self := self s; api_client := a' |})
    as Hframe.
  destruct (track_each _ _) as [[[] | e1] s2]; [| discriminate].
  intros [= <- <-]. simpl in *. exists all, a'.
  rewrite Hframe. simpl. auto.
Qed.

(** C3.  A poll whose [get_all_devices] raises ends in [UpdateFailed],
    wrapping the error, and leaves the coordinator object exactly as it was:
    the snapshot in [data], the merged list [_devices] and the known-device
    set.  The host's refresh then keeps that snapshot and records the
    failure.  More generally the snapshot and the merged list are replaced
    only by a poll that succeeds, and then by what that poll fetched. *)
Theorem poll_failure_keeps_snapshot E s :
  (forall e a',
      Api.get_all_devices E (api_client s) = (Raise e, a') ->
      _async_update_data E s
      = (Raise (UpdateFailed (update_failed_prefix e) e),
         {| self := self s; api_client := a' |})
      /\ data (self (refresh E s)) = data (self s)
      /\ _devices (self (refresh E s)) = _devices (self s)
      /\ _known_device_ids (self (refresh E s)) = _known_device_ids (self s)
      /\ last_update_success (self (refresh E s)) = false)
  /\ (forall e s',
        _async_update_data E s = (Raise e, s') ->
        (exists cause, e = UpdateFailed (update_failed_prefix cause) cause)
        /\ data (self (refresh E s)) = data (self s)
        /\ _devices (self (refresh E s)) = _devices (self s))
  /\ (forall d s',
        _async_update_data E s = (Ok d, s') ->
        exists all a',
          Api.get_all_devices E (api_client s) = (Ok all, a')
          /\ d = snapshot_of all (last_update_success (self s))
          /\ data (self (refresh E s)) = Some d
          /\ _devices (self (refresh E s)) = merged all).
Proof.
  split; [| split].
  - intros e a' Hfetch.
    pose proof (update_data_fetch_raises E s e a' Hfetch) as Hrun.
    split; [exact Hrun |].
    unfold refresh. rewrite Hrun. simpl. auto.
  - intros e s' Hrun.
    destruct (update_data_raise_inv E s e s' Hrun) as (Hcause & Hdata & Hdev & _).
    unfold refresh. rewrite Hrun. simpl. auto.
  - intros d s' Hrun.
    destruct (update_data_ok_inv E s d s' Hrun) as (all & a' & Hfetch & Hd & _ & Hdev & _).
    exists all, a'. unfold refresh. rewrite Hrun. simpl. auto.
Qed.

(** The [last_updated] entry of the snapshot a successful poll returns is
    the host's [last_update_success] flag as it stood before the poll. *)
Lemma snapshot_last_updated_is_flag E s d s' :
  _async_update_data E s = (Ok d, s') ->
  last_updated d = last_update_success (self s).
Proof.
  intros Hrun.
  destruct (update_data_ok_inv E s d s' Hrun) as (all & a' & _ & -> & _).
  reflexivity.
Qed.

(** *** Discovery *)

Lemma with_known_id s : with_known (_known_device_ids (self s)) s = s.
Proof. destruct s as [[] ?]; reflexivity. Qed.

Lemma with_known_twice k k' s : with_known k (with_known k' s) = with_known k s.
Proof. reflexivity. Qed.

Lemma keys_of_cons_some device rest k :
  device_key device = Some k -> keys_of (device :: rest) = {[ k ]} ∪ keys_of rest.
Proof. unfold keys_of. simpl. intros ->. reflexivity. Qed.

Lemma discover_each_cons device rest acc s :
  trackable device = true ->
  discover_each (device :: rest) acc s
  = match device_key device with
    | Some k =>
        if decide (k ∈ _known_device_ids (self s)) then discover_each rest acc s
        else discover_each rest (acc ++ [device])
               (with_known ({[ k ]} ∪ _known_device_ids (self s)) s)
    | None => discover_each rest acc s
    end.
Proof.
  unfold trackable, device_key. simpl. coord_unfold. simpl.
  destruct (py_get device "id") as [[v |] | e]; simpl; try discriminate;
    [| reflexivity].
  destruct (truthy v); [| reflexivity].
  destruct (hashable v) as [k | e]; simpl; [| discriminate].
  intros _. destruct (decide (k ∈ _known_device_ids (self s))); reflexivity.
Qed.

(** The discovery loop on trackable records: it returns the records first
    seen, after those it was given, and adds their ids to the known set. *)
Lemma discover_each_run devices :
  Forall (fun d => trackable d = true) devices ->
  forall acc s,
    discover_each devices acc s
    = (Ok (acc ++ first_seen devices (_known_device_ids (self s))),
       with_known (_known_device_ids (self s)
                   ∪ keys_of (first_seen devices (_known_device_ids (self s)))) s).
Proof.
  induction 1 as [| device rest Hdev Hrest IH]; intros acc s.
  - simpl. coord_unfold. rewrite app_nil_r.
    unfold keys_of. simpl. rewrite (right_id_L ∅ (∪)), with_known_id. reflexivity.
  - rewrite (discover_each_cons _ _ _ _ Hdev). simpl.
    destruct (device_key device) as [k |] eqn:Hkey; [| apply IH].
    destruct (decide (k ∈ _known_device_ids (self s))) as [Hin | Hout];
      [apply IH |].
    rewrite IH. simpl. rewrite <- app_assoc. simpl.
    rewrite (keys_of_cons_some _ _ _ Hkey).
    f_equal. unfold with_known. simpl. do 2 f_equal.
    set_solver.
Qed.

Lemma first_seen_sublist devices known : sublist (first_seen devices known) devices.
Proof.
  revert known. induction devices as [| device rest IH]; intros known; simpl.
  - constructor.
  - destruct (device_key device) as [k |]; [| apply sublist_cons, IH].
    destruct (decide (k ∈ known)); [apply sublist_cons, IH | apply sublist_skip, IH].
Qed.

(** The ids of the records first seen are the ids fetched less those known:
    the set difference. *)
Lemma first_seen_keys devices known :
  keys_of (first_seen devices known) = keys_of devices ∖ known.
Proof.
  revert known. induction devices as [| device rest IH]; intros known; simpl.
  - unfold keys_of. simpl. set_solver.
  - destruct (device_key device) as [k |] eqn:Hkey.
    + rewrite (keys_of_cons_some _ rest _ Hkey).
      destruct (decide (k ∈ known)) as [Hin | Hout].
      * rewrite IH. clear IH. generalize (keys_of rest). set_solver.
      * rewrite (keys_of_cons_some _ _ _ Hkey), IH. clear IH.
        generalize (keys_of rest). intros fetched. apply set_eq. intros x.
        destruct (decide (x = k)) as [-> | Hne]; set_solver.
    + rewrite IH. unfold keys_of. simpl. rewrite Hkey. reflexivity.
Qed.

Lemma elem_of_keys_of devices k :
  k ∈ keys_of devices <-> exists d, d ∈ devices /\ device_key d = Some k.
Proof.
  unfold keys_of. rewrite elem_of_list_to_set, list_elem_of_omap. reflexivity.
Qed.

(** No id comes twice among the records first seen. *)
Lemma first_seen_nodup devices known :
  NoDup (omap device_key (first_seen devices known)).
Proof.
  revert known. induction devices as [| device rest IH]; intros known; simpl.
  - constructor.
  - destruct (device_key device) as [k |] eqn:Hkey; [| apply IH].
    destruct (decide (k ∈ known)) as [Hin | Hout]; [apply IH |].
    simpl. rewrite Hkey. constructor; [| apply IH].
    intros Hdup.
    assert (Hk : k ∈ keys_of (first_seen rest ({[ k ]} ∪ known))).
    { unfold keys_of. apply elem_of_list_to_set. exact Hdup. }
    rewrite first_seen_keys in Hk. set_solver.
Qed.

(** A record is first seen exactly when it carries an id that is not known
    and that no record before it in the list carries. *)
Lemma elem_of_first_seen devices known d :
  d ∈ first_seen devices known
  <-> exists i k,
        devices !! i = Some d /\ device_key d = Some k /\ (k ∉ known)
        /\ forall j d', (j < i)%nat -> devices !! j = Some d' ->
                        (device_key d' <> Some k).
Proof.
  revert known. induction devices as [| device rest IH]; intros known; simpl.
  - split; [intros H; inversion H | intros (i & k & H & _); discriminate].
  - assert (Hskip :
      forall known',
        (forall k, device_key device = Some k -> k ∈ known) ->
        known' = known ->
        (d ∈ first_seen rest known'
         <-> exists i k,
               (device :: rest) !! i = Some d /\ device_key d = Some k /\ (k ∉ known)
               /\ forall j d', (j < i)%nat -> (device :: rest) !! j = Some d' ->
                               (device_key d' <> Some k))).
    { intros known' Hknown ->. rewrite IH. split.
      - intros (i & k & Hi & Hk & Hout & Hfirst).
        exists (S i), k. repeat split; auto.
        intros [| j] d' Hlt Hj; simpl in Hj.
        + injection Hj as <-. intros Hd. apply Hout, Hknown, Hd.
        + apply (Hfirst j d'); [lia | exact Hj].
      - intros ([| i] & k & Hi & Hk & Hout & Hfirst); simpl in Hi.
        + injection Hi as <-. exfalso. apply Hout, Hknown, Hk.
        + exists i, k. repeat split; auto.
          intros j d' Hlt Hj. apply (Hfirst (S j) d'); [lia | exact Hj]. }
    destruct (device_key device) as [k0 |] eqn:Hkey.
    + destruct (decide (k0 ∈ known)) as [Hin | Hout0].
      * apply Hskip; [| reflexivity]. intros k [= <-]. exact Hin.
      * rewrite elem_of_cons, IH. split.
        -- intros [-> | (i & k & Hi & Hk & Hout & Hfirst)].
           ++ exists 0%nat, k0. repeat split; auto. intros j d' Hlt. lia.
           ++ exists (S i), k. repeat split; auto; [set_solver |].
              intros [| j] d' Hlt Hj; simpl in Hj.
              ** injection Hj as <-. rewrite Hkey. intros [= ->]. set_solver.
              ** apply (Hfirst j d'); [lia | exact Hj].
        -- intros ([| i] & k & Hi & Hk & Hout & Hfirst); simpl in Hi.
           ++ left. congruence.
           ++ right. exists i, k. repeat split; auto.
              ** assert (k0 <> k).
                 { intros ->. apply (Hfirst 0%nat device); [lia | reflexivity | exact Hkey]. }
                 set_solver.
              ** intros j d' Hlt Hj. apply (Hfirst (S j) d'); [lia | exact Hj].
    + apply Hskip; [| reflexivity]. intros k [=].
Qed.

Lemma emitted_app evs evs' s : emitted evs' (emitted evs s) = emitted (evs ++ evs') s.
Proof. unfold emitted. simpl. rewrite <- app_assoc. reflexivity. Qed.

Lemma notify_all_return callbacks new_devices :
  Forall (fun cb : callback => cb new_devices = Ok tt) callbacks ->
  forall first s,
    notify callbacks first new_devices s
    = (Ok tt, emitted (callback_events first (length callbacks) new_devices) s).
Proof.
  induction 1 as [| cb rest Hcb Hrest IH]; intros first s; simpl.
  - coord_unfold. unfold emitted, callback_events. simpl. rewrite app_nil_r.
    destruct s as [? [? []]]; reflexivity.
  - coord_unfold. simpl. rewrite Hcb. simpl. rewrite IH.
    unfold callback_events, emitted, log. simpl.
    rewrite <- app_assoc. reflexivity.
Qed.

Lemma notify_one_raises before cb after new_devices e :
  Forall (fun cb : callback => cb new_devices = Ok tt) before ->
  cb new_devices = Raise e ->
  forall first s,
    notify (before ++ cb :: after) first new_devices s
    = (Raise e, emitted (callback_events first (S (length before)) new_devices) s).
Proof.
  intros Hbefore Hcb.
  induction Hbefore as [| cb0 rest Hcb0 Hrest IH]; intros first s; simpl.
  - coord_unfold. simpl. rewrite Hcb. reflexivity.
  - coord_unfold. simpl. rewrite Hcb0. simpl. rewrite IH.
    unfold callback_events, emitted, log. simpl.
    rewrite <- app_assoc. reflexivity.
Qed.

Lemma notify_frame callbacks new_devices first s :
  exists n,
    snd (notify callbacks first new_devices s)
    = emitted (callback_events first n new_devices) s.
Proof.
  revert first s. induction callbacks as [| cb rest IH]; intros first s; simpl.
  - exists 0%nat. coord_unfold. unfold emitted, callback_events. simpl.
    rewrite app_nil_r. destruct s as [? [? []]]; reflexivity.
  - coord_unfold. simpl. destruct (cb new_devices) as [[] | e]; simpl.
    + destruct (IH (S first)
                  {| self := self s;
                     api_client :=
                       {| Api.client := Api.client (api_client s);
                          Api.outside := log (EvCallback first new_devices)
                                             (Api.outside (api_client s)) |} |})
        as (n & Hn).
      exists (S n).
      destruct (notify rest (S first) new_devices _) as [[[] | e] s3];
        simpl in *; subst s3;
        unfold callback_events, emitted, log; simpl;
        rewrite <- app_assoc; reflexivity.
    + exists 1%nat. reflexivity.
Qed.

Lemma discover_unfold E s :
  async_discover_devices E s
  = match Api.get_all_devices E (api_client s) with
    | (Raise e, a') => (Ok tt, {| self := self s; api_client := a' |})
    | (Ok all, a') =>
        let s1 := {| self := self s; api_client := a' |} in
        match discover_each (merged all) [] s1 with
        | (Raise e, s2) => (Ok tt, s2)
        | (Ok [], s2) => (Ok tt, emitted [EvRequestRefresh] s2)
        | (Ok new_devices, s2) =>
            match notify (_discovery_callbacks (self s2)) 0 new_devices s2 with
            | (Raise e, s3) => (Ok tt, s3)
            | (Ok _, s3) => (Ok tt, emitted [EvRequestRefresh] s3)
            end
        end
    end.
Proof.
  unfold async_discover_devices, merged. coord_unfold. simpl.
  destruct (Api.get_all_devices E (api_client s)) as [[all | e] a']; simpl;
    [| reflexivity].
  destruct (discover_each _ _ _) as [[[| d new_devices] | e] s2]; simpl;
    try reflexivity.
  destruct (notify _ _ _ _) as [[[] | e] s3]; reflexivity.
Qed.

(** C5, as the code has it.  A manual discovery never raises.  When the
    fetch fails it does nothing more.  When the fetch succeeds (and the
    records are ones the loop can go through), the new devices are the
    records first seen: a record is collected exactly when it carries an id
    that is not in the known-device set and that no earlier fetched record
    carries, so each new id comes once, with the first record that has it;
    the set of their ids is the set of fetched ids less the known ones, and
    the known-device set gains exactly these.  With no new device no
    callback is called.  Otherwise the callbacks are called with the list of
    new devices, one after the other in registration order, each awaited:
    if all return, each has been called exactly once and a refresh is then
    requested; if one raises, those registered after it are not called and
    no refresh is requested. *)
Theorem discover_devices E s :
  fst (async_discover_devices E s) = Ok tt
  /\ (forall e a',
        Api.get_all_devices E (api_client s) = (Raise e, a') ->
        snd (async_discover_devices E s) = {| self := self s; api_client := a' |})
  /\ (forall all a',
        Api.get_all_devices E (api_client s) = (Ok all, a') ->
        Forall (fun d => trackable d = true) (merged all) ->
        let known := _known_device_ids (self s) in
        let new_devices := first_seen (merged all) known in
        let callbacks := _discovery_callbacks (self s) in
        let s' := snd (async_discover_devices E s) in
        let events := drop (length (trace (Api.outside a')))
                           (trace (Api.outside (api_client s'))) in
        (forall d,
            d ∈ new_devices
            <-> exists i k,
                  merged all !! i = Some d /\ device_key d = Some k /\ (k ∉ known)
                  /\ forall j d', (j < i)%nat -> merged all !! j = Some d' ->
                                  (device_key d' <> Some k))
        /\ sublist new_devices (merged all)
        /\ NoDup (omap device_key new_devices)
        /\ keys_of new_devices = keys_of (merged all) ∖ known
        /\ _known_device_ids (self s') = known ∪ keys_of new_devices
        /\ (new_devices = [] -> events = [EvRequestRefresh])
        /\ (new_devices <> [] ->
            Forall (fun cb : callback => cb new_devices = Ok tt) callbacks ->
            events = callback_events 0 (length callbacks) new_devices
                     ++ [EvRequestRefresh])
        /\ (new_devices <> [] ->
            forall before cb after e,
              callbacks = before ++ cb :: after ->
              Forall (fun cb : callback => cb new_devices = Ok tt) before ->
              cb new_devices = Raise e ->
              events = callback_events 0 (S (length before)) new_devices)).
Proof.
  split; [| split].
  - rewrite discover_unfold.
    destruct (Api.get_all_devices E (api_client s)) as [[all | e] a'];
      [| reflexivity].
    cbv zeta. destruct (discover_each _ _ _) as [[[| d new_devices] | e] s2];
      try reflexivity.
    destruct (notify _ _ _ _) as [[[] | e] s3]; reflexivity.
  - intros e a' Hfetch. rewrite discover_unfold, Hfetch. reflexivity.
  - intros all a' Hfetch Htrack. cbv zeta.
    rewrite discover_unfold, Hfetch. cbv zeta.
    rewrite (discover_each_run _ Htrack).
    change (_known_device_ids (self {| self := self s; api_client := a' |}))
      with (_known_device_ids (self s)).
    set (known := _known_device_ids (self s)).
    set (new_devices := first_seen (merged all) known).
    set (s2 := with_known (known ∪ keys_of new_devices)
                 {| self := self s; api_client := a' |}).
    split; [apply elem_of_first_seen |].
    split; [apply first_seen_sublist |].
    split; [apply first_seen_nodup |].
    split; [apply first_seen_keys |].
    change ([] ++ new_devices) with new_devices.
    destruct new_devices as [| d rest] eqn:Hnew.
    + simpl. rewrite drop_app_length. repeat split; auto; congruence.
    + change (_discovery_callbacks (self s2)) with (_discovery_callbacks (self s)).
      destruct (notify_frame (_discovery_callbacks (self s)) (d :: rest) 0 s2)
        as (n & Hframe).
      split; [| split; [discriminate | split]].
      * destruct (notify _ _ _ _) as [[[] | e] s3]; simpl in Hframe; subst s3;
          reflexivity.
      * intros _ Hall. rewrite (notify_all_return _ _ Hall). simpl.
        rewrite <- app_assoc, drop_app_length. reflexivity.
      * intros _ before cb after e -> Hbefore Hcb.
        rewrite (notify_one_raises _ _ _ _ _ Hbefore Hcb). simpl.
        rewrite drop_app_length. reflexivity.
Qed.

Lemma track_each_cons device rest s :
  trackable device = true ->
  track_each (device :: rest) s
  = match device_key device with
    | Some k => track_each rest (with_known ({[ k ]} ∪ _known_device_ids (self s)) s)
    | None => track_each rest s
    end.
Proof.
  unfold trackable, device_key. simpl. coord_unfold. simpl.
  destruct (py_get device "id") as [[v |] | e]; simpl; try discriminate;
    [| reflexivity].
  destruct (truthy v); [| reflexivity].
  destruct (hashable v) as [k | e]; simpl; [| discriminate].
  reflexivity.
Qed.

(** The tracking loop on trackable records adds the ids they carry to the
    known set, and does nothing else. *)
Lemma track_each_run devices :
  Forall (fun d => trackable d = true) devices ->
  forall s,
    track_each devices s
    = (Ok tt, with_known (_known_device_ids (self s) ∪ keys_of devices) s).
Proof.
  induction 1 as [| device rest Hdev Hrest IH]; intros s.
  - simpl. coord_unfold. unfold keys_of. simpl.
    rewrite (right_id_L ∅ (∪)), with_known_id. reflexivity.
  - rewrite (track_each_cons _ _ _ Hdev).
    destruct (device_key device) as [k |] eqn:Hkey.
    + rewrite IH, (keys_of_cons_some _ _ _ Hkey). simpl.
      f_equal. unfold with_known. simpl. do 2 f_equal.
      clear IH. generalize (keys_of rest). set_solver.
    + rewrite IH. unfold keys_of. simpl. rewrite Hkey. reflexivity.
Qed.

(** X2.  A scheduled poll that succeeds adds every id it fetched to the
    known-device set, which only grows, and calls no discovery callback: it
    makes no other mark on the outside than its four requests. *)
Theorem poll_tracks_known_devices E s all a' :
  Api.get_all_devices E (api_client s) = (Ok all, a') ->
  Forall (fun d => trackable d = true) (merged all) ->
  let s' := snd (_async_update_data E s) in
  fst (_async_update_data E s) = Ok (snapshot_of all (last_update_success (self s)))
  /\ _known_device_ids (self s') = _known_device_ids (self s) ∪ keys_of (merged all)
  /\ _known_device_ids (self s) ⊆ _known_device_ids (self s')
  /\ _devices (self s') = merged all
  /\ api_client s' = a'.
Proof.
  intros Hfetch Htrack. cbv zeta.
  rewrite update_data_unfold, Hfetch. cbv zeta.
  rewrite (track_each_run _ Htrack). simpl.
  repeat split; auto. set_solver.
Qed.

End CoordinatorFacts.

(** ** The sensor entity: where a value is looked up *)

Module SensorFacts.

Import Coordinator Sensor.
Import SensorNotions.

Section WithBuiltins.

Variable py_float : Type.
Variable float_of_str : string -> option py_float.
Variable int_of_str : string -> option Z.
Variable str_of : json -> string.

Lemma find_device_none device_id devices :
  Forall (fun dev => id_is device_id dev = Ok false) devices ->
  find_device device_id devices = Ok None.
Proof.
  induction 1 as [| dev rest Hdev Hrest IH]; simpl.
  - reflexivity.
  - rewrite Hdev. exact IH.
Qed.

Lemma native_value_searched coordinator sensor d :
  data coordinator = Some d ->
  native_value py_float float_of_str int_of_str str_of coordinator sensor
  = match find_device (_device_id sensor) (searched sensor d) with
    | Raise e => Raise e
    | Ok None => Ok None
    | Ok (Some device) =>
        if negb (truthy device) then Ok None
        else read_sensor py_float float_of_str int_of_str str_of (key sensor) device
    end.
Proof. unfold native_value, searched. intros ->. reflexivity. Qed.

(** C10.  For a sensor whose device type is not [TemperatureController]
    (so for [FermentationChamber] and [BrewZilla]) [native_value] looks the
    device up in the snapshot's hydrometers and nowhere else: two snapshots
    with the same hydrometers give the same value.  Hence, when no
    hydrometer record has the sensor's device id, [native_value] is [None]
    and the entity is not available, whatever the snapshot's
    fermentation_chambers and brewzillas hold. *)
Theorem chamber_sensor_reads_hydrometers coordinator sensor d :
  data coordinator = Some d ->
  _device_type sensor <> "TemperatureController" ->
  (forall coordinator' d',
      data coordinator' = Some d' ->
      snap_hydrometers d' = snap_hydrometers d ->
      native_value py_float float_of_str int_of_str str_of coordinator' sensor
      = native_value py_float float_of_str int_of_str str_of coordinator sensor)
  /\ (Forall (fun dev => id_is (_device_id sensor) dev = Ok false)
             (snap_hydrometers d) ->
      native_value py_float float_of_str int_of_str str_of coordinator sensor
      = Ok None
      /\ available py_float float_of_str int_of_str str_of coordinator sensor
         = Ok false).
Proof.
  intros Hdata Htype.
  assert (Hsearched : forall d0, searched sensor d0 = snap_hydrometers d0).
  { intros d0. unfold searched.
    destruct (String.eqb_spec (_device_type sensor) "TemperatureController");
      [contradiction | reflexivity]. }
  split.
  - intros coordinator' d' Hdata' Hsame.
    rewrite (native_value_searched _ _ _ Hdata), (native_value_searched _ _ _ Hdata').
    rewrite !Hsearched, Hsame. reflexivity.
  - intros Hnone.
    assert (Hvalue : native_value py_float float_of_str int_of_str str_of
                       coordinator sensor = Ok None).
    { rewrite (native_value_searched _ _ _ Hdata), Hsearched.
      rewrite (find_device_none _ _ Hnone). reflexivity. }
    split; [exact Hvalue |].
    unfold available. rewrite Hvalue.
    destruct (last_update_success coordinator); reflexivity.
Qed.

End WithBuiltins.

End SensorFacts.

(* ===================================================================== *)
(** * Scenarios: the properties at concrete inputs *)
(* ===================================================================== *)

Module ScenarioFacts.

Import Api Coordinator Sensor.
Import ApiNotions CoordinatorNotions Scenarios.

(** The token response leaves [expires_in] out: the token is stored with
    an expiry 2700 seconds after the response came in. *)
Lemma authenticate_default_expiry :
  let s' := snd (authenticate (script [token_response "T1"]) fresh) in
  _bearer_token (client s') = Some (JStr "T1")
  /\ _token_expires_at (client s') = Some (t0 + 200000 + seconds 2700).
Proof.
  cbv zeta.
  destruct (ApiFacts.authenticate_stores_token_and_expiry
              (script [token_response "T1"]) fresh
              (snd (authenticate (script [token_response "T1"]) fresh)) eq_refl)
    as (b & fields & access_token & Hresp & Hjson & Htok & Hbearer & _ & _ & Hdefault).
  injection Hresp as <-. injection Hjson as <-. injection Htok as <-.
  split; [exact Hbearer | exact (Hdefault eq_refl)].
Defined.


(** *** A 401, the re-authentication, the retry *)

(** A second 401: one re-authentication, one retry with the new token, a
    request error, and nothing more. *)
Lemma second_401_is_an_error :
  fst (_rate_limited_request twice_401 "GET" controllers_url signed_in)
  = Raise (RaptApiError "Request failed after re-auth: 401 - expired again")
  /\ events_of twice_401 "GET" controllers_url signed_in
     = [EvRequest "GET" controllers_url (Some (JStr "T0"));
        EvPost API_AUTH_URL "brewer@example.org" "secret";
        EvRequest "GET" controllers_url (Some (JStr "T1"))].
Proof.
  pose proof (ApiFacts.rate_limited_request_401 twice_401 "GET" controllers_url
                signed_in (snd (enter_gate twice_401 signed_in))
                {| body_text := "expired"; body_json := None |}
                eq_refl eq_refl) as H.
  cbv zeta in H.
  destruct (authenticate twice_401 _) as [[[] | e] s3] eqn:Hauth;
    [| discriminate Hauth].
  destruct H as (Htrace & _ & _ & Hretry).
  injection Hauth as <-.
  split.
  - apply (Hretry 401 {| body_text := "expired again"; body_json := None |});
      [reflexivity | discriminate].
  - unfold events_of. rewrite Htrace. reflexivity.
Defined.

(** The re-authentication is refused: its error is the outcome and no retry
    is made, so C2 as stated fails here. *)
Lemma no_retry_when_reauth_fails :
  fst (_rate_limited_request reauth_refused "GET" controllers_url signed_in)
  = Raise (RaptApiError "Authentication failed: Invalid username or API key")
  /\ events_of reauth_refused "GET" controllers_url signed_in
     = [EvRequest "GET" controllers_url (Some (JStr "T0"));
        EvPost API_AUTH_URL "brewer@example.org" "secret"]
  /\ ~ retries_once_after_401 reauth_refused "GET" controllers_url signed_in.
Proof.
  split; [reflexivity | split; [reflexivity |]].
  intros Hstated.
  destruct (Hstated (snd (enter_gate reauth_refused signed_in))
                   {| body_text := "expired"; body_json := None |}
                   eq_refl eq_refl) as (token & Hevents).
  discriminate Hevents.
Qed.

(** *** The four fetches *)

(** The odd body empties the controllers and nothing else. *)
Lemma odd_controllers_do_not_block :
  fst (get_temperature_controllers odd_controllers signed_in) = Ok []
  /\ fst (get_all_devices odd_controllers signed_in)
     = Ok {| controllers := [];
             hydrometers := [device "H1" "Pill"];
             fermentation_chambers := [device "F1" "Chamber"];
             brewzillas := [device "B1" "BrewZilla"] |}.
Proof.
  set (s1 := after odd_controllers controllers_url signed_in).
  set (s2 := after odd_controllers hydrometers_url s1).
  set (s3 := after odd_controllers chambers_url s2).
  set (s4 := after odd_controllers brewzillas_url s3).
  destruct (ApiFacts.fetch_tolerates_non_list odd_controllers signed_in
              (JObj [("message", JStr "maintenance")])
              (JList [device "H1" "Pill"])
              (JList [device "F1" "Chamber"])
              (JList [device "B1" "BrewZilla"])
              s1 s2 s3 s4 eq_refl eq_refl eq_refl eq_refl)
    as (Hfirst & _ & _ & _ & Hall & _).
  rewrite Hfirst, Hall. split; reflexivity.
Defined.

(** *** Two callers at the gate *)

(** Woken a microsecond early, the second caller is not let through. *)
Lemma early_wake_is_not_a_step :
  Gate.run [Gate.Call 0; Gate.Call 1;
            Gate.Acquire 0; Gate.Check 0; Gate.Stamp 0;
            Gate.Tick 2000000; Gate.Finish 0;
            Gate.Acquire 1; Gate.Check 1;
            Gate.Tick 12999999; Gate.Wake 1] (Gate.init 2 t0) = None.
Proof. reflexivity. Qed.

(** *** Polls and discovery *)

(** A poll while the network is down: the refresh fails, and the snapshot,
    the merged list and the known ids stay as they were. *)
Lemma offline_poll_keeps_snapshot :
  let s := polled [] signed_in in
  fst (_async_update_data offline s)
  = Raise (UpdateFailed "Error communicating with RAPT API: "
             (RaptApiError "Network error: Connection refused"))
  /\ data (self (refresh offline s)) = data (self s)
  /\ _devices (self (refresh offline s)) = _devices (self s)
  /\ _known_device_ids (self (refresh offline s)) = _known_device_ids (self s)
  /\ last_update_success (self (refresh offline s)) = false.
Proof.
  cbv zeta.
  destruct (proj1 (CoordinatorFacts.poll_failure_keeps_snapshot offline
                     (polled [] signed_in))
              (RaptApiError "Network error: Connection refused")
              (snd (get_all_devices offline signed_in)) eq_refl)
    as (Hrun & Hrest).
  split; [rewrite Hrun; reflexivity | exact Hrest].
Defined.

(** Discovery then calls each callback once with [[C]], requests a refresh,
    and knows A, B and C. *)
Lemma discovery_finds_the_new_device :
  let s := polled [quiet; quiet] signed_in in
  let s' := snd (async_discover_devices one_more s) in
  drop (length (trace (outside (snd (get_all_devices one_more signed_in)))))
       (trace (outside (api_client s')))
  = [EvCallback 0 [device "C" "Pill 2"]; EvCallback 1 [device "C" "Pill 2"];
     EvRequestRefresh]
  /\ _known_device_ids (self s')
     = {[ Some (inr "A"); Some (inr "B") ]}
       ∪ CoordinatorNotions.keys_of [device "C" "Pill 2"].
Proof.
  cbv zeta.
  destruct (proj2 (proj2 (CoordinatorFacts.discover_devices one_more
                            (polled [quiet; quiet] signed_in)))
              {| controllers := [device "A" "Controller"];
                 hydrometers := [device "B" "Pill"; device "C" "Pill 2"];
                 fermentation_chambers := []; brewzillas := [] |}
              (snd (get_all_devices one_more signed_in)) eq_refl)
    as (_ & _ & _ & _ & Hknown & _ & Hevents & _).
  { repeat constructor. }
  split.
  - apply Hevents; [discriminate | repeat constructor].
  - exact Hknown.
Defined.

(** Two fetched records carry the unknown id C; the callback is given the
    first of them only, so C5 as stated fails here. *)
Lemma second_record_is_left_out :
  let s := polled [quiet] signed_in in
  unknown_records
    [device "A" "Controller"; device "B" "Pill"; device "C" "Pill 2";
     device "C" "Chamber of Pill 2"]
    (_known_device_ids (self s))
  = [device "C" "Pill 2"; device "C" "Chamber of Pill 2"]
  /\ drop (length (trace (outside (snd (get_all_devices listed_twice signed_in)))))
          (trace (outside (api_client (snd (async_discover_devices listed_twice s)))))
     = [EvCallback 0 [device "C" "Pill 2"]; EvRequestRefresh]
  /\ ~ notifies_of_unknown_records listed_twice s.
Proof.
  cbv zeta.
  assert (Hunknown :
    unknown_records
      [device "A" "Controller"; device "B" "Pill"; device "C" "Pill 2";
       device "C" "Chamber of Pill 2"]
      (_known_device_ids (self (polled [quiet] signed_in)))
    = [device "C" "Pill 2"; device "C" "Chamber of Pill 2"])
    by (vm_compute; reflexivity).
  assert (Hevents :
    drop (length (trace (outside (snd (get_all_devices listed_twice signed_in)))))
         (trace (outside (api_client
                   (snd (async_discover_devices listed_twice
                           (polled [quiet] signed_in))))))
    = [EvCallback 0 [device "C" "Pill 2"]; EvRequestRefresh])
    by (vm_compute; reflexivity).
  split; [exact Hunknown | split; [exact Hevents |]].
  intros Hstated.
  specialize (Hstated
                {| controllers := [device "A" "Controller"];
                   hydrometers := [device "B" "Pill"; device "C" "Pill 2"];
                   fermentation_chambers := [device "C" "Chamber of Pill 2"];
                   brewzillas := [] |}
                (snd (get_all_devices listed_twice signed_in)) eq_refl).
  cbv zeta in Hstated.
  change (CoordinatorNotions.merged _)
    with [device "A" "Controller"; device "B" "Pill"; device "C" "Pill 2";
          device "C" "Chamber of Pill 2"] in Hstated.
  rewrite Hunknown, Hevents in Hstated.
  specialize (Hstated ltac:(discriminate)).
  discriminate Hstated.
Qed.

(** The first of two callbacks raises: the second is never called and no
    refresh is requested, though C is now a known device; C5 as stated
    fails here too. *)
Lemma raising_callback_ends_notification :
  let s := polled [failing; quiet] signed_in in
  let s' := snd (async_discover_devices one_more s) in
  fst (async_discover_devices one_more s) = Ok tt
  /\ drop (length (trace (outside (snd (get_all_devices one_more signed_in)))))
          (trace (outside (api_client s')))
     = [EvCallback 0 [device "C" "Pill 2"]]
  /\ Some (inr "C") ∈ _known_device_ids (self s')
  /\ ~ notifies_of_unknown_records one_more s.
Proof.
  cbv zeta.
  assert (Hevents :
    drop (length (trace (outside (snd (get_all_devices one_more signed_in)))))
         (trace (outside (api_client
                   (snd (async_discover_devices one_more
                           (polled [failing; quiet] signed_in))))))
    = [EvCallback 0 [device "C" "Pill 2"]])
    by (vm_compute; reflexivity).
  split; [vm_compute; reflexivity |].
  split; [exact Hevents |].
  split; [apply (bool_decide_unpack _); vm_compute; exact I |].
  intros Hstated.
  specialize (Hstated
                {| controllers := [device "A" "Controller"];
                   hydrometers := [device "B" "Pill"; device "C" "Pill 2"];
                   fermentation_chambers := []; brewzillas := [] |}
                (snd (get_all_devices one_more signed_in)) eq_refl).
  cbv zeta in Hstated.
  assert (Hunknown :
    unknown_records
      (merged {| controllers := [device "A" "Controller"];
                 hydrometers := [device "B" "Pill"; device "C" "Pill 2"];
                 fermentation_chambers := []; brewzillas := [] |})
      (_known_device_ids (self (polled [failing; quiet] signed_in)))
    = [device "C" "Pill 2"])
    by (vm_compute; reflexivity).
  rewrite Hunknown, Hevents in Hstated.
  specialize (Hstated ltac:(discriminate)).
  discriminate Hstated.
Qed.

(** C5 as stated fails on both inputs: a new id on two records, and a
    callback that raises. *)
Lemma discovery_is_not_as_stated :
  ~ notifies_of_unknown_records listed_twice (polled [quiet] signed_in)
  /\ ~ notifies_of_unknown_records one_more (polled [failing; quiet] signed_in).
Proof.
  split.
  - exact (proj2 (proj2 second_record_is_left_out)).
  - exact (proj2 (proj2 (proj2 raising_callback_ends_notification))).
Qed.

(** C9 at a concrete poll.  Two polls that succeed, one at [t0] and one ten
    minutes later, return the same snapshot: its [last_updated] is [true], the
    success flag the coordinator held before the poll, and holds no
    instant. *)
Theorem last_updated_is_not_a_timestamp :
  let E := script [ok_json (JList [device "A" "Controller"]);
                   ok_json (JList [device "B" "Pill"]);
                   ok_json (JList []); ok_json (JList [])] in
  let later :=
    {| client := client signed_in;
       outside := {| clock := t0 + seconds 600; calls := 0; sleeps := 0;
                     trace := [] |} |} in
  let snapshot :=
    {| snap_controllers := [device "A" "Controller"];
       snap_hydrometers := [device "B" "Pill"];
       snap_fermentation_chambers := [];
       snap_brewzillas := [];
       snap_devices := [device "A" "Controller"; device "B" "Pill"];
       last_updated := true |} in
  fst (_async_update_data E (polled [] signed_in)) = Ok snapshot
  /\ fst (_async_update_data E (polled [] later)) = Ok snapshot
  /\ last_updated snapshot = last_update_success (self (polled [] signed_in)).
Proof. cbv zeta. repeat split; vm_compute; reflexivity. Qed.

(** *** A chamber's sensor *)

(** The chamber's temperature sensor has no value and is unavailable,
    whatever the built-in conversions do. *)
Lemma chamber_sensor_is_unavailable :
  native_value Z (fun _ => None) (fun _ => None) (fun _ => "")
    with_chamber chamber_temperature = Ok None
  /\ available Z (fun _ => None) (fun _ => None) (fun _ => "")
       with_chamber chamber_temperature = Ok false.
Proof.
  refine (proj2 (SensorFacts.chamber_sensor_reads_hydrometers
                   Z (fun _ => None) (fun _ => None) (fun _ => "")
                   with_chamber chamber_temperature _ eq_refl _) _).
  - discriminate.
  - repeat constructor.
Defined.

(** The token endpoint sends [expires_in] as a string: the call raises
    [TypeError], and the client is left with a token and no expiry. *)
Lemma token_without_expiry :
  let E := script [ok_json (JObj [("access_token", JStr "T1");
                                  ("expires_in", JStr "2700")])] in
  fst (authenticate E fresh) = Raise TypeError
  /\ _bearer_token (client (snd (authenticate E fresh))) = Some (JStr "T1")
  /\ _token_expires_at (client (snd (authenticate E fresh))) = None.
Proof.
  cbv zeta.
  exact (ApiFacts.authenticate_malformed_expires_in
           (script [ok_json (JObj [("access_token", JStr "T1");
                                   ("expires_in", JStr "2700")])])
           fresh _ _ (JStr "T1") (JStr "2700") TypeError
           eq_refl eq_refl eq_refl eq_refl eq_refl).
Defined.

(** The scheduled poll sees A and B again: the known ids stay A and B, and
    the trace holds the four requests and no callback. *)
Lemma second_poll_discovers_nothing :
  let E := script [ok_json (JList [device "A" "Controller"]);
                   ok_json (JList [device "B" "Pill"]);
                   ok_json (JList []); ok_json (JList [])] in
  let s := polled [quiet] signed_in in
  _known_device_ids (self (snd (_async_update_data E s)))
  = _known_device_ids (self s)
    ∪ keys_of [device "A" "Controller"; device "B" "Pill"]
  /\ api_client (snd (_async_update_data E s)) = snd (get_all_devices E signed_in).
Proof.
  cbv zeta.
  destruct (CoordinatorFacts.poll_tracks_known_devices
              (script [ok_json (JList [device "A" "Controller"]);
                       ok_json (JList [device "B" "Pill"]);
                       ok_json (JList []); ok_json (JList [])])
              (polled [quiet] signed_in)
              {| controllers := [device "A" "Controller"];
                 hydrometers := [device "B" "Pill"];
                 fermentation_chambers := []; brewzillas := [] |}
              (snd (get_all_devices
                      (script [ok_json (JList [device "A" "Controller"]);
                               ok_json (JList [device "B" "Pill"]);
                               ok_json (JList []); ok_json (JList [])])
                      signed_in))
              eq_refl)
    as (_ & Hknown & _ & _ & Hapi).
  { repeat constructor. }
  split; [exact Hknown | exact Hapi].
Defined.

End ScenarioFacts.

(* ===================================================================== *)
(** * Further properties of the client *)
(* ===================================================================== *)

Module RequestFacts.

Import Api.
Import ApiNotions GateNotions RequestNotions.

(** X3.  A first response other than a 401 ends the call at once: exactly
    one request has been sent, nothing was re-authenticated, and the client
    object is as [enter_gate] left it.  A transport error is raised as a
    network error; a 200 gives the decoded body, or a format error when the
    body is not JSON; a 403, a 404, a status from 500 on and any other
    status each raise their own message, with the status and the body
    text. *)
Theorem first_response_decides E method url s s1 :
  enter_gate E s = (Ok tt, s1) ->
  let o := outcome (respond E (calls (outside s1))) in
  let r := _rate_limited_request E method url s in
  (forall status b, o = Response status b -> status <> 401 ->
      snd r = after_first_request E method url s1)
  /\ (forall msg, o = ClientError msg ->
      r = (Raise (RaptApiError ("Network error: " +:+ msg)),
           after_first_request E method url s1))
  /\ (forall b v, o = Response 200 b -> body_json b = Some v -> fst r = Ok v)
  /\ (forall b, o = Response 200 b -> body_json b = None ->
      fst r = Raise (RaptApiError "Invalid JSON response from API"))
  /\ (forall b, o = Response 403 b ->
      fst r = Raise (RaptApiError ("Access forbidden: " +:+ body_text b)))
  /\ (forall b, o = Response 404 b ->
      fst r = Raise (RaptApiError ("API endpoint not found: " +:+ body_text b)))
  /\ (forall status b, o = Response status b -> 500 <= status ->
      fst r = Raise (RaptApiError ("Server error: " +:+ pretty status +:+ " - "
                                   +:+ body_text b)))
  /\ (forall status b, o = Response status b ->
      status < 500 -> status <> 200 -> status <> 401 -> status <> 403 ->
      status <> 404 ->
      fst r = Raise (RaptApiError ("Request failed: " +:+ pretty status +:+ " - "
                                   +:+ body_text b))).
Proof.
  intros Hgate. cbv zeta.
  rewrite ApiFacts.rate_limited_request_unfold, Hgate.
  unfold send, after_first_request. api_unfold. simpl.
  repeat split.
  - intros status b -> H401. apply Z.eqb_neq in H401. rewrite H401.
    destruct (status =? 200); simpl.
    + unfold response_json. destruct (body_json b); reflexivity.
    + destruct (status =? 403); [reflexivity |].
      destruct (status =? 404); [reflexivity |].
      destruct (500 <=? status); reflexivity.
  - intros msg ->. reflexivity.
  - intros b v -> Hjson. simpl. unfold response_json. rewrite Hjson. reflexivity.
  - intros b -> Hjson. simpl. unfold response_json. rewrite Hjson. reflexivity.
  - intros b ->. reflexivity.
  - intros b ->. reflexivity.
  - intros status b -> Hge.
    assert (H401 : (status =? 401) = false) by (apply Z.eqb_neq; lia).
    assert (H200 : (status =? 200) = false) by (apply Z.eqb_neq; lia).
    assert (H403 : (status =? 403) = false) by (apply Z.eqb_neq; lia).
    assert (H404 : (status =? 404) = false) by (apply Z.eqb_neq; lia).
    assert (H500 : (500 <=? status) = true) by (apply Z.leb_le; lia).
    rewrite H401, H200. simpl. rewrite H403, H404, H500. reflexivity.
  - intros status b -> Hlt H200 H401 H403 H404.
    apply Z.eqb_neq in H200, H401, H403, H404.
    assert (H500 : (500 <=? status) = false) by (apply Z.leb_gt; lia).
    rewrite H401, H200. simpl. rewrite H403, H404, H500. reflexivity.
Qed.

(** ** The passage through the gate *)

Lemma enter_gate_unfold E s :
  enter_gate E s = _ensure_authenticated E (stamped E s).
Proof.
  unfold enter_gate, stamped. api_unfold. simpl.
  destruct (required_sleep _ _); reflexivity.
Qed.

Lemma stamped_clock E s : clock (outside (stamped E s)) = stamp_of E s.
Proof.
  unfold stamped, stamp_of. destruct (required_sleep _ _); reflexivity.
Qed.

Lemma stamp_not_before E s : clock (outside s) <= stamp_of E s.
Proof.
  unfold stamp_of.
  destruct (required_sleep _ _) as [d |] eqn:Hsleep; [| lia].
  apply GateFacts.required_sleep_some in Hsleep as (t & _ & -> & Hlt). lia.
Qed.

Lemma authenticate_client_frame E s :
  _username (client (snd (authenticate E s))) = _username (client s)
  /\ _api_secret (client (snd (authenticate E s))) = _api_secret (client s).
Proof.
  unfold authenticate. api_unfold. simpl.
  destruct (outcome (respond E (calls (outside s)))) as [msg | status b]; simpl;
    [auto |].
  destruct (status =? 400); [auto |].
  destruct (status =? 401); [auto |].
  destruct (status =? 200); simpl; [| auto].
  destruct (body_json b) as [token_data |]; simpl; [| auto].
  destruct (py_contains "access_token" token_data) as [[|] | e]; simpl; auto.
  destruct (py_getitem token_data "access_token") as [tok | e]; simpl; [| auto].
  destruct (py_get_default token_data "expires_in" (JNum 2700)) as [x | e]; simpl;
    [| auto].
  destruct (timedelta_seconds x) as [d | e]; simpl; [| auto].
  destruct (datetime_add _ d); auto.
Qed.

(** What [send] leaves alone, and which way it moves the world. *)
Lemma send_frame E method url s :
  let s' := snd (send E method url s) in
  _last_request_time (client s') = _last_request_time (client s)
  /\ clock (outside s) <= clock (outside s')
  /\ (calls (outside s) < calls (outside s'))%nat.
Proof.
  cbv zeta.
  destruct (outcome (respond E (calls (outside s)))) as [msg | status b] eqn:Hresp.
  - unfold send. api_unfold. simpl. rewrite Hresp. simpl. split; [auto | lia].
  - destruct (Z.eq_dec status 401) as [-> | Hne].
    + rewrite (ApiFacts.send_401 _ _ _ _ _ Hresp).
      pose proof (GateFacts.authenticate_keeps_last_request_time E
                    (after_first_request E method url s)) as Hkeep.
      pose proof (ApiFacts.authenticate_clock E
                    (after_first_request E method url s)) as Hclock.
      pose proof (ApiFacts.authenticate_calls E
                    (after_first_request E method url s)) as Hcalls.
      destruct (authenticate E (after_first_request E method url s))
        as [[[] | e] s3]; simpl in Hkeep, Hclock, Hcalls.
      * cbv zeta.
        destruct (outcome (respond E (calls (outside s3)))) as [msg | retry_status rb];
          simpl; [split; [auto | lia] |].
        destruct (retry_status =? 200); simpl; [| split; [auto | lia]].
        unfold response_json. destruct (body_json rb); simpl; split; auto; lia.
      * simpl. split; [auto | lia].
    + unfold send. api_unfold. simpl. rewrite Hresp.
      apply Z.eqb_neq in Hne. rewrite Hne.
      destruct (status =? 200); simpl.
      * unfold response_json. destruct (body_json b); simpl; split; auto; lia.
      * destruct (status =? 403); [simpl; split; [auto | lia] |].
        destruct (status =? 404); [simpl; split; [auto | lia] |].
        destruct (500 <=? status); simpl; split; auto; lia.
Qed.

(** The stamp a call leaves behind, whatever its outcome; the call returns
    no earlier than it stamped. *)
Lemma rate_limited_request_stamp E method url s :
  let s' := snd (_rate_limited_request E method url s) in
  _last_request_time (client s') = Some (stamp_of E s)
  /\ stamp_of E s <= clock (outside s').
Proof.
  cbv zeta. rewrite ApiFacts.rate_limited_request_unfold.
  pose proof (GateFacts.enter_gate_stamp E s) as Hstamp.
  assert (Hclock : stamp_of E s <= clock (outside (snd (enter_gate E s)))).
  { rewrite enter_gate_unfold, ApiFacts.ensure_authenticated_unfold,
      <- stamped_clock.
    destruct (token_missing_or_expired _ _); [| simpl; lia].
    apply ApiFacts.authenticate_clock. }
  destruct (enter_gate E s) as [[[] | e] s1]; simpl in *; [| auto].
  destruct (send_frame E method url s1) as (Hkeep & Hmono & _).
  rewrite Hkeep. split; [exact Hstamp | lia].
Qed.

(** X4.  Two calls in a row on one client are stamped at least 15 seconds
    apart, whatever the first call came to (a value, an error from the API,
    a failed sign-in) and whatever happened to the world in between, the
    clock set back included. *)
Theorem successive_requests_spaced E E' method url method' url' s w :
  let s1 := snd (_rate_limited_request E method url s) in
  let s2 := snd (_rate_limited_request E' method' url' (met_at w s1)) in
  exists t1 t2,
    _last_request_time (client s1) = Some t1
    /\ _last_request_time (client s2) = Some t2
    /\ t1 + seconds 15 <= t2
    /\ t2 <= clock (outside s2).
Proof.
  cbv zeta.
  destruct (rate_limited_request_stamp E method url s) as (H1 & _).
  destruct (rate_limited_request_stamp E' method' url'
              (met_at w (snd (_rate_limited_request E method url s)))) as (H2 & Hret).
  eexists _, _. split; [exact H1 |]. split; [exact H2 |]. split; [| exact Hret].
  apply GateFacts.enter_gate_spacing. exact H1.
Qed.

(** X5.  When the sign-in at the gate fails, the call raises that error
    without sending the request: the trace gains the sleep, if one was due,
    and the POST to the token endpoint, nothing else.  The call has stamped
    [_last_request_time] all the same, so the next one waits out the
    window. *)
Theorem failed_sign_in_sends_no_request E method url s e s1 :
  enter_gate E s = (Raise e, s1) ->
  _rate_limited_request E method url s = (Raise e, s1)
  /\ token_missing_or_expired (client s) (stamp_of E s) = true
  /\ authenticate E (stamped E s) = (Raise e, s1)
  /\ _last_request_time (client s1) = Some (stamp_of E s)
  /\ trace (outside s1) = trace (outside s) ++ waited s ++ [auth_post (client s)]
  /\ calls (outside s1) = S (calls (outside s)).
Proof.
  intros Hgate.
  split; [rewrite ApiFacts.rate_limited_request_unfold, Hgate; reflexivity |].
  pose proof (GateFacts.enter_gate_stamp E s) as Hstamp.
  rewrite Hgate in Hstamp. simpl in Hstamp.
  rewrite enter_gate_unfold, ApiFacts.ensure_authenticated_unfold, stamped_clock in Hgate.
  change (client (stamped E s)) with
    {| _username := _username (client s); _api_secret := _api_secret (client s);
       _bearer_token := _bearer_token (client s);
       _token_expires_at := _token_expires_at (client s);
       _last_request_time := Some (clock (outside (stamped E s))) |} in Hgate.
  unfold token_missing_or_expired in Hgate |- *. simpl in Hgate.
  destruct (match _bearer_token (client s) with
            | Some _ => match _token_expires_at (client s) with
                        | Some expires_at => expires_at <=? stamp_of E s
                        | None => true
                        end
            | None => true
            end) eqn:Hexpired; [| discriminate Hgate].
  split; [reflexivity |]. split; [exact Hgate |]. split; [exact Hstamp |].
  pose proof (ApiFacts.authenticate_trace E (stamped E s)) as Htrace.
  pose proof (ApiFacts.authenticate_calls E (stamped E s)) as Hcalls.
  rewrite Hgate in Htrace, Hcalls. simpl in Htrace, Hcalls.
  rewrite Htrace, Hcalls. unfold stamped, waited, auth_post. simpl.
  destruct (required_sleep _ _); simpl; rewrite <- ?app_assoc; auto.
Qed.

(** ** The four fetches in a row *)

Lemma enter_gate_calls E s :
  (calls (outside s) <= calls (outside (snd (enter_gate E s))))%nat.
Proof.
  rewrite enter_gate_unfold, ApiFacts.ensure_authenticated_unfold.
  assert (Hsame : calls (outside (stamped E s)) = calls (outside s)).
  { unfold stamped. simpl. destruct (required_sleep _ _); reflexivity. }
  destruct (token_missing_or_expired _ _); [| cbn [snd]; lia].
  rewrite ApiFacts.authenticate_calls. lia.
Qed.

Lemma fetch_ok_inv E url s l s' :
  fetch E url s = (Ok l, s') ->
  _last_request_time (client s') = Some (stamp_of E s)
  /\ stamp_of E s <= clock (outside s')
  /\ (calls (outside s) < calls (outside s'))%nat.
Proof.
  unfold fetch. rewrite ApiFacts.fetch_unfold. intros Hfetch.
  destruct (rate_limited_request_stamp E "GET" url s) as (Hstamp & Hclock).
  pose proof (enter_gate_calls E s) as Hcalls.
  rewrite ApiFacts.rate_limited_request_unfold in *.
  destruct (enter_gate E s) as [[[] | e] s1]; [| discriminate Hfetch].
  destruct (send_frame E "GET" url s1) as (_ & _ & Hsent).
  destruct (send E "GET" url s1) as [[data | e] s2]; [| discriminate Hfetch].
  injection Hfetch as _ <-. simpl in *. repeat split; auto. lia.
Qed.

Lemma get_all_devices_ok_inv E s all s' :
  get_all_devices E s = (Ok all, s') ->
  exists s1 s2 s3,
    fetch E (API_BASE_URL +:+ API_CONTROLLERS_ENDPOINT) s = (Ok (controllers all), s1)
    /\ fetch E (API_BASE_URL +:+ API_HYDROMETERS_ENDPOINT) s1
       = (Ok (hydrometers all), s2)
    /\ fetch E (API_BASE_URL +:+ API_FERMENTATION_CHAMBERS_ENDPOINT) s2
       = (Ok (fermentation_chambers all), s3)
    /\ fetch E (API_BASE_URL +:+ API_BREWZILLAS_ENDPOINT) s3
       = (Ok (brewzillas all), s').
Proof.
  unfold get_all_devices, get_all_controller_data, get_all_hydrometer_data,
    get_all_fermentation_chamber_data, get_all_brewzilla_data.
  change (get_temperature_controllers E)
    with (fetch E (API_BASE_URL +:+ API_CONTROLLERS_ENDPOINT)).
  change (get_hydrometers E)
    with (fetch E (API_BASE_URL +:+ API_HYDROMETERS_ENDPOINT)).
  change (get_fermentation_chambers E)
    with (fetch E (API_BASE_URL +:+ API_FERMENTATION_CHAMBERS_ENDPOINT)).
  change (get_brewzillas E)
    with (fetch E (API_BASE_URL +:+ API_BREWZILLAS_ENDPOINT)).
  co_unfold.
  destruct (fetch E (API_BASE_URL +:+ API_CONTROLLERS_ENDPOINT) s)
    as [[l1 | e] s1] eqn:H1; [| discriminate].
  destruct (fetch E (API_BASE_URL +:+ API_HYDROMETERS_ENDPOINT) s1)
    as [[l2 | e] s2] eqn:H2; [| discriminate].
  destruct (fetch E (API_BASE_URL +:+ API_FERMENTATION_CHAMBERS_ENDPOINT) s2)
    as [[l3 | e] s3] eqn:H3; [| discriminate].
  destruct (fetch E (API_BASE_URL +:+ API_BREWZILLAS_ENDPOINT) s3)
    as [[l4 | e] s4] eqn:H4; [| discriminate].
  intros [= <- <-]. exists s1, s2, s3. simpl. auto.
Qed.

(** X6.  A call of [get_all_devices] that returns has taken at least 45
    seconds: its four requests are stamped 15 seconds apart, the first no
    earlier than the call began.  It has made at least four network
    calls. *)
Theorem get_all_devices_takes_45_seconds E s all s' :
  get_all_devices E s = (Ok all, s') ->
  exists stamp,
    _last_request_time (client s') = Some stamp
    /\ clock (outside s) + seconds 45 <= stamp
    /\ stamp <= clock (outside s')
    /\ (calls (outside s) + 4 <= calls (outside s'))%nat.
Proof.
  intros (s1 & s2 & s3 & H1 & H2 & H3 & H4)%get_all_devices_ok_inv.
  apply fetch_ok_inv in H1 as (L1 & C1 & N1).
  apply fetch_ok_inv in H2 as (L2 & C2 & N2).
  apply fetch_ok_inv in H3 as (L3 & C3 & N3).
  apply fetch_ok_inv in H4 as (L4 & C4 & N4).
  pose proof (stamp_not_before E s) as B0.
  pose proof (GateFacts.enter_gate_spacing E s1 _ L1) as B1.
  pose proof (GateFacts.enter_gate_spacing E s2 _ L2) as B2.
  pose proof (GateFacts.enter_gate_spacing E s3 _ L3) as B3.
  exists (stamp_of E s3). unfold seconds, us_per_second in *.
  repeat split; auto; lia.
Qed.

(** ** How long a token lasts *)

(** X7.  After [authenticate] has returned, the token it stored is used
    as long as the clock is strictly before the expiry it stored, and from
    that instant on the next [_ensure_authenticated] signs in again.  A
    response whose [access_token] is [null] is accepted too, but then
    nothing counts as a token: every [_ensure_authenticated] signs in
    again. *)
Theorem token_lifetime E s s' :
  authenticate E s = (Ok tt, s') ->
  exists access_token expires_at,
    _bearer_token (client s') = py_optional access_token
    /\ _token_expires_at (client s') = Some expires_at
    /\ forall E' w,
        (access_token <> JNull -> clock w < expires_at ->
         _ensure_authenticated E' (met_at w s') = (Ok tt, met_at w s'))
        /\ (access_token = JNull \/ expires_at <= clock w ->
            _ensure_authenticated E' (met_at w s') = authenticate E' (met_at w s')).
Proof.
  intros (b & fields & access_token & expires_in & delta & _ & _ & _ & _ & _ & _
          & Hclient)%ApiFacts.authenticate_ok_inv.
  exists access_token, (clock (outside s') + delta).
  rewrite Hclient. simpl. split; [reflexivity |]. split; [reflexivity |].
  intros E' w. rewrite ApiFacts.ensure_authenticated_unfold.
  unfold met_at, token_missing_or_expired. simpl. rewrite Hclient. simpl. split.
  - intros Hnull Hbefore.
    destruct access_token; try contradiction; simpl;
      (destruct (_ <=? clock w) eqn:Hle; [apply Z.leb_le in Hle; lia | reflexivity]).
  - intros [-> | Hafter]; [reflexivity |].
    destruct (py_optional access_token); [| reflexivity].
    apply Z.leb_le in Hafter. rewrite Hafter. reflexivity.
Qed.

(** ** [validate_connection] *)

Lemma send_trace E method url s :
  trace (outside s) `prefix_of` trace (outside (snd (send E method url s))).
Proof.
  destruct (outcome (respond E (calls (outside s)))) as [msg | status b] eqn:Hresp.
  - unfold send. api_unfold. simpl. rewrite Hresp. simpl. eexists. reflexivity.
  - destruct (Z.eq_dec status 401) as [-> | Hne].
    + rewrite (ApiFacts.send_401 _ _ _ _ _ Hresp).
      pose proof (ApiFacts.authenticate_trace E
                    (after_first_request E method url s)) as Htrace.
      destruct (authenticate E (after_first_request E method url s))
        as [[[] | e] s3]; simpl in Htrace.
      * cbv zeta.
        destruct (outcome (respond E (calls (outside s3)))) as [msg | retry_status rb];
          simpl; [rewrite Htrace, <- !app_assoc; eexists; reflexivity |].
        destruct (retry_status =? 200); simpl;
          [| rewrite Htrace, <- !app_assoc; eexists; reflexivity].
        unfold response_json. destruct (body_json rb); simpl;
          rewrite Htrace, <- !app_assoc; eexists; reflexivity.
      * simpl. rewrite Htrace, <- !app_assoc. eexists. reflexivity.
    + unfold send. api_unfold. simpl. rewrite Hresp.
      apply Z.eqb_neq in Hne. rewrite Hne.
      destruct (status =? 200); simpl.
      * unfold response_json. destruct (body_json b); simpl; eexists; reflexivity.
      * destruct (status =? 403); [simpl; eexists; reflexivity |].
        destruct (status =? 404); [simpl; eexists; reflexivity |].
        destruct (500 <=? status); simpl; eexists; reflexivity.
Qed.

Lemma rate_limited_request_trace E method url s :
  trace (outside s)
  `prefix_of` trace (outside (snd (_rate_limited_request E method url s))).
Proof.
  rewrite ApiFacts.rate_limited_request_unfold.
  assert (Hgate : trace (outside s) `prefix_of` trace (outside (snd (enter_gate E s)))).
  { rewrite enter_gate_unfold, ApiFacts.ensure_authenticated_unfold.
    assert (Hst : trace (outside s) `prefix_of` trace (outside (stamped E s))).
    { unfold stamped. simpl. destruct (required_sleep _ _); simpl;
        [eexists; reflexivity | reflexivity]. }
    destruct (token_missing_or_expired _ _); [| exact Hst].
    etrans; [exact Hst |]. rewrite ApiFacts.authenticate_trace.
    eexists. reflexivity. }
  destruct (enter_gate E s) as [[[] | e] s1]; simpl in *; [| exact Hgate].
  etrans; [exact Hgate | apply send_trace].
Qed.

(** X8.  [validate_connection] never raises.  It answers [True] exactly
    when [authenticate] and then the fetch of the controllers both return,
    and [False] as soon as [authenticate] raises, the fetch then not being
    tried.  It signs in anew even on a client that holds a valid token: the
    first thing it does is the POST to the token endpoint. *)
Theorem validate_connection_answers E s :
  exists answer,
    fst (validate_connection E s) = Ok answer
    /\ (answer = true
        <-> exists s1 l s2,
              authenticate E s = (Ok tt, s1)
              /\ get_temperature_controllers E s1 = (Ok l, s2))
    /\ (forall e s1,
          authenticate E s = (Raise e, s1) ->
          validate_connection E s = (Ok false, s1))
    /\ exists rest,
         added (validate_connection E) s = auth_post (client s) :: rest.
Proof.
  unfold validate_connection, added. co_unfold.
  pose proof (ApiFacts.authenticate_trace E s) as Htrace.
  destruct (authenticate E s) as [[[] | e] s1] eqn:Hauth; simpl in Htrace.
  - assert (Hpre : trace (outside s1)
                   `prefix_of` trace (outside (snd (get_temperature_controllers E s1)))).
    { change (get_temperature_controllers E)
        with (fetch E (API_BASE_URL +:+ API_CONTROLLERS_ENDPOINT)).
      unfold fetch. rewrite ApiFacts.fetch_unfold.
      pose proof (rate_limited_request_trace E "GET"
                    (API_BASE_URL +:+ API_CONTROLLERS_ENDPOINT) s1) as Hreq.
      destruct (_rate_limited_request E "GET" _ s1) as [[data | e] s2]; exact Hreq. }
    destruct Hpre as (evs & Hevs). rewrite Htrace in Hevs.
    destruct (get_temperature_controllers E s1) as [[l | e] s2] eqn:Hfetch;
      simpl in Hevs |- *.
    + exists true. split; [reflexivity |]. split.
      { split; [intros _; exists s1, l, s2; auto | reflexivity]. }
      split; [intros e s1' [=] |].
      exists evs. rewrite Hevs, <- app_assoc, drop_app_length. reflexivity.
    + exists false. split; [reflexivity |]. split.
      { split; [discriminate |].
        intros (s1' & l & s2' & [= <-] & Hok). rewrite Hfetch in Hok.
        discriminate Hok. }
      split; [intros e' s1' [=] |].
      exists evs. rewrite Hevs, <- app_assoc, drop_app_length. reflexivity.
  - exists false. split; [reflexivity |]. split.
    { split; [discriminate | intros (s1' & l & s2' & [=] & _)]. }
    split; [intros e' s1' [= <- <-]; reflexivity |].
    exists []. simpl. rewrite Htrace, drop_app_length. reflexivity.
Qed.

(** ** The spacing of the stamps *)

(** C1, as the code has it.  What is spaced is the stamps: the instants the
    calls write to [_last_request_time], inside the gate, after the sleep
    and before the sign-in and the request.
    - Any number of callers use [_rate_limited_request] on one client,
      interleaved in any order, the clock moving forward between their
      steps and a sleep returning no earlier than asked: the stamps are
      pairwise at least 15 seconds apart, and no two callers are ever past
      the lock together, from the spacing check to the end of the request.
    - The code's own passage through the gate, [enter_gate], is a run of
      that model: it leaves the same stamp, with the lock held.
    - The stamp of a call is what [_last_request_time] holds after it, and
      the call sends its request no earlier than it stamped.
    - Two calls in a row on one client stamp at least 15 seconds apart,
      whatever the first came to.
    Nothing is said of the instants the requests themselves begin: the
    sign-in comes between the stamp and the request, and the retry after a
    401 is sent without a new wait. *)
Theorem request_stamps_spaced callers t0 schedule g :
  Gate.run schedule (Gate.init callers t0) = Some g ->
  (forall k earlier later,
      Gate.starts g !! k = Some later -> Gate.starts g !! S k = Some earlier ->
      earlier + seconds 15 <= later)
  /\ (forall i j p q,
        Gate.tasks g !! i = Some p -> Gate.tasks g !! j = Some q ->
        Gate.in_gate p = true -> Gate.in_gate q = true -> i = j)
  /\ Gate._last_request_time g = head (Gate.starts g)
  /\ (forall E s stamps,
        exists g',
          Gate.run (lone_pass E s) (gate_view s stamps) = Some g'
          /\ Gate._last_request_time g'
             = _last_request_time (client (snd (enter_gate E s)))
          /\ Gate.starts g' = stamp_of E s :: stamps
          /\ Gate.locked g' = true /\ Gate.tasks g' = [Gate.InFlight])
  /\ (forall E method url s,
        _last_request_time (client (snd (enter_gate E s))) = Some (stamp_of E s)
        /\ stamp_of E s <= clock (outside (snd (enter_gate E s)))
        /\ _last_request_time (client (snd (_rate_limited_request E method url s)))
           = Some (stamp_of E s))
  /\ (forall E E' method url method' url' s w,
        let s1 := snd (_rate_limited_request E method url s) in
        let s2 := snd (_rate_limited_request E' method' url' (met_at w s1)) in
        exists t1 t2,
          _last_request_time (client s1) = Some t1
          /\ _last_request_time (client s2) = Some t2
          /\ t1 + seconds 15 <= t2).
Proof.
  intros Hrun.
  destruct (GateFacts.gate_stamps_spaced _ _ _ _ Hrun) as (Hspaced & Halone & Hlast).
  split; [exact Hspaced |]. split; [exact Halone |]. split; [exact Hlast |].
  split; [intros E s stamps; apply GateFacts.enter_gate_is_a_gate_run |].
  split.
  - intros E method url s.
    split; [apply GateFacts.enter_gate_stamp |].
    split; [| apply rate_limited_request_stamp].
    rewrite enter_gate_unfold, ApiFacts.ensure_authenticated_unfold, <- stamped_clock.
    destruct (token_missing_or_expired _ _); [| cbn [snd]; lia].
    apply ApiFacts.authenticate_clock.
  - intros E E' method url method' url' s w. cbv zeta.
    destruct (rate_limited_request_stamp E method url s) as (H1 & _).
    destruct (rate_limited_request_stamp E' method' url'
                (met_at w (snd (_rate_limited_request E method url s)))) as (H2 & _).
    eexists _, _. split; [exact H1 |]. split; [exact H2 |].
    apply GateFacts.enter_gate_spacing. exact H1.
Qed.

End RequestFacts.

(* ===================================================================== *)
(** * Further properties of the coordinator *)
(* ===================================================================== *)

Module PollFacts.

Import Coordinator.
Import CoordinatorNotions PollNotions.

Local Ltac coord_unfold := CoordinatorFacts.coord_unfold.

(** ** The known-device set only grows *)

Lemma known_add_grows v s :
  _known_device_ids (self s) ⊆ _known_device_ids (self (snd (known_add v s))).
Proof.
  unfold known_add. coord_unfold. simpl.
  destruct (hashable v); simpl; set_solver.
Qed.

Lemma track_each_grows devices s :
  _known_device_ids (self s) ⊆ _known_device_ids (self (snd (track_each devices s))).
Proof.
  revert s. induction devices as [| device rest IH]; intros s; simpl.
  - reflexivity.
  - co_unfold. simpl.
    destruct (py_get device "id") as [[v |] | e]; simpl; [| apply IH | reflexivity].
    destruct (truthy v); [| apply IH].
    pose proof (known_add_grows v s) as Hadd.
    destruct (known_add v s) as [[[] | e] s1]; simpl in *; [| exact Hadd].
    etrans; [exact Hadd | apply IH].
Qed.

Lemma discover_each_frame devices acc s :
  same_but_known s (snd (discover_each devices acc s))
  /\ _known_device_ids (self s)
     ⊆ _known_device_ids (self (snd (discover_each devices acc s))).
Proof.
  revert acc s. induction devices as [| device rest IH]; intros acc s; simpl.
  - split; [apply CoordinatorFacts.same_but_known_refl | reflexivity].
  - co_unfold. simpl.
    destruct (py_get device "id") as [[v |] | e]; simpl;
      [| apply IH | split; [apply CoordinatorFacts.same_but_known_refl | reflexivity]].
    destruct (truthy v); [| apply IH].
    destruct (hashable v) as [k | e] eqn:Hhash; simpl;
      [| split; [apply CoordinatorFacts.same_but_known_refl | reflexivity]].
    destruct (decide (k ∈ _known_device_ids (self s))); [apply IH |].
    pose proof (CoordinatorFacts.known_add_frame v s) as Hframe.
    pose proof (known_add_grows v s) as Hgrows.
    destruct (known_add v s) as [[[] | e] s1]; simpl in *; [| auto].
    destruct (IH (acc ++ [device]) s1) as (IHframe & IHgrows).
    split; [eapply CoordinatorFacts.same_but_known_trans; eauto |].
    etrans; eauto.
Qed.

Lemma notify_frame_self callbacks new_devices first s :
  self (snd (notify callbacks first new_devices s)) = self s.
Proof.
  destruct (CoordinatorFacts.notify_frame callbacks new_devices first s) as (n & ->).
  reflexivity.
Qed.

Lemma same_but_known_fields s s' :
  same_but_known s s' ->
  data (self s') = data (self s)
  /\ last_update_success (self s') = last_update_success (self s)
  /\ _devices (self s') = _devices (self s)
  /\ _discovery_callbacks (self s') = _discovery_callbacks (self s)
  /\ api_client s' = api_client s.
Proof. unfold same_but_known, with_known. intros ->. simpl. auto. Qed.

(** X9.  Neither a poll nor a discovery ever takes an id out of the
    known-device set, whatever they come to, and neither touches the list
    of registered callbacks.  A discovery leaves [_devices] as it was: the
    devices it has just made known are on that list only after a later
    poll. *)
Theorem known_devices_are_never_forgotten E s :
  let polled := snd (_async_update_data E s) in
  let discovered := snd (async_discover_devices E s) in
  _known_device_ids (self s) ⊆ _known_device_ids (self polled)
  /\ _known_device_ids (self s) ⊆ _known_device_ids (self discovered)
  /\ _discovery_callbacks (self polled) = _discovery_callbacks (self s)
  /\ _discovery_callbacks (self discovered) = _discovery_callbacks (self s)
  /\ _devices (self discovered) = _devices (self s)
  /\ data (self discovered) = data (self s).
Proof.
  cbv zeta.
  rewrite CoordinatorFacts.update_data_unfold, CoordinatorFacts.discover_unfold.
  destruct (Api.get_all_devices E (api_client s)) as [[all | e] a']; simpl;
    [| repeat split; reflexivity].
  set (s1 := {| self := self s; api_client := a' |}).
  pose proof (track_each_grows (merged all) s1) as Htrack.
  pose proof (CoordinatorFacts.track_each_frame (merged all) s1) as Hframe.
  apply same_but_known_fields in Hframe as (_ & _ & _ & Hcb & _).
  destruct (discover_each_frame (merged all) [] s1) as (Hdframe & Hdgrows).
  apply same_but_known_fields in Hdframe as (Hddata & _ & Hddev & Hdcb & _).
  split; [destruct (track_each _ _) as [[[] | e'] s2]; exact Htrack |].
  assert (Hdisc :
    forall s', _known_device_ids (self s1) ⊆ _known_device_ids (self s') ->
               _known_device_ids (self s) ⊆ _known_device_ids (self s')) by auto.
  destruct (discover_each (merged all) [] s1) as [[[| d new_devices] | e] s2];
    simpl in *.
  - split; [exact Hdgrows |].
    split; [destruct (track_each _ _) as [[[] | e'] s3]; exact Hcb |]. auto.
  - pose proof (notify_frame_self (_discovery_callbacks (self s2))
                  (d :: new_devices) 0 s2) as Hself.
    split; [destruct (notify _ _ _ _) as [[[] | e'] s3]; simpl in *;
            rewrite Hself; exact Hdgrows |].
    split; [destruct (track_each _ _) as [[[] | e'] s3]; exact Hcb |].
    destruct (notify _ _ _ _) as [[[] | e'] s3]; simpl in *; rewrite Hself; auto.
  - split; [exact Hdgrows |].
    split; [destruct (track_each _ _) as [[[] | e'] s3]; exact Hcb |]. auto.
Qed.

Lemma first_seen_known devices known :
  keys_of devices ⊆ known -> first_seen devices known = [].
Proof.
  induction devices as [| device rest IH]; intros Hsub; simpl; [reflexivity |].
  destruct (device_key device) as [k |] eqn:Hkey.
  - rewrite (CoordinatorFacts.keys_of_cons_some _ _ _ Hkey) in Hsub.
    destruct (decide (k ∈ known)) as [Hin | Hout]; [| set_solver].
    apply IH. set_solver.
  - apply IH. unfold keys_of in *. simpl in Hsub. rewrite Hkey in Hsub. exact Hsub.
Qed.

(** ** A record the loops cannot go through *)

Lemma loop_error_untrackable device :
  trackable device = false <-> is_Some (loop_error device).
Proof.
  unfold trackable, loop_error.
  destruct (py_get device "id") as [[v |] | e]; simpl.
  - destruct (truthy v); [destruct (hashable v) |];
      split; try discriminate; eauto; intros [? [=]].
  - split; [discriminate | intros [? [=]]].
  - split; eauto.
Qed.






(** ** A discovery after a poll *)

(** X12.  What a poll has fetched, a discovery does not report: when the
    records a discovery fetches carry only ids that were known before the
    last successful poll or were fetched by it, no callback is called; the
    discovery only requests a refresh.  A device is announced to the
    callbacks only if a discovery meets it before a poll does. *)
Theorem discovery_after_a_poll_is_silent E E' s all a1 all' a2 :
  Api.get_all_devices E (api_client s) = (Ok all, a1) ->
  Forall (fun d => trackable d = true) (merged all) ->
  Api.get_all_devices E' a1 = (Ok all', a2) ->
  Forall (fun d => trackable d = true) (merged all') ->
  keys_of (merged all') ⊆ _known_device_ids (self s) ∪ keys_of (merged all) ->
  let s1 := snd (_async_update_data E s) in
  let s2 := snd (async_discover_devices E' s1) in
  drop (length (trace (Api.outside a2))) (trace (Api.outside (api_client s2)))
  = [EvRequestRefresh]
  /\ _known_device_ids (self s2) = _known_device_ids (self s1)
  /\ _devices (self s2) = merged all.
Proof.
  intros Hfetch Htrack Hfetch' Htrack' Hsub. cbv zeta.
  rewrite CoordinatorFacts.update_data_unfold, Hfetch. cbv zeta.
  rewrite (CoordinatorFacts.track_each_run _ Htrack). simpl.
  rewrite CoordinatorFacts.discover_unfold. simpl. rewrite Hfetch'. cbv zeta.
  rewrite (CoordinatorFacts.discover_each_run _ Htrack'). simpl.
  rewrite (first_seen_known _ _ Hsub). simpl.
  rewrite drop_app_length. repeat split.
  unfold keys_of. simpl. set_solver.
Qed.

(** ** One fetch fails *)

Lemma get_all_devices_unfold E s :
  Api.get_all_devices E s
  = match RequestNotions.fetch E (API_BASE_URL +:+ API_CONTROLLERS_ENDPOINT) s with
    | (Raise e, s1) => (Raise e, s1)
    | (Ok l1, s1) =>
    match RequestNotions.fetch E (API_BASE_URL +:+ API_HYDROMETERS_ENDPOINT) s1 with
    | (Raise e, s2) => (Raise e, s2)
    | (Ok l2, s2) =>
    match RequestNotions.fetch E (API_BASE_URL +:+ API_FERMENTATION_CHAMBERS_ENDPOINT) s2 with
    | (Raise e, s3) => (Raise e, s3)
    | (Ok l3, s3) =>
    match RequestNotions.fetch E (API_BASE_URL +:+ API_BREWZILLAS_ENDPOINT) s3 with
    | (Raise e, s4) => (Raise e, s4)
    | (Ok l4, s4) =>
        (Ok {| Api.controllers := l1; Api.hydrometers := l2;
               Api.fermentation_chambers := l3; Api.brewzillas := l4 |}, s4)
    end end end end.
Proof.
  unfold Api.get_all_devices, Api.get_all_controller_data,
    Api.get_all_hydrometer_data, Api.get_all_fermentation_chamber_data,
    Api.get_all_brewzilla_data.
  change (Api.get_temperature_controllers E)
    with (RequestNotions.fetch E (API_BASE_URL +:+ API_CONTROLLERS_ENDPOINT)).
  change (Api.get_hydrometers E)
    with (RequestNotions.fetch E (API_BASE_URL +:+ API_HYDROMETERS_ENDPOINT)).
  change (Api.get_fermentation_chambers E)
    with (RequestNotions.fetch E (API_BASE_URL +:+ API_FERMENTATION_CHAMBERS_ENDPOINT)).
  change (Api.get_brewzillas E)
    with (RequestNotions.fetch E (API_BASE_URL +:+ API_BREWZILLAS_ENDPOINT)).
  co_unfold.
  repeat match goal with
         | |- context [RequestNotions.fetch E ?url ?s0] =>
             destruct (RequestNotions.fetch E url s0) as [[? | ?] ?]
         end; reflexivity.
Qed.

(** X13.  [get_all_devices] is all or nothing.  It raises exactly when one
    of its four fetches raises, taken in the order controllers,
    hydrometers, fermentation chambers, BrewZillas: the error is that of
    the first fetch to fail and the state is the one that fetch leaves, so
    the endpoints after it are not requested and what was fetched before it
    is dropped.  A poll then fails with that error wrapped, and a discovery
    returns having done nothing else. *)
Theorem get_all_devices_fails_with_its_first_failure E s e a' :
  (Api.get_all_devices E (api_client s) = (Raise e, a')
   <-> first_failure E endpoints (api_client s) = Some (e, a'))
  /\ (first_failure E endpoints (api_client s) = Some (e, a') ->
      _async_update_data E s
      = (Raise (UpdateFailed (update_failed_prefix e) e),
         {| self := self s; api_client := a' |})
      /\ async_discover_devices E s
         = (Ok tt, {| self := self s; api_client := a' |})).
Proof.
  assert (Hiff : Api.get_all_devices E (api_client s) = (Raise e, a')
                 <-> first_failure E endpoints (api_client s) = Some (e, a')).
  { rewrite get_all_devices_unfold. unfold endpoints, first_failure.
    repeat match goal with
           | |- context [RequestNotions.fetch E ?url ?s0] =>
               destruct (RequestNotions.fetch E url s0) as [[? | ?] ?]
           end;
      split; intros [=]; subst; reflexivity. }
  split; [exact Hiff |].
  intros Hfetch%Hiff.
  rewrite CoordinatorFacts.update_data_unfold, CoordinatorFacts.discover_unfold, Hfetch.
  split; reflexivity.
Qed.

End PollFacts.

(* ===================================================================== *)
(** * Further properties of the sensors *)
(* ===================================================================== *)

Module LookupFacts.

Import Coordinator Sensor.

Section WithBuiltins.

Variable py_float : Type.
Variable float_of_str : string -> option py_float.
Variable int_of_str : string -> option Z.
Variable str_of : json -> string.

Local Abbreviation read_sensor := (read_sensor py_float float_of_str int_of_str str_of).
Local Abbreviation _parse_value := (_parse_value py_float float_of_str int_of_str str_of).

(** X14.  Where the value of a sensor is looked up on a device record.  A
    field of the record itself wins, whatever the telemetry holds: if it
    is [null], the sensor has no value.  Failing that, the first entry of
    [telemetry] is looked at and no other.  A record with no [telemetry],
    an empty one or one that is not a list gives no value. *)
Theorem value_lookup_order sensor_key fields :
  let read := read_sensor sensor_key (JObj fields) in
  (forall v, assoc sensor_key fields = Some v -> read = Ok (_parse_value v))
  /\ (assoc sensor_key fields = Some JNull -> read = Ok None)
  /\ (forall latest older,
        assoc sensor_key fields = None ->
        assoc "telemetry" fields = Some (JList (JObj latest :: older)) ->
        read = Ok (v ← assoc sensor_key latest; _parse_value v))
  /\ (forall telemetry,
        assoc sensor_key fields = None ->
        assoc "telemetry" fields = telemetry ->
        telemetry = None \/ telemetry = Some (JList [])
        \/ (exists v, telemetry = Some v /\ as_list v = None) ->
        read = Ok None).
Proof.
  cbv zeta. unfold Sensor.read_sensor. simpl. repeat split.
  - intros v ->. reflexivity.
  - intros ->. reflexivity.
  - intros latest older -> ->. simpl.
    destruct (assoc sensor_key latest); reflexivity.
  - intros telemetry -> <- [-> | [-> | (v & -> & Hlist)]]; try reflexivity.
    destruct v; try reflexivity. discriminate Hlist.
Qed.

(** X15.  The set-up creates a sensor for a key exactly where the value
    lookup gets to a value: when [_sensor_data_available] answers [False]
    for a record, reading the key on that record gives nothing; when it
    answers [True], the read parses a value it found (which may still be
    [null]), unless the first telemetry entry is a string or a list in
    which the key occurs, and then the read raises; when it raises, so
    does the read. *)
Theorem sensor_created_where_value_found sensor_key fields :
  let device := JObj fields in
  match Platform._sensor_data_available device sensor_key with
  | Ok false => read_sensor sensor_key device = Ok None
  | Ok true =>
      (exists v, read_sensor sensor_key device = Ok (_parse_value v))
      \/ (read_sensor sensor_key device = Raise TypeError
          /\ exists latest older,
               assoc "telemetry" fields = Some (JList (latest :: older))
               /\ match latest with JStr _ | JList _ => True | _ => False end)
  | Raise e => read_sensor sensor_key device = Raise e
  end.
Proof.
  cbv zeta. unfold Platform._sensor_data_available, Sensor.read_sensor.
  unfold mbind, Platform.result_bind. simpl.
  destruct (assoc sensor_key fields) as [v |]; [left; eauto |].
  destruct (assoc "telemetry" fields) as [telemetry |]; [| reflexivity].
  destruct telemetry as [| | | | [| latest older] |]; try reflexivity.
  destruct latest as [| | | s | l | latest]; simpl; try reflexivity.
  - destruct (is_substring sensor_key s); [| reflexivity].
    right. split; [reflexivity |]. eexists _, _. split; [reflexivity | exact I].
  - destruct (existsb (is_str sensor_key) l); [| reflexivity].
    right. split; [reflexivity |]. eexists _, _. split; [reflexivity | exact I].
  - destruct (assoc sensor_key latest) as [v |]; [left; eauto | reflexivity].
Qed.

End WithBuiltins.

End LookupFacts.

(* ===================================================================== *)
(** * Properties of the platform set-up *)
(* ===================================================================== *)

Module PlatformFacts.

Import Coordinator Platform PlatformNotions.

Ltac result_unfold := unfold mbind, mret, result_bind, result_ret in *.

#[local] Arguments append_sensors : simpl never.

Section WithBuiltins.

Variable str_of : json -> string.

Local Abbreviation category_sensors := (category_sensors str_of).
Local Abbreviation async_setup_entry := (async_setup_entry str_of).
Local Abbreviation discovered_sensors := (discovered_sensors str_of).
Local Abbreviation async_discovery_callback := (async_discovery_callback str_of).

(** ** An id that cannot be used *)

Lemma unusable_raises label descriptions device_type device rest entities :
  unusable device = true ->
  exists e,
    category_sensors label descriptions device_type (device :: rest) entities = Raise e.
Proof.
  unfold unusable. simpl. unfold Api.py_get_default, default_name. result_unfold.
  destruct device as [| | | | | fields]; simpl; eauto.
  destruct (assoc "id" fields) as [[] |]; simpl; try discriminate; eauto.
Qed.

Lemma category_sensors_raises label descriptions device_type devices device :
  device ∈ devices -> unusable device = true ->
  forall entities,
    exists e, category_sensors label descriptions device_type devices entities = Raise e.
Proof.
  intros Hin Hbad. induction Hin as [device rest | device other rest Hin IH];
    intros entities.
  - apply unusable_raises. exact Hbad.
  - simpl. result_unfold.
    destruct (Api.py_get_default other "id" _) as [device_id | e]; eauto.
    destruct (default_name _ _ _) as [name | e]; eauto.
    destruct (Api.py_get_default other "name" _) as [device_name | e]; eauto.
    destruct (append_sensors _ _ _ _ _ _) as [entities' | e]; eauto.
Qed.

(** X16.  One record the set-up cannot take an id from (a record that is
    not an object, or whose id is [null], a number, a [bool] or an object)
    in any of the four categories, and [async_setup_entry] raises: no
    sensor is added, for that device or any other. *)
Theorem one_unusable_record_fails_the_set_up d device :
  device ∈ snap_controllers d ++ snap_hydrometers d
           ++ snap_fermentation_chambers d ++ snap_brewzillas d ->
  unusable device = true ->
  exists e, async_setup_entry (Some d) = Raise e.
Proof.
  intros Hin Hbad. unfold Platform.async_setup_entry. result_unfold.
  rewrite !elem_of_app in Hin.
  destruct Hin as [Hin | Hin].
  { destruct (category_sensors_raises "RAPT Controller " CONTROLLER_SENSOR_DESCRIPTIONS
                "TemperatureController" _ _ Hin Hbad []) as (e & ->). eauto. }
  destruct (category_sensors _ _ _ (snap_controllers d) _) as [e1 | e]; eauto.
  destruct Hin as [Hin | Hin].
  { destruct (category_sensors_raises "RAPT Hydrometer " HYDROMETER_SENSOR_DESCRIPTIONS
                "Hydrometer" _ _ Hin Hbad e1) as (e & ->). eauto. }
  destruct (category_sensors _ _ _ (snap_hydrometers d) _) as [e2 | e]; eauto.
  destruct Hin as [Hin | Hin].
  { destruct (category_sensors_raises "RAPT Chamber "
                FERMENTATION_CHAMBER_SENSOR_DESCRIPTIONS
                "FermentationChamber" _ _ Hin Hbad e2) as (e & ->). eauto. }
  destruct (category_sensors _ _ _ (snap_fermentation_chambers d) _) as [e3 | e]; eauto.
  apply category_sensors_raises with (device := device); assumption.
Qed.

(** ** Devices the discovery callback passes over *)

Lemma discovered_sensors_skip fields rest new_entities :
  recognised (JObj fields) = false ->
  discovered_sensors (JObj fields :: rest) new_entities
  = discovered_sensors rest new_entities.
Proof.
  unfold recognised. simpl. unfold Api.py_get_default. result_unfold. simpl.
  destruct (assoc "id" fields) as [device_id |];
    (destruct (assoc "deviceType" fields) as [[| | | t | |] |]; simpl; try reflexivity;
     intros Hno; apply orb_false_elim in Hno as [Hno H4];
     apply orb_false_elim in Hno as [Hno H3];
     apply orb_false_elim in Hno as [H1 H2];
     rewrite H1, H2, H3, H4; reflexivity).
Qed.

(** X17.  The discovery callback acts on a new device only if its record
    says, under [deviceType], that it is a temperature controller, a
    hydrometer, a fermentation chamber or a BrewZilla.  Any other record
    is passed over, whatever its id: the callback makes the sensors it
    would make without it, and when no new device is of a recognised type
    it adds no entity at all. *)
Theorem discovery_callback_passes_over_other_types new_devices :
  Forall (fun device => is_object device = true) new_devices ->
  async_discovery_callback new_devices
  = async_discovery_callback (List.filter recognised new_devices)
  /\ (Forall (fun device => recognised device = false) new_devices ->
      async_discovery_callback new_devices = Ok []).
Proof.
  unfold Platform.async_discovery_callback. generalize (@nil entity) as new_entities.
  intros new_entities Hobj.
  assert (Hfilter : forall acc,
             discovered_sensors new_devices acc
             = discovered_sensors (List.filter recognised new_devices) acc).
  { induction Hobj as [| device rest Hdev Hrest IH]; intros acc; [reflexivity |].
    destruct device as [| | | | | fields]; try discriminate Hdev.
    cbn [List.filter].
    destruct (recognised (JObj fields)) eqn:Hrec.
    - simpl. result_unfold.
      destruct (Api.py_get_default (JObj fields) "id" _) as [device_id | e];
        [| reflexivity].
      destruct (Api.py_get_default (JObj fields) "deviceType" _) as [device_type | e];
        [| reflexivity].
      repeat match goal with
             | |- context [is_str ?t device_type] => destruct (is_str t device_type)
             end;
        try apply IH;
        (destruct (default_name _ _ _) as [name | e]; [| reflexivity];
         destruct (Api.py_get_default (JObj fields) "name" _) as [device_name | e];
           [| reflexivity];
         destruct (append_sensors _ _ _ _ _ _) as [entities' | e]; [| reflexivity];
         apply IH).
    - rewrite (discovered_sensors_skip _ _ _ Hrec). apply IH. }
  split; [apply Hfilter |].
  intros Hnone. rewrite Hfilter.
  replace (List.filter recognised new_devices) with (@nil json); [reflexivity |].
  clear Hfilter Hobj. induction Hnone as [| device rest Hdev Hrest IH]; [reflexivity |].
  simpl. rewrite Hdev. exact IH.
Qed.

(** ** The sensors the set-up makes *)

Lemma sensor_data_available_regular device description :
  regular device = true ->
  _sensor_data_available device (key description) = Ok (has_data device description).
Proof.
  unfold regular, has_data, _sensor_data_available. result_unfold.
  destruct device as [| | | | | fields]; try discriminate. simpl.
  intros [_ Htel]%andb_prop.
  destruct (assoc (key description) fields); [reflexivity |].
  destruct (assoc "telemetry" fields) as [[| | | | [| [] older] |] |];
    try discriminate Htel; reflexivity.
Qed.

Lemma append_sensors_cons description rest device device_id device_name device_type
    entities :
  append_sensors (description :: rest) device device_id device_name device_type entities
  = match _sensor_data_available device (key description) with
    | Ok true =>
        match new_sensor description device_id device_name device_type with
        | Ok sensor =>
            append_sensors rest device device_id device_name device_type
                           (entities ++ [sensor])
        | Raise e => Raise e
        end
    | Ok false =>
        append_sensors rest device device_id device_name device_type entities
    | Raise e => Raise e
    end.
Proof.
  unfold append_sensors at 1. fold append_sensors. result_unfold.
  destruct (_sensor_data_available device (key description)) as [[|] | e];
    reflexivity.
Qed.

Lemma append_sensors_run descriptions device device_name device_type :
  regular device = true ->
  forall entities,
    append_sensors descriptions device (JStr (id_of device)) device_name device_type
                   entities
    = Ok (entities
          ++ map (fun description =>
                    {| entity_description := description;
                       _device_id := JStr (id_of device);
                       _device_name := device_name; _device_type := device_type |})
                 (List.filter (has_data device) descriptions)).
Proof.
  intros Hreg. induction descriptions as [| description rest IH]; intros entities.
  - simpl. rewrite app_nil_r. reflexivity.
  - rewrite append_sensors_cons, (sensor_data_available_regular _ _ Hreg).
    cbn [List.filter].
    destruct (has_data device description); [| apply IH].
    unfold new_sensor. result_unfold. simpl. rewrite IH, <- app_assoc. reflexivity.
Qed.

Lemma category_sensors_run label descriptions device_type devices :
  Forall (fun device => regular device = true) devices ->
  forall entities,
    category_sensors label descriptions device_type devices entities
    = Ok (entities ++ flat_map (sensors_of label descriptions device_type) devices).
Proof.
  induction 1 as [| device rest Hreg Hrest IH]; intros entities.
  - simpl. rewrite app_nil_r. reflexivity.
  - cbn [Platform.category_sensors flat_map]. result_unfold.
    assert (Hid : Api.py_get_default device "id" (JStr "unknown")
                  = Ok (JStr (id_of device))).
    { revert Hreg. unfold regular, id_of, Api.py_get_default.
      destruct device as [| | | | | fields]; try discriminate. simpl.
      destruct (assoc "id" fields) as [[] |]; simpl; try discriminate; reflexivity. }
    rewrite Hid. unfold default_name, slice_8. result_unfold.
    assert (Hname : Api.py_get_default device "name"
                      (JStr (label +:+ String.substring 0 8 (id_of device)))
                    = Ok (name_of label device)).
    { revert Hreg. unfold regular, name_of, Api.py_get_default.
      destruct device as [| | | | | fields]; try discriminate. simpl.
      destruct (assoc "name" fields); reflexivity. }
    rewrite Hname, (append_sensors_run _ _ _ _ Hreg), IH, <- app_assoc.
    reflexivity.
Qed.

Lemma async_setup_entry_run d :
  Forall (fun device => regular device = true)
         (snap_controllers d ++ snap_hydrometers d
          ++ snap_fermentation_chambers d ++ snap_brewzillas d) ->
  async_setup_entry (Some d)
  = Ok (flat_map (sensors_of "RAPT Controller " CONTROLLER_SENSOR_DESCRIPTIONS
                             "TemperatureController") (snap_controllers d)
        ++ flat_map (sensors_of "RAPT Hydrometer " HYDROMETER_SENSOR_DESCRIPTIONS
                                "Hydrometer") (snap_hydrometers d)
        ++ flat_map (sensors_of "RAPT Chamber " FERMENTATION_CHAMBER_SENSOR_DESCRIPTIONS
                                "FermentationChamber") (snap_fermentation_chambers d)
        ++ flat_map (sensors_of "RAPT BrewZilla " BREWZILLA_SENSOR_DESCRIPTIONS
                                "BrewZilla") (snap_brewzillas d)).
Proof.
  intros (H1 & (H2 & (H3 & H4)%Forall_app)%Forall_app)%Forall_app.
  unfold Platform.async_setup_entry. result_unfold.
  rewrite (category_sensors_run _ _ _ _ H1), (category_sensors_run _ _ _ _ H2),
    (category_sensors_run _ _ _ _ H3), (category_sensors_run _ _ _ _ H4).
  simpl. rewrite <- !app_assoc. reflexivity.
Qed.

Lemma sensor_of_record label descriptions device_type devices device description :
  device ∈ devices -> description ∈ descriptions ->
  has_data device description = true ->
  {| entity_description := description; _device_id := JStr (id_of device);
     _device_name := name_of label device; _device_type := device_type |}
  ∈ flat_map (sensors_of label descriptions device_type) devices.
Proof.
  intros Hdev Hdesc Hdata.
  apply list_elem_of_In, in_flat_map. exists device.
  split; [apply list_elem_of_In; exact Hdev |].
  unfold sensors_of.
  apply (in_map (fun description0 =>
                   {| entity_description := description0;
                      _device_id := JStr (id_of device);
                      _device_name := name_of label device;
                      _device_type := device_type |})).
  apply filter_In. split; [apply list_elem_of_In; exact Hdesc | exact Hdata].
Qed.

(** X18.  On records as the API documents them the set-up does not raise,
    and it makes one sensor for each record and each description of the
    record's category that the record has data for: the controllers come
    first, then the hydrometers, the fermentation chambers and the
    BrewZillas, each record with its sensors in the order of the
    descriptions.  A sensor carries the id of its record, or "unknown" when
    the record has none, and the device type of the category the record was
    fetched in.  Without a snapshot no sensor is made. *)
Theorem sensors_set_up d :
  Forall (fun device => regular device = true)
         (snap_controllers d ++ snap_hydrometers d
          ++ snap_fermentation_chambers d ++ snap_brewzillas d) ->
  async_setup_entry (Some d)
  = Ok (flat_map (sensors_of "RAPT Controller " CONTROLLER_SENSOR_DESCRIPTIONS
                             "TemperatureController") (snap_controllers d)
        ++ flat_map (sensors_of "RAPT Hydrometer " HYDROMETER_SENSOR_DESCRIPTIONS
                                "Hydrometer") (snap_hydrometers d)
        ++ flat_map (sensors_of "RAPT Chamber " FERMENTATION_CHAMBER_SENSOR_DESCRIPTIONS
                                "FermentationChamber") (snap_fermentation_chambers d)
        ++ flat_map (sensors_of "RAPT BrewZilla " BREWZILLA_SENSOR_DESCRIPTIONS
                                "BrewZilla") (snap_brewzillas d))
  /\ async_setup_entry None = Ok [].
Proof.
  intros Hregular. split; [apply async_setup_entry_run; exact Hregular | reflexivity].
Qed.

End WithBuiltins.

End PlatformFacts.

(* ===================================================================== *)
(** * What the sensors set up read *)
(* ===================================================================== *)

Module EntityFacts.

Import Coordinator Platform PlatformNotions.

Section WithBuiltins.

Variable py_float : Type.
Variable float_of_str : string -> option py_float.
Variable int_of_str : string -> option Z.
Variable str_of : json -> string.

Local Abbreviation native_value :=
  (Sensor.native_value py_float float_of_str int_of_str str_of).
Local Abbreviation available :=
  (Sensor.available py_float float_of_str int_of_str str_of).
Local Abbreviation read_sensor :=
  (Sensor.read_sensor py_float float_of_str int_of_str str_of).
Local Abbreviation _parse_value :=
  (Sensor._parse_value py_float float_of_str int_of_str str_of).
Local Abbreviation async_setup_entry := (async_setup_entry str_of).

Lemma not_a_controller sensor :
  Sensor._device_type sensor = "FermentationChamber"
  \/ Sensor._device_type sensor = "BrewZilla"
  \/ Sensor._device_type sensor = "Hydrometer" ->
  SensorNotions.searched sensor = snap_hydrometers.
Proof.
  unfold SensorNotions.searched. intros [-> | [-> | ->]]; reflexivity.
Qed.

(** X19.  The sensors of the fermentation chambers and of the BrewZillas are
    made and have no value.  For a chamber (or BrewZilla) record and a
    description it has data for, the set-up makes the sensor, with the id
    of the record and the device type of its category; read against the
    very snapshot it was made from, that sensor has no value and is
    unavailable, as long as no hydrometer carries the same id: the value is
    looked up among the hydrometers. *)
Theorem chamber_sensors_are_made_and_read_nothing d coordinator device_type
    label descriptions devices device description :
  Forall (fun device => regular device = true)
         (snap_controllers d ++ snap_hydrometers d
          ++ snap_fermentation_chambers d ++ snap_brewzillas d) ->
  data coordinator = Some d ->
  (device_type = "FermentationChamber" /\ label = "RAPT Chamber "
   /\ descriptions = FERMENTATION_CHAMBER_SENSOR_DESCRIPTIONS
   /\ devices = snap_fermentation_chambers d)
  \/ (device_type = "BrewZilla" /\ label = "RAPT BrewZilla "
      /\ descriptions = BREWZILLA_SENSOR_DESCRIPTIONS
      /\ devices = snap_brewzillas d) ->
  device ∈ devices -> description ∈ descriptions ->
  has_data device description = true ->
  Forall (fun dev => Sensor.id_is (id_of device) dev = Ok false) (snap_hydrometers d) ->
  exists entities e,
    async_setup_entry (Some d) = Ok entities
    /\ e ∈ entities
    /\ e = {| entity_description := description; _device_id := JStr (id_of device);
              _device_name := name_of label device; _device_type := device_type |}
    /\ forall sensor,
         reads_as e sensor ->
         native_value coordinator sensor = Ok None
         /\ available coordinator sensor = Ok false.
Proof.
  intros Hregular Hdata Hcategory Hdev Hdesc Hhas Hnone.
  eexists _, _. split; [apply PlatformFacts.async_setup_entry_run; exact Hregular |].
  split; [| split; [reflexivity |]].
  - rewrite !elem_of_app.
    destruct Hcategory as [(-> & -> & -> & ->) | (-> & -> & -> & ->)];
      [right; right; left | right; right; right];
      apply PlatformFacts.sensor_of_record; assumption.
  - intros sensor (Hid & _ & Htype). simpl in Hid, Htype.
    injection Hid as Hid.
    assert (Hvalue : native_value coordinator sensor = Ok None).
    { rewrite (SensorFacts.native_value_searched _ _ _ _ _ _ _ Hdata),
        not_a_controller, <- Hid.
      - rewrite (SensorFacts.find_device_none _ _ Hnone). reflexivity.
      - rewrite <- Htype.
        destruct Hcategory as [(-> & _) | (-> & _)]; auto. }
    split; [exact Hvalue |].
    unfold Sensor.available. rewrite Hvalue.
    destruct (last_update_success coordinator); reflexivity.
Qed.

Lemma find_device_first device_id before device rest :
  Forall (fun dev => Sensor.id_is device_id dev = Ok false) before ->
  Sensor.id_is device_id device = Ok true ->
  Sensor.find_device device_id (before ++ device :: rest) = Ok (Some device).
Proof.
  intros Hbefore Hdev. induction Hbefore as [| dev before Hno Hbefore IH]; simpl.
  - rewrite Hdev. reflexivity.
  - rewrite Hno. exact IH.
Qed.

Lemma read_sensor_has_data device description :
  regular device = true -> has_data device description = true ->
  exists v, read_sensor (key description) device = Ok (_parse_value v).
Proof.
  unfold regular, has_data, _sensor_data_available, Sensor.read_sensor.
  unfold mbind, result_bind.
  destruct device as [| | | | | fields]; try discriminate. simpl.
  intros [_ Htel]%andb_prop.
  destruct (assoc (key description) fields) as [v |]; [eauto |].
  destruct (assoc "telemetry" fields) as [[| | | | [| [] older] |] |];
    try discriminate Htel; try discriminate.
  simpl. destruct (assoc (key description) fields0) as [v |]; [eauto | discriminate].
Qed.

(** X20.  The sensors of the controllers and of the hydrometers read their
    own record.  For a record with an id, the first of its list to carry
    that id, and a description it has data for, the set-up makes the
    sensor; read against the snapshot it was made from, that sensor gives
    the value found on that record under the key, parsed (so nothing when
    the value found is [null]). *)
Theorem controller_sensors_read_their_record d coordinator device_type label
    descriptions devices before device rest description :
  Forall (fun device => regular device = true)
         (snap_controllers d ++ snap_hydrometers d
          ++ snap_fermentation_chambers d ++ snap_brewzillas d) ->
  data coordinator = Some d ->
  (device_type = "TemperatureController" /\ label = "RAPT Controller "
   /\ descriptions = CONTROLLER_SENSOR_DESCRIPTIONS
   /\ devices = snap_controllers d)
  \/ (device_type = "Hydrometer" /\ label = "RAPT Hydrometer "
      /\ descriptions = HYDROMETER_SENSOR_DESCRIPTIONS
      /\ devices = snap_hydrometers d) ->
  devices = before ++ device :: rest ->
  Sensor.id_is (id_of device) device = Ok true ->
  Forall (fun dev => Sensor.id_is (id_of device) dev = Ok false) before ->
  description ∈ descriptions ->
  has_data device description = true ->
  exists entities e v,
    async_setup_entry (Some d) = Ok entities
    /\ e ∈ entities
    /\ e = {| entity_description := description; _device_id := JStr (id_of device);
              _device_name := name_of label device; _device_type := device_type |}
    /\ read_sensor (key description) device = Ok (_parse_value v)
    /\ forall sensor,
         reads_as e sensor ->
         native_value coordinator sensor = Ok (_parse_value v).
Proof.
  intros Hregular Hdata Hcategory Hsplit Hid Hfirst Hdesc Hhas.
  assert (Hdev : device ∈ devices) by (rewrite Hsplit; set_solver).
  assert (Hreg : regular device = true).
  { rewrite Forall_forall in Hregular. apply Hregular.
    rewrite !elem_of_app.
    destruct Hcategory as [(_ & _ & _ & <-) | (_ & _ & _ & <-)]; auto. }
  destruct (read_sensor_has_data _ _ Hreg Hhas) as (v & Hread).
  eexists _, _, v.
  split; [apply PlatformFacts.async_setup_entry_run; exact Hregular |].
  split; [| split; [reflexivity | split; [exact Hread |]]].
  - rewrite !elem_of_app.
    destruct Hcategory as [(-> & -> & -> & ->) | (-> & -> & -> & ->)];
      [left | right; left];
      apply PlatformFacts.sensor_of_record; assumption.
  - intros sensor (Hsid & Hkey & Htype). simpl in Hsid, Hkey, Htype.
    injection Hsid as Hsid.
    rewrite (SensorFacts.native_value_searched _ _ _ _ _ _ _ Hdata).
    assert (Hsearched : SensorNotions.searched sensor d = devices).
    { unfold SensorNotions.searched. rewrite <- Htype.
      destruct Hcategory as [(-> & _ & _ & ->) | (-> & _ & _ & ->)]; reflexivity. }
    rewrite Hsearched, Hsplit, <- Hsid, (find_device_first _ _ _ _ Hfirst Hid).
    assert (Htruthy : truthy device = true).
    { revert Hid. unfold Sensor.id_is. destruct device as [| | | | | [| f fields]];
        simpl; try discriminate; reflexivity. }
    rewrite Htruthy, <- Hkey. exact Hread.
Qed.

End WithBuiltins.

End EntityFacts.

(* ===================================================================== *)
(** * Properties of the config flow *)
(* ===================================================================== *)

Module ConfigFlowFacts.

Import Api ConfigFlow.

Lemma validate_input_unfold E data w :
  validate_input E data w
  = let s0 := {| client := Api.init (username data) (api_secret data);
                 outside := w |} in
    match authenticate E s0 with
    | (Ok _, s1) =>
        match get_temperature_controllers E s1 with
        | (Ok _, s2) => (inr "RAPT Devices", outside s2)
        | (Raise (RaptApiError msg), s2) =>
            if is_substring "Authentication failed" msg
            then (inl InvalidAuth, outside s2) else (inl CannotConnect, outside s2)
        | (Raise _, s2) => (inl CannotConnect, outside s2)
        end
    | (Raise (RaptApiError msg), s1) =>
        if is_substring "Authentication failed" msg
        then (inl InvalidAuth, outside s1) else (inl CannotConnect, outside s1)
    | (Raise _, s1) => (inl CannotConnect, outside s1)
    end.
Proof.
  unfold validate_input. co_unfold. cbv zeta.
  destruct (authenticate E _) as [[[] | e] s1]; [| reflexivity].
  destruct (get_temperature_controllers E s1) as [[l | e] s2]; reflexivity.
Qed.

Lemma network_error_wording msg :
  is_substring "Authentication failed" ("Network error: " +:+ msg)
  = is_substring "Authentication failed" msg.
Proof.
  unfold is_substring. cbv [String.append]. simpl.
  destruct (String.index 0 "Authentication failed" msg); reflexivity.
Qed.

(** X21.  What the form reports when the sign-in of the validation fails.
    Any answer of the token endpoint other than a 200 is reported as
    invalid credentials, a 500 as much as a 401, and so is a 200 whose body
    is not JSON; a 200 without [access_token] is reported as a failure to
    connect.  A transport error is a failure to connect, unless its text
    happens to hold the words "Authentication failed". *)
Theorem what_the_form_reports E current_entries data w :
  let o := outcome (respond E (calls w)) in
  let r := fst (async_step_user E current_entries (Some data) w) in
  (forall status b,
      o = Response status b -> status <> 200 ->
      r = ShowForm "user" [("base", "invalid_auth")])
  /\ (forall b,
        o = Response 200 b -> body_json b = None ->
        r = ShowForm "user" [("base", "invalid_auth")])
  /\ (forall b fields,
        o = Response 200 b -> body_json b = Some (JObj fields) ->
        assoc "access_token" fields = None ->
        r = ShowForm "user" [("base", "cannot_connect")])
  /\ (forall msg,
        o = ClientError msg ->
        r = ShowForm "user"
              [("base", if is_substring "Authentication failed" msg
                        then "invalid_auth" else "cannot_connect")]).
Proof.
  cbv zeta. unfold async_step_user. rewrite validate_input_unfold. cbv zeta.
  unfold authenticate. api_unfold. simpl.
  repeat split.
  - intros status b -> Hne.
    destruct (status =? 400) eqn:H400; [reflexivity |].
    destruct (status =? 401) eqn:H401; [reflexivity |].
    apply Z.eqb_neq in Hne. rewrite Hne. reflexivity.
  - intros b -> ->. reflexivity.
  - intros b fields -> -> Hnone. simpl. rewrite Hnone. reflexivity.
  - intros msg ->. simpl. rewrite network_error_wording.
    destruct (is_substring "Authentication failed" msg); reflexivity.
Qed.

(** X22.  An entry is created exactly when the sign-in and the fetch of the
    controllers both succeed on a client made from the input and no
    existing entry has the same user name; with such an entry the flow
    aborts as already configured, and only then: the user names are
    compared after the credentials have been tried, so a wrong password for
    a configured user name is reported as such.  Without input the form is
    shown and nothing is sent. *)
Theorem entry_is_created_after_validation E current_entries data w :
  let r := fst (async_step_user E current_entries (Some data) w) in
  let s0 := {| client := Api.init (username data) (api_secret data);
               outside := w |} in
  let validated :=
    exists s1 l s2,
      authenticate E s0 = (Ok tt, s1)
      /\ get_temperature_controllers E s1 = (Ok l, s2) in
  (r = CreateEntry "RAPT Devices" data
   <-> validated /\ existsb (same_username data) current_entries = false)
  /\ (r = Abort "already_configured"
      <-> validated /\ existsb (same_username data) current_entries = true)
  /\ (forall title data', r = CreateEntry title data' ->
                          title = "RAPT Devices" /\ data' = data)
  /\ async_step_user E current_entries None w = (ShowForm "user" [], w).
Proof.
  cbv zeta. unfold async_step_user. rewrite validate_input_unfold. cbv zeta.
  destruct (authenticate E _) as [[[] | e] s1] eqn:Hauth.
  - destruct (get_temperature_controllers E s1) as [[l | e] s2] eqn:Hfetch.
    + assert (Hyes : exists s1' l s2,
                 (Ok tt, s1) = (Ok tt, s1')
                 /\ get_temperature_controllers E s1' = (Ok l, s2))
        by (exists s1, l, s2; auto).
      destruct (existsb (same_username data) current_entries); simpl.
      * split; [split; [discriminate | intros (_ & [=])] |].
        split; [split; auto |].
        split; [discriminate | reflexivity].
      * split; [split; auto |].
        split; [split; [discriminate | intros (_ & [=])] |].
        split; [intros title data' [= <- <-]; auto | reflexivity].
    + assert (Hno : ~ exists s1' l s2,
                 (Ok tt, s1) = (Ok tt, s1')
                 /\ get_temperature_controllers E s1' = (Ok l, s2)).
      { intros (s1' & l & s2' & [= <-] & Hok). rewrite Hfetch in Hok.
        discriminate Hok. }
      destruct e as [msg | | | | |];
        try destruct (is_substring "Authentication failed" msg); simpl;
        repeat split; try discriminate; try (intros (Hyes & _); contradiction).
  - assert (Hno : ~ exists s1' l s2,
               (Raise e, s1) = (Ok tt, s1')
               /\ get_temperature_controllers E s1' = (Ok l, s2)).
    { intros (s1' & l & s2' & [=] & _). }
    destruct e as [msg | | | | |];
      try destruct (is_substring "Authentication failed" msg); simpl;
      repeat split; try discriminate; try (intros (Hyes & _); contradiction).
Qed.

End ConfigFlowFacts.

(* ===================================================================== *)
(** * The further properties at concrete inputs *)
(* ===================================================================== *)

Module FurtherScenarioFacts.

Import Api Coordinator.
Import ApiNotions CoordinatorNotions RequestNotions PollNotions PlatformNotions.
Import Scenarios FurtherScenarios.

(** Finds an element in a list that is written out. *)
Ltac listed :=
  apply list_elem_of_In; vm_compute; repeat (first [left; reflexivity | right]).

(** *** The gate *)

(** Caller 0 stamps at [t0]; caller 1, who called at the same time, stamps
    fifteen seconds later. *)
Lemma two_callers_spaced :
  exists g,
    Gate.run two_callers (Gate.init 2 t0) = Some g
    /\ Gate.starts g = [t0 + seconds 15; t0]
    /\ (forall k earlier later,
           Gate.starts g !! k = Some later -> Gate.starts g !! S k = Some earlier ->
           earlier + seconds 15 <= later).
Proof.
  eexists. split; [reflexivity |]. split; [reflexivity |].
  exact (proj1 (RequestFacts.request_stamps_spaced 2 t0 two_callers _ eq_refl)).
Defined.

(** The requests themselves are not 15 seconds apart, so C1 as stated
    fails.  A client without a token makes two calls; the sign-in of the
    first takes ten seconds.  The calls stamp at [t0] and fifteen seconds
    later, but the two requests go out ten and fifteen seconds after [t0],
    five seconds apart.  And within one call, the retry after a 401 goes
    out 0.4 seconds after the request it repeats. *)
Lemma request_starts_are_not_spaced :
  let s1 := snd (_rate_limited_request slow_sign_in "GET" controllers_url fresh) in
  let s2 := two_calls slow_sign_in fresh in
  let s3 := snd (_rate_limited_request twice_401 "GET" controllers_url signed_in) in
  _last_request_time (client s1) = Some t0
  /\ _last_request_time (client s2) = Some (t0 + seconds 15)
  /\ trace (outside s2)
     = [EvPost API_AUTH_URL "brewer@example.org" "secret";
        EvRequest "GET" controllers_url (Some (JStr "T1"));
        EvSleep 4800000;
        EvRequest "GET" controllers_url (Some (JStr "T1"))]
  /\ replay slow_sign_in (outside fresh) (trace (outside s2)) = outside s2
  /\ request_starts slow_sign_in (outside fresh) (trace (outside s2))
     = [t0 + seconds 10; t0 + seconds 15]
  /\ ~ requests_start_spaced slow_sign_in fresh s2
  /\ request_starts twice_401 (outside signed_in) (trace (outside s3))
     = [t0; t0 + 400000]
  /\ ~ requests_start_spaced twice_401 signed_in s3.
Proof.
  cbv zeta.
  assert (Hstarts :
    request_starts slow_sign_in (outside fresh)
      (trace (outside (two_calls slow_sign_in fresh)))
    = [t0 + seconds 10; t0 + seconds 15]) by (vm_compute; reflexivity).
  assert (Hretry :
    request_starts twice_401 (outside signed_in)
      (trace (outside (snd (_rate_limited_request twice_401 "GET" controllers_url
                              signed_in))))
    = [t0; t0 + 400000]) by (vm_compute; reflexivity).
  split; [vm_compute; reflexivity |].
  split; [vm_compute; reflexivity |].
  split; [vm_compute; reflexivity |].
  split; [vm_compute; reflexivity |].
  split; [exact Hstarts |].
  split.
  { intros Hstated. unfold requests_start_spaced in Hstated. cbv zeta in Hstated.
    change (drop (length (trace (outside fresh)))
                 (trace (outside (two_calls slow_sign_in fresh))))
      with (trace (outside (two_calls slow_sign_in fresh))) in Hstated.
    rewrite Hstarts in Hstated.
    specialize (Hstated 0%nat _ _ eq_refl eq_refl).
    unfold seconds, us_per_second in Hstated. lia. }
  split; [exact Hretry |].
  intros Hstated. unfold requests_start_spaced in Hstated. cbv zeta in Hstated.
  change (drop (length (trace (outside signed_in)))
               (trace (outside (snd (_rate_limited_request twice_401 "GET"
                                       controllers_url signed_in)))))
    with (trace (outside (snd (_rate_limited_request twice_401 "GET"
                                 controllers_url signed_in)))) in Hstated.
  rewrite Hretry in Hstated.
  specialize (Hstated 0%nat _ _ eq_refl eq_refl).
  unfold seconds, us_per_second in Hstated. lia.
Qed.

(** *** The token endpoint *)


(** *** Requests *)

(** The endpoint is gone: one request, and the error says so with the body
    of the answer. *)
Lemma endpoint_not_found :
  let E := script [plain 404 "no such endpoint"] in
  fst (_rate_limited_request E "GET" controllers_url signed_in)
  = Raise (RaptApiError "API endpoint not found: no such endpoint")
  /\ calls (outside (snd (_rate_limited_request E "GET" controllers_url signed_in)))
     = 1%nat.
Proof.
  cbv zeta.
  destruct (RequestFacts.first_response_decides
              (script [plain 404 "no such endpoint"]) "GET" controllers_url
              signed_in (snd (enter_gate (script [plain 404 "no such endpoint"])
                                         signed_in)) eq_refl)
    as (Hstate & _ & _ & _ & _ & H404 & _).
  split.
  - exact (H404 _ eq_refl).
  - rewrite (Hstate 404 _ eq_refl ltac:(discriminate)). reflexivity.
Defined.

(** A client without a token whose credentials are refused: the request is
    not sent, and the call has stamped the time all the same. *)
Lemma refused_sign_in_sends_nothing :
  let s' := snd (_rate_limited_request refused "GET" controllers_url fresh) in
  fst (_rate_limited_request refused "GET" controllers_url fresh)
  = Raise (RaptApiError "Authentication failed: Invalid username or API key")
  /\ trace (outside s') = [EvPost API_AUTH_URL "brewer@example.org" "secret"]
  /\ _last_request_time (client s') = Some t0.
Proof.
  cbv zeta.
  destruct (RequestFacts.failed_sign_in_sends_no_request refused "GET" controllers_url
              fresh (RaptApiError "Authentication failed: Invalid username or API key")
              (snd (enter_gate refused fresh)) eq_refl)
    as (Hcall & _ & _ & Hstamp & Htrace & _).
  rewrite Hcall. simpl. split; [reflexivity |]. split; [exact Htrace | exact Hstamp].
Defined.

(** Four answers that each come after 200 ms: the poll still takes 45
    seconds. *)
Lemma steady_poll_takes_45_seconds :
  let s' := snd (get_all_devices steady signed_in) in
  exists stamp,
    _last_request_time (client s') = Some stamp
    /\ t0 + seconds 45 <= stamp
    /\ stamp <= clock (outside s')
    /\ (4 <= calls (outside s'))%nat.
Proof.
  cbv zeta.
  destruct (RequestFacts.get_all_devices_takes_45_seconds steady signed_in
              steady_devices (snd (get_all_devices steady signed_in)) eq_refl)
    as (stamp & Hlast & Hstamp & Hclock & Hcalls).
  exists stamp. auto.
Defined.

(** A minute after the sign-in the token is still good: nothing is sent. *)
Lemma token_is_good_a_minute_later :
  let s' := snd (authenticate (script [token_response "T1"]) fresh) in
  _ensure_authenticated offline (met_at a_minute_later s')
  = (Ok tt, met_at a_minute_later s').
Proof.
  cbv zeta.
  destruct (RequestFacts.token_lifetime (script [token_response "T1"]) fresh
              (snd (authenticate (script [token_response "T1"]) fresh)) eq_refl)
    as (access_token & expires_at & Htoken & Hexpiry & Hlife).
  destruct (Hlife offline a_minute_later) as (Hgood & _).
  apply Hgood.
  - intros ->. discriminate Htoken.
  - injection Hexpiry as <-. reflexivity.
Defined.

(** *** Polls and discovery *)



(** A poll, then a discovery that fetches the same devices: the callback
    is not called. *)
Lemma discovery_after_the_first_poll :
  let a1 := snd (get_all_devices steady signed_in) in
  let a2 := snd (get_all_devices steady a1) in
  let s1 := snd (_async_update_data steady (starting [quiet] signed_in)) in
  let s2 := snd (async_discover_devices steady s1) in
  drop (length (trace (outside a2))) (trace (outside (api_client s2)))
  = [EvRequestRefresh].
Proof.
  cbv zeta.
  assert (H1 : get_all_devices steady signed_in
               = (Ok steady_devices, snd (get_all_devices steady signed_in)))
    by (vm_compute; reflexivity).
  assert (H2 : get_all_devices steady (snd (get_all_devices steady signed_in))
               = (Ok steady_devices,
                  snd (get_all_devices steady (snd (get_all_devices steady signed_in)))))
    by (vm_compute; reflexivity).
  destruct (PollFacts.discovery_after_a_poll_is_silent steady steady
              (starting [quiet] signed_in)
              steady_devices (snd (get_all_devices steady signed_in))
              steady_devices
              (snd (get_all_devices steady (snd (get_all_devices steady signed_in))))
              H1 ltac:(repeat constructor) H2 ltac:(repeat constructor))
    as (Hevents & _).
  { set_solver. }
  exact Hevents.
Defined.

(** *** The platform *)

(** A hydrometer whose id is a number: no sensor at all is set up. *)
Lemma numbered_id_fails_the_set_up :
  exists e, Platform.async_setup_entry no_str (Some numbered) = Raise e.
Proof.
  apply (PlatformFacts.one_unusable_record_fails_the_set_up no_str numbered
           (JObj [("id", JNum 7); ("name", JStr "Pill")])).
  - set_solver.
  - reflexivity.
Defined.

(** A new device whose record does not say what it is gets no sensor. *)
Lemma untyped_device_gets_no_sensor :
  Platform.async_discovery_callback no_str [device "C" "Pill 2"] = Ok [].
Proof.
  apply (PlatformFacts.discovery_callback_passes_over_other_types no_str
           [device "C" "Pill 2"]); repeat constructor.
Defined.

(** The sensors of the brewery: two for the controller, one for the
    chamber, none for the hydrometer, which reports nothing. *)
Lemma sensors_of_the_brewery :
  Platform.async_setup_entry no_str (Some brewery)
  = Ok [{| Platform.entity_description := temperature;
           Platform._device_id := JStr "A";
           Platform._device_name := JStr "Controller";
           Platform._device_type := "TemperatureController" |};
        {| Platform.entity_description := signal_strength;
           Platform._device_id := JStr "A";
           Platform._device_name := JStr "Controller";
           Platform._device_type := "TemperatureController" |};
        {| Platform.entity_description := temperature;
           Platform._device_id := JStr "F1";
           Platform._device_name := JStr "Chamber";
           Platform._device_type := "FermentationChamber" |}].
Proof.
  apply (PlatformFacts.sensors_set_up no_str brewery). repeat constructor.
Defined.

(** The chamber's temperature sensor is set up, and reads nothing. *)
Lemma chamber_sensor_of_the_brewery :
  exists entities,
    Platform.async_setup_entry no_str (Some brewery) = Ok entities
    /\ {| Platform.entity_description := temperature;
          Platform._device_id := JStr "F1";
          Platform._device_name := JStr "Chamber";
          Platform._device_type := "FermentationChamber" |} ∈ entities
    /\ Sensor.native_value Z (fun _ => None) (fun _ => None) no_str
         with_brewery chamber_temperature = Ok None.
Proof.
  destruct (EntityFacts.chamber_sensors_are_made_and_read_nothing
              Z (fun _ => None) (fun _ => None) no_str
              brewery with_brewery "FermentationChamber" "RAPT Chamber "
              Platform.FERMENTATION_CHAMBER_SENSOR_DESCRIPTIONS
              [chamber_F1] chamber_F1 temperature)
    as (entities & e & Hsetup & Hin & -> & Hread).
  - repeat constructor.
  - reflexivity.
  - left. auto.
  - listed.
  - listed.
  - reflexivity.
  - repeat constructor.
  - exists entities. split; [exact Hsetup |]. split; [exact Hin |].
    apply (Hread chamber_temperature). repeat split.
Defined.

(** The controller's temperature sensor is set up, and reads 19. *)
Lemma controller_sensor_of_the_brewery :
  exists entities,
    Platform.async_setup_entry no_str (Some brewery) = Ok entities
    /\ {| Platform.entity_description := temperature;
          Platform._device_id := JStr "A";
          Platform._device_name := JStr "Controller";
          Platform._device_type := "TemperatureController" |} ∈ entities
    /\ Sensor.native_value Z (fun _ => None) (fun _ => None) no_str
         with_brewery controller_temperature = Ok (Some (Sensor.NInt Z 19)).
Proof.
  destruct (EntityFacts.controller_sensors_read_their_record
              Z (fun _ => None) (fun _ => None) no_str
              brewery with_brewery "TemperatureController" "RAPT Controller "
              Platform.CONTROLLER_SENSOR_DESCRIPTIONS
              [controller_A] [] controller_A [] temperature)
    as (entities & e & v & Hsetup & Hin & -> & Hfound & Hread).
  - repeat constructor.
  - reflexivity.
  - left. auto.
  - reflexivity.
  - reflexivity.
  - constructor.
  - listed.
  - reflexivity.
  - exists entities. split; [exact Hsetup |]. split; [exact Hin |].
    rewrite (Hread controller_temperature); [| repeat split].
    rewrite <- Hfound. reflexivity.
Defined.

End FurtherScenarioFacts.

